(** * k8sagents: the command-intent pipeline of [k8s.py]

    A shallow embedding of the guardrail validator ([InputValidator]), the
    manifest generators ([generate_*_yaml]), the executor ([K8sOperations]),
    the tools ([*Tool._run]) and the intent resolver ([K8sAgent.run]).

    Conventions of the embedding.
    - A Python [str] is a Rocq [string]; the texts the pipeline handles
      (resource names, images, commands, CLI output) are ASCII, and
      [lower], [strip], [\w], [\s] and [\d] are given on ASCII.
    - A dynamically typed Python value is a [pyval]; a [dict] is an
      association list in insertion order.
    - [raise] is the left injection of [result]; code that also touches the
      console, the log, the file system or the cluster CLI runs in the
      state-and-exception monad [M] over [world].
    - [re], [json], [base64], [tempfile] and [subprocess] are library code:
      they are modelled by the definitions of the first sections.
    - The texts shown on the console are kept without their pictographs and
      layout.  The console prints every text it is given, as the plain
      [print] of the fallback branch of [K8sUI] does; the [rich] console
      reads a text as markup and raises on an ill-formed tag, which can
      only be in a text with an opening bracket and is not modelled. *)

From Stdlib Require Import List String Ascii ZArith NArith Bool Arith Lia.
From Stdlib Require Import DecimalString.
Import ListNotations.
Open Scope string_scope.

Set Implicit Arguments.
Set Warnings "-register-all".

(* ================================================================== *)
(** ** Characters and strings *)

Module Str.

Definition code (c : ascii) : N := N_of_ascii c.

Definition in_range (lo hi : N) (c : ascii) : bool :=
  (lo <=? code c)%N && (code c <=? hi)%N.

Definition is_upper (c : ascii) : bool := in_range 65 90 c.
Definition is_lower (c : ascii) : bool := in_range 97 122 c.
Definition is_digit (c : ascii) : bool := in_range 48 57 c.

(** [str.isspace] on ASCII: TAB, LF, VT, FF, CR, FS, GS, RS, US, space. *)
Definition is_space (c : ascii) : bool :=
  in_range 9 13 c || in_range 28 32 c.

(** [\w] on ASCII. *)
Definition is_word (c : ascii) : bool :=
  is_lower c || is_upper c || is_digit c || (code c =? 95)%N.

Definition lower_char (c : ascii) : ascii :=
  if is_upper c then ascii_of_N (code c + 32) else c.

(** [s.lower()] *)
Fixpoint lower (s : string) : string :=
  match s with
  | EmptyString => EmptyString
  | String c s' => String (lower_char c) (lower s')
  end.

(** [s.lstrip()] *)
Fixpoint lstrip (s : string) : string :=
  match s with
  | EmptyString => EmptyString
  | String c s' => if is_space c then lstrip s' else s
  end.

(** [s.rstrip()] *)
Fixpoint rstrip (s : string) : string :=
  match s with
  | EmptyString => EmptyString
  | String c s' =>
      match rstrip s' with
      | EmptyString => if is_space c then EmptyString else String c EmptyString
      | t => String c t
      end
  end.

(** [s.strip()] *)
Definition strip (s : string) : string := rstrip (lstrip s).

(** [sub in s] *)
Fixpoint contains (sub s : string) : bool :=
  prefix sub s ||
  match s with
  | EmptyString => false
  | String _ s' => contains sub s'
  end.

Fixpoint forallb (p : ascii -> bool) (s : string) : bool :=
  match s with
  | EmptyString => true
  | String c s' => p c && forallb p s'
  end.

Fixpoint existsb (p : ascii -> bool) (s : string) : bool :=
  match s with
  | EmptyString => false
  | String c s' => p c || existsb p s'
  end.

(** The first [n] characters of [s]. *)
Fixpoint take (n : nat) (s : string) : string :=
  match n, s with
  | S n', String c s' => String c (take n' s')
  | _, _ => EmptyString
  end.

Definition is_empty (s : string) : bool :=
  match s with EmptyString => true | _ => false end.

(** [str(n)] for an [int]. *)
Definition of_Z (z : Z) : string := NilZero.string_of_int (Z.to_int z).

(** [", ".join(l)] and the like. *)
Fixpoint join (sep : string) (l : list string) : string :=
  match l with
  | [] => ""
  | [x] => x
  | x :: l' => x ++ sep ++ join sep l'
  end.

Definition LF : ascii := ascii_of_N 10.

(** [int(s)] for a text of decimal digits with an optional sign. *)
Fixpoint digits_value (s : string) (acc : Z) : Z :=
  match s with
  | EmptyString => acc
  | String c s' => digits_value s' (10 * acc + Z.of_N (code c - 48))%Z
  end.

Definition to_Z (s : string) : Z :=
  match s with
  | String c s' =>
      if Ascii.eqb c "-" then (- digits_value s' 0)%Z else digits_value s 0
  | EmptyString => 0%Z
  end.

(** [s.title()]: a letter that follows a letter is lowered, any other
    letter is raised. *)
Definition upper_char (c : ascii) : ascii :=
  if is_lower c then ascii_of_N (code c - 32) else c.

Fixpoint title_from (after_letter : bool) (s : string) : string :=
  match s with
  | EmptyString => EmptyString
  | String c s' =>
      let letter := is_lower c || is_upper c in
      String (if after_letter then lower_char c else upper_char c)
             (title_from letter s')
  end.

Definition title (s : string) : string := title_from false s.

(** [len(s.splitlines())]: a line ends at LF, CR, CR LF, VT, FF, FS, GS
    or RS; the text after the last line end is a line when it is not
    empty. *)
Definition is_linebreak (c : ascii) : bool :=
  in_range 10 13 c || in_range 28 30 c.

Fixpoint count_lines (s : string) : nat :=
  match s with
  | EmptyString => 0
  | String c s' =>
      if is_linebreak c then
        match s' with
        | String d s'' =>
            if (code c =? 13)%N && (code d =? 10)%N
            then S (count_lines s'')
            else S (count_lines s')
        | EmptyString => 1
        end
      else
        match s' with
        | EmptyString => 1
        | _ => count_lines s'
        end
  end.


End Str.

(* ================================================================== *)
(** ** Python values, exceptions *)

Inductive pyval : Type :=
| PNone
| PBool (b : bool)
| PInt (z : Z)
| PFloat (lexeme : string)
| PStr (s : string)
| PList (l : list pyval)
| PDict (d : list (string * pyval)).

Inductive exn : Type :=
| ValidationError (msg : string)
| SecurityError (msg : string)
| ResourceError (msg : string)
| JSONDecodeError (msg : string)
| TypeError (msg : string)
| AttributeError (msg : string).

(** [str(e)] *)
Definition exn_str (e : exn) : string :=
  match e with
  | ValidationError m | SecurityError m | ResourceError m
  | JSONDecodeError m | TypeError m | AttributeError m => m
  end.

(** [isinstance(e, K8sError)]: the exception classes the module declares. *)
Definition is_K8sError (e : exn) : bool :=
  match e with
  | ValidationError _ | SecurityError _ | ResourceError _ => true
  | _ => false
  end.

Definition result (A : Type) : Type := (exn + A)%type.
Definition ret {A : Type} (a : A) : result A := inr a.
Definition raise {A : Type} (e : exn) : result A := inl e.
Definition rbind {A B : Type} (m : result A) (f : A -> result B) : result B :=
  match m with
  | inl e => inl e
  | inr a => f a
  end.

Declare Scope result_scope.
Delimit Scope result_scope with result.
Notation "'let?' x ':=' m 'in' k" := (rbind m (fun x => k))
  (at level 10, x name, m at level 100, k at level 200) : result_scope.
Open Scope result_scope.

Definition succeeds {A : Type} (m : result A) : Prop := exists a, m = inr a.
Definition fails_with {A : Type} (m : result A) (p : exn -> bool) : Prop :=
  exists e, m = inl e /\ p e = true.

(* ================================================================== *)
(** ** Regular expressions: the backtracking matcher of [re]

    Only the constructs the module's patterns use.  A match is searched for
    in priority order (greedy repetition and option first), as [re] does,
    so that the groups of the first match found are the groups [re]
    reports. *)

Module Re.

Inductive regex : Type :=
| Chars (p : ascii -> bool)      (* a literal or a character class *)
| Seq (r1 r2 : regex)
| Alt (r1 r2 : regex)            (* r1|r2, r1 tried first *)
| Star (r : regex)               (* r*, greedy *)
| Opt (r : regex)                (* r?, greedy *)
| Group (i : nat) (r : regex)    (* capturing group number i *)
| Bol                            (* ^ *)
| Eol.                           (* $ without MULTILINE *)

(** r+ *)
Definition Plus (r : regex) : regex := Seq r (Star r).

(** A literal text; with [re.IGNORECASE] letters match in both cases. *)
Fixpoint Lit (ignorecase : bool) (s : string) : regex :=
  match s with
  | EmptyString => Opt (Chars (fun _ => false))
  | String c EmptyString =>
      Chars (fun x => if ignorecase
                      then Ascii.eqb (Str.lower_char x) (Str.lower_char c)
                      else Ascii.eqb x c)
  | String c s' =>
      Seq (Chars (fun x => if ignorecase
                           then Ascii.eqb (Str.lower_char x) (Str.lower_char c)
                           else Ascii.eqb x c))
          (Lit ignorecase s')
  end.

(** The text of each group that took part in the match. *)
Definition captures : Type := list (nat * string).

Fixpoint group (i : nat) (caps : captures) : option string :=
  match caps with
  | [] => None
  | (j, s) :: caps' => if Nat.eqb i j then Some s else group i caps'
  end.

Section Exec.
Variable A : Type.

(** A continuation receives the position reached, the text that is left
    and the groups so far. *)
Definition cont : Type := nat -> string -> captures -> option A.

(** Greedy repetition of [body]; an iteration has to consume input, and
    the length of the text bounds the number of iterations. *)
Fixpoint star_loop (fuel : nat)
    (body : nat -> string -> captures -> cont -> option A)
    (pos : nat) (s : string) (caps : captures) (k : cont) : option A :=
  match fuel with
  | O => k pos s caps
  | S fuel' =>
      match body pos s caps
              (fun pos' s' caps' =>
                 if Nat.ltb (String.length s') (String.length s)
                 then star_loop fuel' body pos' s' caps' k
                 else None) with
      | Some a => Some a
      | None => k pos s caps
      end
  end.

Fixpoint exec (r : regex) (pos : nat) (s : string) (caps : captures)
    (k : cont) {struct r} : option A :=
  match r with
  | Chars p =>
      match s with
      | String c s' => if p c then k (S pos) s' caps else None
      | EmptyString => None
      end
  | Seq r1 r2 =>
      exec r1 pos s caps (fun pos' s' caps' => exec r2 pos' s' caps' k)
  | Alt r1 r2 =>
      match exec r1 pos s caps k with
      | Some a => Some a
      | None => exec r2 pos s caps k
      end
  | Star r1 => star_loop (String.length s) (exec r1) pos s caps k
  | Opt r1 =>
      match exec r1 pos s caps k with
      | Some a => Some a
      | None => k pos s caps
      end
  | Group i r1 =>
      exec r1 pos s caps
        (fun pos' s' caps' => k pos' s' ((i, Str.take (pos' - pos) s) :: caps'))
  | Bol => if Nat.eqb pos 0 then k pos s caps else None
  | Eol =>
      match s with
      | EmptyString => k pos s caps
      | String c EmptyString =>
          if Ascii.eqb c Str.LF then k pos s caps else None
      | _ => None
      end
  end.
End Exec.

(** A match object: where the match starts and ends, and its groups. *)
Record match_obj : Type := MatchObj {
  m_start : nat;
  m_end : nat;
  m_groups : captures
}.

(** [re.match(r, s)]: a match that starts at the beginning of [s]. *)
Definition rmatch (r : regex) (s : string) : option match_obj :=
  exec r 0 s [] (fun pos' _ caps' => Some (MatchObj 0 pos' caps')).

(** [re.search(r, s)]: the first position at which a match starts. *)
Fixpoint search_from (r : regex) (pos : nat) (s : string) : option match_obj :=
  match exec r pos s [] (fun pos' _ caps' => Some (MatchObj pos pos' caps')) with
  | Some m => Some m
  | None =>
      match s with
      | EmptyString => None
      | String _ s' => search_from r (S pos) s'
      end
  end.

Definition search (r : regex) (s : string) : option match_obj :=
  search_from r 0 s.

(** [m.group(i)] for a group that took part in the match. *)
Definition group_of (m : match_obj) (i : nat) : option string :=
  group i (m_groups m).

Definition matched (o : option match_obj) : bool :=
  match o with Some _ => true | None => false end.

(** What the greedy repetition of a character class amounts to: the
    longest run of characters of the class is tried first, then each
    shorter one. *)
Fixpoint greedy {A : Type} (p : ascii -> bool) (pos : nat) (s : string)
    (caps : captures) (k : cont A) : option A :=
  match s with
  | String c s' =>
      if p c then
        match greedy p (S pos) s' caps k with
        | Some a => Some a
        | None => k pos s caps
        end
      else k pos s caps
  | EmptyString => k pos s caps
  end.

(** Where [$] matches: at the end of the text, or before a line feed that
    ends it. *)
Definition is_eol (s : string) : bool :=
  match s with
  | EmptyString => true
  | String c EmptyString => Ascii.eqb c Str.LF
  | _ => false
  end.

End Re.

(* ================================================================== *)
(** ** Truth values and numbers of Python *)

(** The digits of a float literal before its exponent. *)
Fixpoint mantissa (lexeme : string) : string :=
  match lexeme with
  | EmptyString => EmptyString
  | String c s' =>
      if Ascii.eqb (Str.lower_char c) "e" then EmptyString
      else String c (mantissa s')
  end.

(** A float is false exactly when it is zero (underflow of a literal
    with a nonzero digit is not modelled). *)
Definition float_nonzero (lexeme : string) : bool :=
  negb (Str.forallb (fun c => Ascii.eqb c "0" || Ascii.eqb c "." ||
                              Ascii.eqb c "-" || Ascii.eqb c "+")
          (mantissa lexeme)).

(** [bool(v)] *)
Definition truthy (v : pyval) : bool :=
  match v with
  | PNone => false
  | PBool b => b
  | PInt z => negb (z =? 0)%Z
  | PFloat x => float_nonzero x
  | PStr s => negb (Str.is_empty s)
  | PList l => match l with [] => false | _ => true end
  | PDict d => match d with [] => false | _ => true end
  end.

(** The integer of a value for which [isinstance(v, int)] holds;
    [bool] is a subclass of [int]. *)
Definition as_int (v : pyval) : option Z :=
  match v with
  | PInt z => Some z
  | PBool b => Some (if b then 1 else 0)%Z
  | _ => None
  end.

(** [repr] of a list of strings, as an f-string renders it (for strings
    that need no escape). *)
Definition repr_str (s : string) : string := "'" ++ s ++ "'".
Definition repr_list (l : list string) : string :=
  "[" ++ Str.join ", " (map repr_str l) ++ "]".

(** [d.get(key)] and [d.get(key, default)] on a dict. *)
Fixpoint dict_lookup (key : string) (d : list (string * pyval)) : option pyval :=
  match d with
  | [] => None
  | (k, v) :: d' => if String.eqb key k then Some v else dict_lookup key d'
  end.

Definition dict_get (d : list (string * pyval)) (key : string) (default : pyval)
  : pyval :=
  match dict_lookup key d with
  | Some v => v
  | None => default
  end.

(** [dict] assignment: a key that is present keeps its place. *)
Fixpoint dict_set (d : list (string * pyval)) (k : string) (v : pyval)
  : list (string * pyval) :=
  match d with
  | [] => [(k, v)]
  | (k', v') :: d' =>
      if String.eqb k k' then (k, v) :: d' else (k', v') :: dict_set d' k v
  end.

(* ================================================================== *)
(** ** Configuration: [K8sConfig]

    The fields of the language model other than its name ([api_key],
    [temperature], [max_tokens]) play no part in the pipeline and are left
    out. *)

Record K8sConfig : Type := mkConfig {
  namespace : string;
  model : string;
  timeout : Z;
  max_replicas : Z;
  allowed_images : list string;
  forbidden_namespaces : list string
}.

Definition default_allowed_images : list string :=
  ["nginx"; "httpd"; "redis"; "postgres"; "mysql"; "mongo"].
Definition default_forbidden_namespaces : list string :=
  ["kube-system"; "kube-public"; "kube-node-lease"].

(** The constructor followed by [__post_init__]: a list that was left
    unset ([None]) gets its default, a list that was given is kept, also
    when it is empty. *)
Definition K8sConfig_init (namespace model : string) (timeout max_replicas : Z)
    (allowed_images forbidden_namespaces : option (list string)) : K8sConfig :=
  {| namespace := namespace;
     model := model;
     timeout := timeout;
     max_replicas := max_replicas;
     allowed_images :=
       match allowed_images with
       | None => default_allowed_images
       | Some l => l
       end;
     forbidden_namespaces :=
       match forbidden_namespaces with
       | None => default_forbidden_namespaces
       | Some l => l
       end |}.

(** [K8sConfig()] with every field at its default. *)
Definition default_config : K8sConfig :=
  K8sConfig_init "default" "gemini-2.0-flash" 30 10 None None.

(* ================================================================== *)
(** ** Guardrails: [InputValidator] *)

Definition alnum_lc (c : ascii) : bool := Str.is_lower c || Str.is_digit c.
Definition name_char (c : ascii) : bool := Ascii.eqb c "-" || alnum_lc c.
Definition alnum (c : ascii) : bool :=
  Str.is_lower c || Str.is_upper c || Str.is_digit c.
Definition tag_char (c : ascii) : bool :=
  alnum c || Ascii.eqb c "." || Ascii.eqb c "_" || Ascii.eqb c "-".
Definition repo_char (c : ascii) : bool :=
  alnum c || Ascii.eqb c "." || Ascii.eqb c "_" || Ascii.eqb c "/" ||
  Ascii.eqb c "-".

(** [^[a-z0-9]([-a-z0-9]*[a-z0-9])?$] *)
Definition name_re : Re.regex :=
  Re.Seq Re.Bol
    (Re.Seq (Re.Chars alnum_lc)
       (Re.Seq
          (Re.Opt (Re.Group 1
             (Re.Seq (Re.Star (Re.Chars name_char)) (Re.Chars alnum_lc))))
          Re.Eol)).

(** [^[a-zA-Z0-9._/-]+(:[a-zA-Z0-9._-]+)?$] *)
Definition image_re : Re.regex :=
  Re.Seq Re.Bol
    (Re.Seq (Re.Plus (Re.Chars repo_char))
       (Re.Seq
          (Re.Opt (Re.Group 1
             (Re.Seq (Re.Chars (Ascii.eqb ":")) (Re.Plus (Re.Chars tag_char)))))
          Re.Eol)).

Definition re_type_error : exn := TypeError "expected string or bytes-like object".
Definition no_attribute (attr : string) : exn :=
  AttributeError ("object has no attribute '" ++ attr ++ "'").

Section InputValidator.
Variable config : K8sConfig.

Definition validate_name (name : pyval) : result string :=
  if negb (truthy name) then
    raise (ValidationError "Name cannot be empty")
  else
    match name with
    | PStr name =>
        if negb (Re.matched (Re.rmatch name_re name)) then
          raise (ValidationError
                   "Name must be lowercase alphanumeric with hyphens only")
        else if Nat.ltb 63 (String.length name) then
          raise (ValidationError "Name must be 63 characters or less")
        else ret (Str.strip (Str.lower name))
    | _ => raise re_type_error
    end.

Definition validate_image (image : pyval) : result string :=
  if negb (truthy image) then
    raise (ValidationError "Image cannot be empty")
  else
    let? _ :=
      match allowed_images config with
      | [] => ret tt
      | _ :: _ =>
          match image with
          | PStr image =>
              if negb (existsb (fun allowed => Str.contains allowed (Str.lower image))
                         (allowed_images config))
              then raise (ValidationError
                            ("Image not in allowed list: " ++
                             repr_list (allowed_images config)))
              else ret tt
          | _ => raise (no_attribute "lower")
          end
      end in
    match image with
    | PStr image =>
        if negb (Re.matched (Re.rmatch image_re image)) then
          raise (ValidationError "Invalid image format")
        else ret (Str.strip image)
    | _ => raise re_type_error
    end.

Definition validate_replicas (replicas : pyval) : result pyval :=
  match as_int replicas with
  | None => raise (ValidationError "Replicas must be a non-negative integer")
  | Some n =>
      if (n <? 0)%Z then
        raise (ValidationError "Replicas must be a non-negative integer")
      else if (max_replicas config <? n)%Z then
        raise (ValidationError
                 ("Replicas cannot exceed " ++ Str.of_Z (max_replicas config)))
      else ret replicas
  end.

Definition validate_namespace (namespace0 : pyval) : result string :=
  let namespace1 :=
    if negb (truthy namespace0) then PStr (namespace config) else namespace0 in
  let forbidden :=
    match namespace1 with
    | PStr ns => if existsb (String.eqb ns) (forbidden_namespaces config)
                 then Some ns else None
    | _ => None
    end in
  match forbidden with
  | Some ns => raise (SecurityError ("Namespace '" ++ ns ++ "' is forbidden"))
  | None => validate_name namespace1
  end.

Definition validate_port (port : pyval) : result pyval :=
  match as_int port with
  | None => raise (ValidationError "Port must be between 1 and 65535")
  | Some n =>
      if (n <? 1)%Z || (65535 <? n)%Z then
        raise (ValidationError "Port must be between 1 and 65535")
      else ret port
  end.

End InputValidator.

(* ================================================================== *)
(** ** [base64]: the standard alphabet with padding *)

Module Base64.

Definition alphabet : string :=
  "ABCDEFGHIJKLMNOPQRSTUVWXYZabcdefghijklmnopqrstuvwxyz0123456789+/".

Definition pad : ascii := "=".

(** Six bits, most significant first, as a number below 64. *)
Definition sextet (x5 x4 x3 x2 x1 x0 : bool) : ascii :=
  Ascii x0 x1 x2 x3 x4 x5 false false.

(** The character of a six-bit value. *)
Definition enc (sx : ascii) : ascii :=
  match String.get (nat_of_ascii sx) alphabet with
  | Some c => c
  | None => pad
  end.

Fixpoint index_of (c : ascii) (s : string) (i : nat) : option nat :=
  match s with
  | EmptyString => None
  | String d s' => if Ascii.eqb c d then Some i else index_of c s' (S i)
  end.

(** The six-bit value of a character of the alphabet. *)
Definition dec (c : ascii) : option ascii :=
  match index_of c alphabet 0 with
  | Some i => Some (ascii_of_nat i)
  | None => None
  end.

(** [base64.b64encode(bs)]: three bytes give four characters; one or two
    bytes left over are padded with zero bits and [=]. *)
Fixpoint b64encode (bs : string) : string :=
  match bs with
  | EmptyString => EmptyString
  | String (Ascii a0 a1 a2 a3 a4 a5 a6 a7) EmptyString =>
      String (enc (sextet a7 a6 a5 a4 a3 a2))
     (String (enc (sextet a1 a0 false false false false))
     (String pad (String pad EmptyString)))
  | String (Ascii a0 a1 a2 a3 a4 a5 a6 a7)
     (String (Ascii b0 b1 b2 b3 b4 b5 b6 b7) EmptyString) =>
      String (enc (sextet a7 a6 a5 a4 a3 a2))
     (String (enc (sextet a1 a0 b7 b6 b5 b4))
     (String (enc (sextet b3 b2 b1 b0 false false))
     (String pad EmptyString)))
  | String (Ascii a0 a1 a2 a3 a4 a5 a6 a7)
     (String (Ascii b0 b1 b2 b3 b4 b5 b6 b7)
     (String (Ascii c0 c1 c2 c3 c4 c5 c6 c7) rest)) =>
      String (enc (sextet a7 a6 a5 a4 a3 a2))
     (String (enc (sextet a1 a0 b7 b6 b5 b4))
     (String (enc (sextet b3 b2 b1 b0 c7 c6))
     (String (enc (sextet c5 c4 c3 c2 c1 c0))
     (b64encode rest))))
  end.

(** The bytes of a group of four six-bit values. *)
Definition byte1 (s1 s2 : ascii) : ascii :=
  match s1, s2 with
  | Ascii x0 x1 x2 x3 x4 x5 _ _, Ascii y0 y1 y2 y3 y4 y5 _ _ =>
      Ascii y4 y5 x0 x1 x2 x3 x4 x5
  end.
Definition byte2 (s2 s3 : ascii) : ascii :=
  match s2, s3 with
  | Ascii y0 y1 y2 y3 y4 y5 _ _, Ascii z0 z1 z2 z3 z4 z5 _ _ =>
      Ascii z2 z3 z4 z5 y0 y1 y2 y3
  end.
Definition byte3 (s3 s4 : ascii) : ascii :=
  match s3, s4 with
  | Ascii z0 z1 z2 z3 z4 z5 _ _, Ascii w0 w1 w2 w3 w4 w5 _ _ =>
      Ascii w0 w1 w2 w3 w4 w5 z0 z1
  end.

(** [base64.b64decode(s, validate=True)]: groups of four characters, the
    last one possibly padded. *)
Fixpoint b64decode (s : string) : option string :=
  match s with
  | EmptyString => Some EmptyString
  | String c1 (String c2 (String c3 (String c4 rest))) =>
      match dec c1, dec c2 with
      | Some s1, Some s2 =>
          if Ascii.eqb c4 pad then
            match rest with
            | EmptyString =>
                if Ascii.eqb c3 pad then
                  Some (String (byte1 s1 s2) EmptyString)
                else
                  match dec c3 with
                  | Some s3 =>
                      Some (String (byte1 s1 s2)
                             (String (byte2 s2 s3) EmptyString))
                  | None => None
                  end
            | _ => None
            end
          else
            match dec c3, dec c4, b64decode rest with
            | Some s3, Some s4, Some bs =>
                Some (String (byte1 s1 s2)
                       (String (byte2 s2 s3) (String (byte3 s3 s4) bs)))
            | _, _, _ => None
            end
      | _, _ => None
      end
  | _ => None
  end.

(** [v.encode()]: the UTF-8 bytes of a text, which is how a text is kept. *)
Definition encode (v : string) : string := v.
(** [b.decode()] on the ASCII text of an encoding. *)
Definition decode (b : string) : string := b.

End Base64.

(* ================================================================== *)
(** ** [json]: [loads] and [dumps]

    The decoder follows the scanner of the library: the JSON grammar, the
    constants [NaN], [Infinity] and [-Infinity], control characters refused
    inside strings.  The text of a decode error is the library's message
    without the position that follows it. *)

Module Json.

Definition dq : ascii := ascii_of_N 34.
Definition backslash : ascii := ascii_of_N 92.

Definition is_ws (c : ascii) : bool :=
  let n := Str.code c in
  (n =? 32)%N || (n =? 9)%N || (n =? 10)%N || (n =? 13)%N.

Fixpoint skip_ws (s : string) : string :=
  match s with
  | String c s' => if is_ws c then skip_ws s' else s
  | EmptyString => s
  end.

Fixpoint drop (n : nat) (s : string) : string :=
  match n, s with
  | S n', String _ s' => drop n' s'
  | _, _ => s
  end.

Definition hex_val (c : ascii) : option N :=
  let n := Str.code c in
  if Str.is_digit c then Some (n - 48)%N
  else if Str.in_range 97 102 c then Some (n - 87)%N
  else if Str.in_range 65 70 c then Some (n - 55)%N
  else None.

(** Four hexadecimal digits. *)
Definition hex4 (s : string) : option (N * string) :=
  match s with
  | String a (String b (String c (String d rest))) =>
      match hex_val a, hex_val b, hex_val c, hex_val d with
      | Some x, Some y, Some z, Some w =>
          Some (((x * 16 + y) * 16 + z) * 16 + w, rest)%N
      | _, _, _, _ => None
      end
  | _ => None
  end.

(** The UTF-8 bytes of a code point. *)
Definition utf8 (cp : N) : string :=
  let b (n : N) := String (ascii_of_N n) EmptyString in
  (if cp <? 128 then b cp
   else if cp <? 2048 then b (192 + cp / 64) ++ b (128 + cp mod 64)
   else if cp <? 65536 then
     b (224 + cp / 4096) ++ b (128 + (cp / 64) mod 64) ++ b (128 + cp mod 64)
   else
     b (240 + cp / 262144) ++ b (128 + (cp / 4096) mod 64) ++
     b (128 + (cp / 64) mod 64) ++ b (128 + cp mod 64))%N.

Definition unescape (c : ascii) : option ascii :=
  let n := Str.code c in
  if (n =? 34)%N || (n =? 92)%N || (n =? 47)%N then Some c
  else if Ascii.eqb c "b" then Some (ascii_of_N 8)
  else if Ascii.eqb c "f" then Some (ascii_of_N 12)
  else if Ascii.eqb c "n" then Some (ascii_of_N 10)
  else if Ascii.eqb c "r" then Some (ascii_of_N 13)
  else if Ascii.eqb c "t" then Some (ascii_of_N 9)
  else None.

Definition err {A : Type} (msg : string) : result A :=
  raise (JSONDecodeError msg).

(** The text of a string after its opening quote, and what follows the
    closing quote. *)
Fixpoint scan_string (fuel : nat) (s : string) : result (string * string) :=
  match fuel with
  | O => err "Unterminated string starting at"
  | S fuel' =>
      match s with
      | EmptyString => err "Unterminated string starting at"
      | String c s' =>
          if Ascii.eqb c dq then ret (EmptyString, s')
          else if Ascii.eqb c backslash then
            match s' with
            | EmptyString => err "Unterminated string starting at"
            | String e s'' =>
                if Ascii.eqb e "u" then
                  match hex4 s'' with
                  | None => err "Invalid \uXXXX escape"
                  | Some (u, s3) =>
                      let pair :=
                        if ((55296 <=? u) && (u <=? 56319))%N then
                          match s3 with
                          | String b1 (String b2 s5) =>
                              if Ascii.eqb b1 backslash && Ascii.eqb b2 "u" then
                                match hex4 s5 with
                                | Some (u2, s6) =>
                                    if ((56320 <=? u2) && (u2 <=? 57343))%N
                                    then Some (65536 + ((u - 55296) * 1024
                                                        + (u2 - 56320)), s6)%N
                                    else None
                                | None => None
                                end
                              else None
                          | _ => None
                          end
                        else None in
                      let (cp, s4) :=
                        match pair with Some p => p | None => (u, s3) end in
                      let? r := scan_string fuel' s4 in
                      ret (utf8 cp ++ fst r, snd r)
                  end
                else
                  match unescape e with
                  | None => err "Invalid \escape"
                  | Some x =>
                      let? r := scan_string fuel' s'' in
                      ret (String x (fst r), snd r)
                  end
            end
          else if (Str.code c <? 32)%N then err "Invalid control character at"
          else
            let? r := scan_string fuel' s' in
            ret (String c (fst r), snd r)
      end
  end.

Definition digit1_9 (c : ascii) : bool := Str.in_range 49 57 c.
Definition one (c : ascii) : Re.regex := Re.Chars (Ascii.eqb c).

(** The number pattern of the scanner: an integer part (group 1, an
    optional minus sign, then 0 or a digit 1-9 and digits), an optional
    fraction (group 2) and an optional exponent (group 3). *)
Definition number_re : Re.regex :=
  Re.Seq
    (Re.Group 1
       (Re.Seq (Re.Opt (one "-"))
          (Re.Alt (one "0")
             (Re.Seq (Re.Chars digit1_9) (Re.Star (Re.Chars Str.is_digit))))))
    (Re.Seq
       (Re.Opt (Re.Group 2 (Re.Seq (one ".") (Re.Plus (Re.Chars Str.is_digit)))))
       (Re.Opt (Re.Group 3
          (Re.Seq (Re.Chars (fun c => Ascii.eqb c "e" || Ascii.eqb c "E"))
             (Re.Seq (Re.Opt (Re.Chars (fun c => Ascii.eqb c "-" || Ascii.eqb c "+")))
                (Re.Plus (Re.Chars Str.is_digit))))))).

(** One value at the head of [s]; [elements] reads the elements of an
    array and [members] the members of an object, after the opening
    bracket.  [fuel] bounds the depth of the calls; a call is made for a
    bracket, an element or a member read, so that twice the length of the
    text is more than a run can use. *)
Fixpoint value (fuel : nat) (s : string) : result (pyval * string) :=
  match fuel with
  | O => err "Expecting value"
  | S fuel' =>
      match s with
      | String c s' =>
          if Ascii.eqb c dq then
            let? r := scan_string (String.length s') s' in
            ret (PStr (fst r), snd r)
          else if Ascii.eqb c "{" then
            match skip_ws s' with
            | String c1 s1 =>
                if Ascii.eqb c1 "}" then ret (PDict [], s1)
                else members fuel' (skip_ws s') []
            | EmptyString => members fuel' EmptyString []
            end
          else if Ascii.eqb c "[" then
            match skip_ws s' with
            | String c1 s1 =>
                if Ascii.eqb c1 "]" then ret (PList [], s1)
                else elements fuel' (skip_ws s') []
            | EmptyString => err "Expecting value"
            end
          else if prefix "null" s then ret (PNone, drop 4 s)
          else if prefix "true" s then ret (PBool true, drop 4 s)
          else if prefix "false" s then ret (PBool false, drop 5 s)
          else
            match Re.rmatch number_re s with
            | Some m =>
                let lexeme := Str.take (Re.m_end m) s in
                let rest := drop (Re.m_end m) s in
                match Re.group_of m 2, Re.group_of m 3 with
                | None, None => ret (PInt (Str.to_Z lexeme), rest)
                | _, _ => ret (PFloat lexeme, rest)
                end
            | None =>
                if prefix "NaN" s then ret (PFloat "nan", drop 3 s)
                else if prefix "Infinity" s then ret (PFloat "inf", drop 8 s)
                else if prefix "-Infinity" s then ret (PFloat "-inf", drop 9 s)
                else err "Expecting value"
            end
      | EmptyString => err "Expecting value"
      end
  end

with elements (fuel : nat) (s : string) (acc : list pyval)
  : result (pyval * string) :=
  match fuel with
  | O => err "Expecting value"
  | S fuel' =>
      let? r := value fuel' s in
      match skip_ws (snd r) with
      | String c s1 =>
          if Ascii.eqb c "]" then ret (PList (acc ++ [fst r]), s1)
          else if Ascii.eqb c "," then
            elements fuel' (skip_ws s1) (acc ++ [fst r])
          else err "Expecting ',' delimiter"
      | EmptyString => err "Expecting ',' delimiter"
      end
  end

with members (fuel : nat) (s : string) (acc : list (string * pyval))
  : result (pyval * string) :=
  match fuel with
  | O => err "Expecting value"
  | S fuel' =>
      match s with
      | String c s' =>
          if Ascii.eqb c dq then
            let? key := scan_string (String.length s') s' in
            match skip_ws (snd key) with
            | String c1 s1 =>
                if Ascii.eqb c1 ":" then
                  let? r := value fuel' (skip_ws s1) in
                  let acc' := dict_set acc (fst key) (fst r) in
                  match skip_ws (snd r) with
                  | String c2 s2 =>
                      if Ascii.eqb c2 "}" then ret (PDict acc', s2)
                      else if Ascii.eqb c2 "," then
                        members fuel' (skip_ws s2) acc'
                      else err "Expecting ',' delimiter"
                  | EmptyString => err "Expecting ',' delimiter"
                  end
                else err "Expecting ':' delimiter"
            | EmptyString => err "Expecting ':' delimiter"
            end
          else err "Expecting property name enclosed in double quotes"
      | EmptyString => err "Expecting property name enclosed in double quotes"
      end
  end.

(** [json.loads(s)] *)
Definition loads (s : string) : result pyval :=
  let? r := value (S (2 * String.length s)) (skip_ws s) in
  match skip_ws (snd r) with
  | EmptyString => ret (fst r)
  | _ => err "Extra data"
  end.

Definition hex_digit (n : N) : ascii :=
  if (n <? 10)%N then ascii_of_N (48 + n) else ascii_of_N (87 + n).

(** A character of a string as [dumps] writes it (a byte of a character
    beyond ASCII is written as it is). *)
Definition escape_char (c : ascii) : string :=
  let n := Str.code c in
  let one x := String backslash (String x EmptyString) in
  if Ascii.eqb c dq then one dq
  else if Ascii.eqb c backslash then one backslash
  else if (n =? 10)%N then one "n"%char
  else if (n =? 13)%N then one "r"%char
  else if (n =? 9)%N then one "t"%char
  else if (n =? 12)%N then one "f"%char
  else if (n =? 8)%N then one "b"%char
  else if (n <? 32)%N || (n =? 127)%N then
    String backslash
      (String "u" (String "0" (String "0"
         (String (hex_digit (n / 16)) (String (hex_digit (n mod 16)) EmptyString)))))
  else String c EmptyString.

Fixpoint escape (s : string) : string :=
  match s with
  | EmptyString => EmptyString
  | String c s' => escape_char c ++ escape s'
  end.

Definition quote (s : string) : string :=
  String dq (escape s) ++ String dq EmptyString.

(** [json.dumps(v)] with the default separators. *)
Fixpoint dumps (v : pyval) : string :=
  match v with
  | PNone => "null"
  | PBool true => "true"
  | PBool false => "false"
  | PInt z => Str.of_Z z
  | PFloat x => x
  | PStr s => quote s
  | PList l => "[" ++ Str.join ", " (map dumps l) ++ "]"
  | PDict d =>
      "{" ++ Str.join ", " (map (fun kv => quote (fst kv) ++ ": " ++ dumps (snd kv)) d)
          ++ "}"
  end.

End Json.

(** [repr(v)] and [str(v)], as an f-string renders a value (a string is
    quoted with single quotes and written without escapes). *)
Fixpoint py_repr (v : pyval) : string :=
  match v with
  | PNone => "None"
  | PBool true => "True"
  | PBool false => "False"
  | PInt z => Str.of_Z z
  | PFloat x => x
  | PStr s => repr_str s
  | PList l => "[" ++ Str.join ", " (map py_repr l) ++ "]"
  | PDict d =>
      "{" ++ Str.join ", "
               (map (fun kv => repr_str (fst kv) ++ ": " ++ py_repr (snd kv)) d)
          ++ "}"
  end.

Definition py_str (v : pyval) : string :=
  match v with
  | PStr s => s
  | _ => py_repr v
  end.

(* ================================================================== *)
(** ** Manifests: [generate_*_yaml] *)

(** The text [yaml.dump(doc, default_flow_style=False, sort_keys=False)].
    The emitter is library code and is left uninterpreted: the text of a
    manifest is kept as the document it serialises, keys in the order in
    which the dict was built. *)
Inductive yaml_text : Type :=
| yaml_dump (doc : pyval).

Definition document (t : yaml_text) : pyval :=
  match t with yaml_dump doc => doc end.

(** The field of a document at a path of keys, as in
    [doc["spec"]["replicas"]]. *)
Fixpoint field (path : list string) (doc : pyval) : option pyval :=
  match path with
  | [] => Some doc
  | k :: path' =>
      match doc with
      | PDict d =>
          match dict_lookup k d with
          | Some v => field path' v
          | None => None
          end
      | _ => None
      end
  end.

(** [[{"name": k, "value": v} for k, v in env_vars.items()]] *)
Definition env_entries (env_vars : pyval) : result pyval :=
  match env_vars with
  | PDict d =>
      ret (PList (map (fun kv => PDict [("name", PStr (fst kv)); ("value", snd kv)]) d))
  | _ => raise (no_attribute "items")
  end.

Definition probe (port : pyval) (initial_delay period : Z) : pyval :=
  PDict [("httpGet", PDict [("path", PStr "/"); ("port", port)]);
         ("initialDelaySeconds", PInt initial_delay);
         ("periodSeconds", PInt period)].

Definition generate_deployment_yaml (name image : string) (replicas : pyval)
    (namespace : string) (port cpu_limit memory_limit env_vars : pyval)
  : result yaml_text :=
  let container :=
    [("name", PStr name);
     ("image", PStr image);
     ("ports", PList [PDict [("containerPort", port); ("name", PStr "http")]]);
     ("resources",
        PDict [("limits", PDict [("cpu", cpu_limit); ("memory", memory_limit)]);
               ("requests", PDict [("cpu", PStr "100m"); ("memory", PStr "128Mi")])]);
     ("livenessProbe", probe port 30 10);
     ("readinessProbe", probe port 5 5)] in
  let? container :=
    if truthy env_vars then
      let? env := env_entries env_vars in
      ret (dict_set container "env" env)
    else ret container in
  let containers := PList [PDict container] in
  let deployment :=
    PDict
      [("apiVersion", PStr "apps/v1");
       ("kind", PStr "Deployment");
       ("metadata",
          PDict [("name", PStr name);
                 ("namespace", PStr namespace);
                 ("labels", PDict [("app", PStr name); ("version", PStr "v1")])]);
       ("spec",
          PDict [("replicas", replicas);
                 ("selector", PDict [("matchLabels", PDict [("app", PStr name)])]);
                 ("template",
                    PDict [("metadata",
                              PDict [("labels",
                                        PDict [("app", PStr name);
                                               ("version", PStr "v1")])]);
                           ("spec",
                              PDict [("containers", containers);
                                     ("restartPolicy", PStr "Always")])])])] in
  ret (yaml_dump deployment).

Definition generate_service_yaml (name : string) (port target_port : pyval)
    (namespace : string) (service_type : pyval) : yaml_text :=
  let service :=
    PDict
      [("apiVersion", PStr "v1");
       ("kind", PStr "Service");
       ("metadata",
          PDict [("name", PStr (name ++ "-service"));
                 ("namespace", PStr namespace);
                 ("labels", PDict [("app", PStr name)])]);
       ("spec",
          PDict [("selector", PDict [("app", PStr name)]);
                 ("ports",
                    PList [PDict [("port", port); ("targetPort", target_port);
                                  ("name", PStr "http")]]);
                 ("type", service_type)])] in
  yaml_dump service.

Definition generate_configmap_yaml (name : string) (data : list (string * string))
    (namespace : string) : yaml_text :=
  let configmap :=
    PDict
      [("apiVersion", PStr "v1");
       ("kind", PStr "ConfigMap");
       ("metadata",
          PDict [("name", PStr (name ++ "-config"));
                 ("namespace", PStr namespace);
                 ("labels", PDict [("app", PStr name)])]);
       ("data", PDict (map (fun kv => (fst kv, PStr (snd kv))) data))] in
  yaml_dump configmap.

(** [{k: base64.b64encode(v.encode()).decode() for k, v in data.items()}] *)
Definition encoded_data (data : list (string * string)) : list (string * pyval) :=
  map (fun kv =>
         (fst kv,
          PStr (Base64.decode (Base64.b64encode (Base64.encode (snd kv))))))
      data.

Definition generate_secret_yaml (name : string) (data : list (string * string))
    (namespace : string) : yaml_text :=
  let secret :=
    PDict
      [("apiVersion", PStr "v1");
       ("kind", PStr "Secret");
       ("metadata",
          PDict [("name", PStr (name ++ "-secret"));
                 ("namespace", PStr namespace);
                 ("labels", PDict [("app", PStr name)])]);
       ("type", PStr "Opaque");
       ("data", PDict (encoded_data data))] in
  yaml_dump secret.

(* ================================================================== *)
(** ** The world outside: console, log, temporary files, cluster CLI *)

(** How [subprocess.run] ends. *)
Inductive proc_outcome : Type :=
| Completed (returncode : Z) (stdout stderr : string)
| TimeoutExpired
| FileNotFoundError
| OtherError (msg : string).

Inductive ui_event : Type :=
| UiSuccess (msg : string)
| UiError (msg : string)
| UiWarning (msg : string)
| UiInfo (msg : string)
| UiYaml (content : yaml_text) (title : string)
| UiTable (data : list pyval) (title : string)
| UiPrint (text : string).

(** [cli] answers for the external tool: what a command line does, given
    the command lines run before it and the time it is allowed.
    [invocations] are the command lines handed to [subprocess.run], in
    order; [files] the temporary files that exist. *)
Record world : Type := mkWorld {
  cli : list (list string) -> list string -> Z -> proc_outcome;
  invocations : list (list string);
  files : list (string * yaml_text);
  tmp_counter : nat;
  console : list ui_event;
  log : list string
}.

Definition M (A : Type) : Type := world -> result A * world.

Definition mret {A : Type} (a : A) : M A := fun w => (inr a, w).
Definition mraise {A : Type} (e : exn) : M A := fun w => (inl e, w).
Definition mbind {A B : Type} (m : M A) (f : A -> M B) : M B :=
  fun w =>
    match m w with
    | (inl e, w') => (inl e, w')
    | (inr a, w') => f a w'
    end.
Definition lift {A : Type} (r : result A) : M A := fun w => (r, w).

(** [try: m  except Exception as e: handler(e)] *)
Definition try_except {A : Type} (m : M A) (handler : exn -> M A) : M A :=
  fun w =>
    match m w with
    | (inl e, w') => handler e w'
    | (inr a, w') => (inr a, w')
    end.

Declare Scope m_scope.
Delimit Scope m_scope with m.
Notation "'do' x <- m ; k" := (mbind m (fun x => k))
  (at level 10, x name, m at level 100, k at level 200) : m_scope.
Notation "m ;; k" := (mbind m (fun _ => k))
  (at level 100, k at level 200, right associativity) : m_scope.
Open Scope m_scope.

Definition emit (e : ui_event) : M unit :=
  fun w => (inr tt,
            {| cli := cli w; invocations := invocations w; files := files w;
               tmp_counter := tmp_counter w;
               console := console w ++ [e]; log := log w |}).

(** [logger.error(msg)] *)
Definition logger_error (msg : string) : M unit :=
  fun w => (inr tt,
            {| cli := cli w; invocations := invocations w; files := files w;
               tmp_counter := tmp_counter w;
               console := console w; log := log w ++ [msg] |}).

(** [K8sUI]: a call shows its text on a console that takes every text
    (the plain [print]; the [rich] console, for a text without markup). *)
Definition print_success (msg : string) : M unit := emit (UiSuccess msg).
Definition print_error (msg : string) : M unit := emit (UiError msg).
Definition print_warning (msg : string) : M unit := emit (UiWarning msg).
Definition print_info (msg : string) : M unit := emit (UiInfo msg).
Definition show_yaml (content : yaml_text) (title : string) : M unit :=
  emit (UiYaml content title).
Definition show_table (data : list pyval) (title : string) : M unit :=
  emit (UiTable data title).

(** [with tempfile.NamedTemporaryFile(mode="w", suffix=suffix, delete=False) as f:
       f.write(content); temp_file = f.name] *)
Definition write_temp_file (suffix : string) (content : yaml_text) : M string :=
  fun w =>
    let path := "/tmp/tmp" ++ Str.of_Z (Z.of_nat (tmp_counter w)) ++ suffix in
    (inr path,
     {| cli := cli w; invocations := invocations w;
        files := files w ++ [(path, content)];
        tmp_counter := S (tmp_counter w);
        console := console w; log := log w |}).

Definition file_exists (path : string) (w : world) : bool :=
  existsb (fun f => String.eqb (fst f) path) (files w).

(** [try: os.unlink(path)  except OSError: pass] *)
Definition unlink_quietly (path : string) : M unit :=
  fun w =>
    (inr tt,
     {| cli := cli w; invocations := invocations w;
        files := filter (fun f => negb (String.eqb (fst f) path)) (files w);
        tmp_counter := tmp_counter w;
        console := console w; log := log w |}).

(** [subprocess.run(cmd, capture_output=True, text=True, timeout=timeout,
    check=False)]; an argument that is not a string is refused before any
    process starts. *)
Fixpoint all_str (cmd : list pyval) : option (list string) :=
  match cmd with
  | [] => Some []
  | PStr s :: cmd' =>
      match all_str cmd' with
      | Some l => Some (s :: l)
      | None => None
      end
  | _ :: _ => None
  end.

Definition subprocess_run (cmd : list pyval) (timeout : Z) : M proc_outcome :=
  fun w =>
    match all_str cmd with
    | None => (inr (OtherError "expected str, bytes or os.PathLike object"), w)
    | Some args =>
        (inr (cli w (invocations w) args timeout),
         {| cli := cli w; invocations := invocations w ++ [args];
            files := files w; tmp_counter := tmp_counter w;
            console := console w; log := log w |})
    end.

(* ================================================================== *)
(** ** The executor: [K8sOperations] *)

(** The dict that [_run_kubectl] returns. *)
Record ExecutionResult : Type := mkResult {
  success : bool;
  stdout : string;
  stderr : string;
  returncode : Z
}.

(** [obj.get(key, default)]: only a dict has [get]. *)
Definition py_get (obj : pyval) (key : string) (default : pyval) : result pyval :=
  match obj with
  | PDict d => ret (dict_get d key default)
  | _ => raise (no_attribute "get")
  end.

(** The items of [for item in v]. *)
Fixpoint chars (s : string) : list pyval :=
  match s with
  | EmptyString => []
  | String c s' => PStr (String c EmptyString) :: chars s'
  end.

Definition py_iter (v : pyval) : result (list pyval) :=
  match v with
  | PList l => ret l
  | PDict d => ret (map (fun kv => PStr (fst kv)) d)
  | PStr s => ret (chars s)
  | _ => raise (TypeError "object is not iterable")
  end.

(** The body of the loop of [list_resources]: the summary of one item. *)
Definition resource_summary (item : pyval) : result pyval :=
  let? metadata := py_get item "metadata" (PDict []) in
  let? name := py_get metadata "name" (PStr "") in
  let? ns := py_get metadata "namespace" (PStr "") in
  let? age := py_get metadata "creationTimestamp" (PStr "") in
  let? status := py_get item "status" (PDict []) in
  let? phase := py_get status "phase" (PStr "") in
  ret (PDict [("name", name); ("namespace", ns); ("age", age); ("status", phase)]).

Fixpoint summaries (items : list pyval) : result (list pyval) :=
  match items with
  | [] => ret []
  | item :: items' =>
      let? r := resource_summary item in
      let? rs := summaries items' in
      ret (r :: rs)
  end.

Section K8sOperations.
Variable config : K8sConfig.

(** [try: body  except Exception as e: logger.error(f"{what}: {e}"); raise] *)
Definition logged {A : Type} (what : string) (body : M A) : M A :=
  try_except body
    (fun e => logger_error (what ++ ": " ++ exn_str e) ;; mraise e).

Definition _run_kubectl (cmd : list pyval) (timeout0 : option Z)
  : M ExecutionResult :=
  let timeout1 :=
    match timeout0 with
    | Some t => if (t =? 0)%Z then timeout config else t
    | None => timeout config
    end in
  do outcome <- subprocess_run cmd timeout1;
  match outcome with
  | Completed rc out err =>
      mret {| success := (rc =? 0)%Z; stdout := out; stderr := err;
              returncode := rc |}
  | TimeoutExpired =>
      mraise (ResourceError ("kubectl command timed out after " ++
                             Str.of_Z timeout1 ++ " seconds"))
  | FileNotFoundError =>
      mraise (ResourceError
                "kubectl not found. Please install kubectl and ensure it's in PATH")
  | OtherError msg =>
      mraise (ResourceError ("Failed to run kubectl command: " ++ msg))
  end.

(** [if namespace: cmd.extend(["-n", namespace])] *)
Definition with_namespace (cmd : list pyval) (namespace : pyval) : list pyval :=
  if truthy namespace then (cmd ++ [PStr "-n"; namespace])%list else cmd.

Definition apply_yaml (yaml_content : yaml_text) (dry_run : bool)
  : M ExecutionResult :=
  logged "Error applying YAML"
    (do temp_file <- write_temp_file ".yaml" yaml_content;
     let cmd := ([PStr "kubectl"; PStr "apply"; PStr "-f"; PStr temp_file] ++
                 (if dry_run then [PStr "--dry-run=client"] else []))%list in
     do result <- _run_kubectl cmd None;
     unlink_quietly temp_file ;;
     if negb (success result) then
       mraise (ResourceError ("Failed to apply YAML: " ++ stderr result))
     else mret result).

Definition delete_resource (resource_type name namespace : pyval)
  : M ExecutionResult :=
  logged "Error deleting resource"
    (let cmd := with_namespace
                  [PStr "kubectl"; PStr "delete"; resource_type; name] namespace in
     do result <- _run_kubectl cmd None;
     if negb (success result) then
       mraise (ResourceError ("Failed to delete " ++ py_str resource_type ++ " " ++
                              py_str name ++ ": " ++ stderr result))
     else mret result).

Definition list_resources (resource_type namespace : pyval) : M (list pyval) :=
  logged "Error listing resources"
    (let cmd := with_namespace
                  [PStr "kubectl"; PStr "get"; resource_type; PStr "-o"; PStr "json"]
                  namespace in
     do result <- _run_kubectl cmd None;
     if negb (success result) then
       mraise (ResourceError ("Failed to list " ++ py_str resource_type ++ ": " ++
                              stderr result))
     else
       do data <- lift (Json.loads (stdout result));
       do items_field <- lift (py_get data "items" (PList []));
       do items <- lift (py_iter items_field);
       lift (summaries items)).

Definition get_logs (pod_name namespace lines : pyval) : M string :=
  logged "Error getting logs"
    (let cmd := with_namespace
                  [PStr "kubectl"; PStr "logs"; pod_name;
                   PStr ("--tail=" ++ py_str lines)] namespace in
     do result <- _run_kubectl cmd None;
     if negb (success result) then
       mraise (ResourceError ("Failed to get logs for " ++ py_str pod_name ++ ": " ++
                              stderr result))
     else mret (stdout result)).

Definition describe_resource (resource_type name namespace : pyval) : M string :=
  logged "Error describing resource"
    (let cmd := with_namespace
                  [PStr "kubectl"; PStr "describe"; resource_type; name] namespace in
     do result <- _run_kubectl cmd None;
     if negb (success result) then
       mraise (ResourceError ("Failed to describe " ++ py_str resource_type ++ " " ++
                              py_str name ++ ": " ++ stderr result))
     else mret (stdout result)).

Definition scale_deployment (name : string) (replicas namespace : pyval)
  : M ExecutionResult :=
  logged "Error scaling deployment"
    (do replicas <- lift (validate_replicas config replicas);
     let cmd := with_namespace
                  [PStr "kubectl"; PStr "scale"; PStr "deployment"; PStr name;
                   PStr ("--replicas=" ++ py_str replicas)] namespace in
     do result <- _run_kubectl cmd None;
     if negb (success result) then
       mraise (ResourceError ("Failed to scale deployment " ++ name ++ ": " ++
                              stderr result))
     else mret result).

End K8sOperations.

(* ================================================================== *)
(** ** The tools *)

Module CreateDeploymentTool.
Section Tool.
Variable config : K8sConfig.

Definition _run (tool_input : string) : M string :=
  try_except
    (do data <- lift (Json.loads tool_input);
     do name0 <- lift (py_get data "name" PNone);
     do name <- lift (validate_name name0);
     do image0 <- lift (py_get data "image" PNone);
     do image <- lift (validate_image config image0);
     do replicas0 <- lift (py_get data "replicas" (PInt 1));
     do replicas <- lift (validate_replicas config replicas0);
     do namespace0 <- lift (py_get data "namespace" (PStr "default"));
     do namespace <- lift (validate_namespace config namespace0);
     do port0 <- lift (py_get data "port" (PInt 80));
     do port <- lift (validate_port port0);
     do cpu_limit <- lift (py_get data "cpu_limit" (PStr "500m"));
     do memory_limit <- lift (py_get data "memory_limit" (PStr "512Mi"));
     do env_vars <- lift (py_get data "env_vars" (PDict []));
     do yaml_content <-
       lift (generate_deployment_yaml name image replicas namespace port
               cpu_limit memory_limit env_vars);
     show_yaml yaml_content ("Deployment YAML for " ++ name) ;;
     do result <- apply_yaml config yaml_content false;
     print_success ("Deployment '" ++ name ++
                    "' created successfully in namespace '" ++ namespace ++ "'") ;;
     mret ("Deployment created: " ++ stdout result))
    (fun e =>
       match e with
       | ValidationError _ =>
           print_error ("Validation error: " ++ exn_str e) ;;
           mret ("Validation error: " ++ exn_str e)
       | SecurityError _ =>
           print_error ("Security error: " ++ exn_str e) ;;
           mret ("Security error: " ++ exn_str e)
       | ResourceError _ =>
           print_error ("Resource error: " ++ exn_str e) ;;
           mret ("Resource error: " ++ exn_str e)
       | _ =>
           logger_error ("Unexpected error in CreateDeploymentTool: " ++ exn_str e) ;;
           print_error ("Unexpected error: " ++ exn_str e) ;;
           mret ("Error: " ++ exn_str e)
       end).
End Tool.
End CreateDeploymentTool.

Module CreateServiceTool.
Section Tool.
Variable config : K8sConfig.

Definition _run (tool_input : string) : M string :=
  try_except
    (do data <- lift (Json.loads tool_input);
     do name0 <- lift (py_get data "name" PNone);
     do name <- lift (validate_name name0);
     do port0 <- lift (py_get data "port" (PInt 80));
     do port <- lift (validate_port port0);
     do target_port0 <- lift (py_get data "target_port" (PInt 80));
     do target_port <- lift (validate_port target_port0);
     do namespace0 <- lift (py_get data "namespace" (PStr "default"));
     do namespace <- lift (validate_namespace config namespace0);
     do service_type <- lift (py_get data "service_type" (PStr "ClusterIP"));
     let yaml_content :=
       generate_service_yaml name port target_port namespace service_type in
     show_yaml yaml_content ("Service YAML for " ++ name) ;;
     do result <- apply_yaml config yaml_content false;
     print_success ("Service '" ++ name ++ "-service' created successfully") ;;
     mret ("Service created: " ++ stdout result))
    (fun e =>
       logger_error ("Error in CreateServiceTool: " ++ exn_str e) ;;
       print_error ("Error creating service: " ++ exn_str e) ;;
       mret ("Error: " ++ exn_str e)).
End Tool.
End CreateServiceTool.

Module ListResourcesTool.
Section Tool.
Variable config : K8sConfig.

Definition _run (tool_input : string) : M string :=
  try_except
    (do data <- lift (Json.loads tool_input);
     do resource_type <- lift (py_get data "resource_type" (PStr "pods"));
     do namespace <- lift (py_get data "namespace" PNone);
     do resources <- list_resources config resource_type namespace;
     match resources with
     | _ :: _ =>
         do title <- lift (match resource_type with
                           | PStr s => ret (Str.title s)
                           | _ => raise (no_attribute "title")
                           end);
         show_table resources (title ++ " Resources") ;;
         mret ("Found " ++ Str.of_Z (Z.of_nat (List.length resources)) ++ " " ++
               py_str resource_type)
     | [] =>
         print_info ("No " ++ py_str resource_type ++ " found") ;;
         mret ("No " ++ py_str resource_type ++ " found")
     end)
    (fun e =>
       logger_error ("Error in ListResourcesTool: " ++ exn_str e) ;;
       print_error ("Error listing resources: " ++ exn_str e) ;;
       mret ("Error: " ++ exn_str e)).
End Tool.
End ListResourcesTool.

Module ScaleDeploymentTool.
Section Tool.
Variable config : K8sConfig.

Definition _run (tool_input : string) : M string :=
  try_except
    (do data <- lift (Json.loads tool_input);
     do name0 <- lift (py_get data "name" PNone);
     do name <- lift (validate_name name0);
     do replicas0 <- lift (py_get data "replicas" PNone);
     do replicas <- lift (validate_replicas config replicas0);
     do namespace <- lift (py_get data "namespace" PNone);
     do result <- scale_deployment config name replicas namespace;
     print_success ("Deployment '" ++ name ++ "' scaled to " ++ py_str replicas ++
                    " replicas") ;;
     mret ("Deployment scaled: " ++ stdout result))
    (fun e =>
       logger_error ("Error in ScaleDeploymentTool: " ++ exn_str e) ;;
       print_error ("Error scaling deployment: " ++ exn_str e) ;;
       mret ("Error: " ++ exn_str e)).
End Tool.
End ScaleDeploymentTool.

Module GetLogsTool.
Section Tool.
Variable config : K8sConfig.

Definition _run (tool_input : string) : M string :=
  try_except
    (do data <- lift (Json.loads tool_input);
     do pod_name <- lift (py_get data "pod_name" PNone);
     do namespace <- lift (py_get data "namespace" PNone);
     do lines <- lift (py_get data "lines" (PInt 100));
     (if negb (truthy pod_name)
      then mraise (ValidationError "pod_name is required")
      else mret tt) ;;
     do logs <- get_logs config pod_name namespace lines;
     if negb (Str.is_empty logs) then
       print_info ("Logs from pod '" ++ py_str pod_name ++ "':") ;;
       emit (UiPrint logs) ;;
       mret ("Retrieved " ++ Str.of_Z (Z.of_nat (Str.count_lines logs)) ++
             " log lines")
     else
       print_info ("No logs found for pod '" ++ py_str pod_name ++ "'") ;;
       mret "No logs found")
    (fun e =>
       logger_error ("Error in GetLogsTool: " ++ exn_str e) ;;
       print_error ("Error getting logs: " ++ exn_str e) ;;
       mret ("Error: " ++ exn_str e)).
End Tool.
End GetLogsTool.

(* ================================================================== *)
(** ** The intent resolver and dispatcher: [K8sAgent] *)

Module K8sAgent.

(** The patterns of the [_process_*_command] methods, all compiled with
    [re.IGNORECASE]. *)
Definition word : Re.regex := Re.Plus (Re.Chars Str.is_word).
Definition spaces : Re.regex := Re.Plus (Re.Chars Str.is_space).
Definition digits : Re.regex := Re.Plus (Re.Chars Str.is_digit).
(** An optional quote, single or double (written Q? below). *)
Definition opt_quote : Re.regex :=
  Re.Opt (Re.Chars (fun c => Ascii.eqb c "'" || Ascii.eqb c Json.dq)).
(** (?::\w+)? *)
Definition opt_tag : Re.regex :=
  Re.Opt (Re.Seq (Re.Chars (Ascii.eqb ":")) word).
Definition lit (s : string) : Re.regex := Re.Lit true s.

(** named?\s+Q?(\w+)Q? *)
Definition named_re : Re.regex :=
  Re.Seq (lit "name") (Re.Seq (Re.Opt (lit "d"))
    (Re.Seq spaces (Re.Seq opt_quote (Re.Seq (Re.Group 1 word) opt_quote)))).

(** (\w+)(?::\w+)?\s+image *)
Definition image_before_re : Re.regex :=
  Re.Seq (Re.Group 1 word) (Re.Seq opt_tag (Re.Seq spaces (lit "image"))).

(** image\s+(\w+)(?::\w+)? *)
Definition image_after_re : Re.regex :=
  Re.Seq (lit "image") (Re.Seq spaces (Re.Seq (Re.Group 1 word) opt_tag)).

(** (\d+)\s+replicas? *)
Definition replicas_re : Re.regex :=
  Re.Seq (Re.Group 1 digits)
    (Re.Seq spaces (Re.Seq (lit "replica") (Re.Opt (lit "s")))).

(** for\s+Q?(\w+)Q? *)
Definition for_re : Re.regex :=
  Re.Seq (lit "for")
    (Re.Seq spaces (Re.Seq opt_quote (Re.Seq (Re.Group 1 word) opt_quote))).

(** port\s+(\d+) *)
Definition port_re : Re.regex :=
  Re.Seq (lit "port") (Re.Seq spaces (Re.Group 1 digits)).

(** Q?(\w+)Q?\s+deployment *)
Definition scale_name_re : Re.regex :=
  Re.Seq opt_quote (Re.Seq (Re.Group 1 word)
    (Re.Seq opt_quote (Re.Seq spaces (lit "deployment")))).

(** pod\s+Q?(\w+)Q? *)
Definition pod_re : Re.regex :=
  Re.Seq (lit "pod")
    (Re.Seq spaces (Re.Seq opt_quote (Re.Seq (Re.Group 1 word) opt_quote))).

(** [m.group(1) if m else default] *)
Definition group1_or (m : option Re.match_obj) (default : string) : string :=
  match m with
  | Some m =>
      match Re.group_of m 1 with
      | Some s => s
      | None => default
      end
  | None => default
  end.

(** [any(k in text for k in keywords)] *)
Definition any_in (keywords : list string) (text : string) : bool :=
  existsb (fun k => Str.contains k text) keywords.

(** The parameters that [_process_deployment_command] reads from the text. *)
Definition deployment_parameters (user_input : string) : pyval :=
  let name := group1_or (Re.search named_re user_input) "webapp" in
  let image_match :=
    match Re.search image_before_re user_input with
    | Some m => Some m
    | None => Re.search image_after_re user_input
    end in
  let image := group1_or image_match "nginx" in
  let replicas :=
    match Re.search replicas_re user_input with
    | Some m => Str.to_Z (group1_or (Some m) "")
    | None => 1%Z
    end in
  PDict [("name", PStr name); ("image", PStr image); ("replicas", PInt replicas)].

Definition service_parameters (user_input : string) : pyval :=
  let name := group1_or (Re.search for_re user_input) "webapp" in
  let port :=
    match Re.search port_re user_input with
    | Some m => Str.to_Z (group1_or (Some m) "")
    | None => 80%Z
    end in
  PDict [("name", PStr name); ("port", PInt port)].

Definition list_parameters (user_input : string) : pyval :=
  let resource_type :=
    if Str.contains "deployment" (Str.lower user_input) then "deployments"
    else if Str.contains "service" (Str.lower user_input) then "services"
    else "pods" in
  PDict [("resource_type", PStr resource_type)].

Definition scale_parameters (user_input : string) : pyval :=
  let name := group1_or (Re.search scale_name_re user_input) "webapp" in
  let replicas :=
    match Re.search replicas_re user_input with
    | Some m => Str.to_Z (group1_or (Some m) "")
    | None => 1%Z
    end in
  PDict [("name", PStr name); ("replicas", PInt replicas)].

Definition logs_parameters (user_input : string) : pyval :=
  let pod_name := group1_or (Re.search pod_re user_input) "webapp" in
  PDict [("pod_name", PStr pod_name)].

(** The first lines of the help screen (the list of example commands that
    follows is left out). *)
Definition help_text : string :=
  "Kubernetes AI Agent - Available Commands:".

Definition dangerous_keywords : list string :=
  ["delete"; "remove"; "destroy"; "kill"].

Section Agent.
Variable config : K8sConfig.

(** [try: body  except Exception as e: return f"{what}: {e}"] *)
Definition guarded (what : string) (body : M string) : M string :=
  try_except body (fun e => mret (what ++ ": " ++ exn_str e)).

Definition _process_deployment_command (user_input : string) : M string :=
  guarded "Error processing deployment command"
    (CreateDeploymentTool._run config
       (Json.dumps (deployment_parameters user_input))).

Definition _process_service_command (user_input : string) : M string :=
  guarded "Error processing service command"
    (CreateServiceTool._run config (Json.dumps (service_parameters user_input))).

Definition _process_list_command (user_input : string) : M string :=
  guarded "Error processing list command"
    (ListResourcesTool._run config (Json.dumps (list_parameters user_input))).

Definition _process_scale_command (user_input : string) : M string :=
  guarded "Error processing scale command"
    (ScaleDeploymentTool._run config (Json.dumps (scale_parameters user_input))).

Definition _process_logs_command (user_input : string) : M string :=
  guarded "Error processing logs command"
    (GetLogsTool._run config (Json.dumps (logs_parameters user_input))).

Definition show_help : M unit := print_info help_text.

Definition show_status : M unit :=
  try_except
    (do result <- _run_kubectl config
                    [PStr "kubectl"; PStr "version"; PStr "--client"] None;
     (if success result
      then print_success "kubectl is available and working"
      else print_error "kubectl is not available or not working") ;;
     print_info
       ("Current Configuration: Model: " ++ model config ++
        " Namespace: " ++ namespace config ++
        " Max Replicas: " ++ Str.of_Z (max_replicas config) ++
        " Allowed Images: " ++ Str.join ", " (allowed_images config) ++
        " Forbidden Namespaces: " ++ Str.join ", " (forbidden_namespaces config)))
    (fun e => print_error ("Error checking status: " ++ exn_str e)).

Definition run (user_input : string) : M string :=
  try_except
    (if Str.is_empty (Str.strip user_input) then
       print_warning "Please provide a valid command" ;;
       mret "No input provided"
     else
       (if any_in dangerous_keywords (Str.lower user_input)
        then print_warning
               "This command may modify or delete resources. Please review carefully."
        else mret tt) ;;
       let user_input_lower := Str.lower user_input in
       if any_in ["help"; "h"; "?"] user_input_lower then
         show_help ;; mret "Help displayed"
       else if any_in ["status"; "info"] user_input_lower then
         show_status ;; mret "Status displayed"
       else if Str.contains "create" user_input_lower &&
               Str.contains "deployment" user_input_lower then
         _process_deployment_command user_input
       else if Str.contains "create" user_input_lower &&
               Str.contains "service" user_input_lower then
         _process_service_command user_input
       else if Str.contains "list" user_input_lower then
         _process_list_command user_input
       else if Str.contains "scale" user_input_lower then
         _process_scale_command user_input
       else if Str.contains "log" user_input_lower then
         _process_logs_command user_input
       else
         mret "I understand you want to work with Kubernetes. Please be more specific about what you'd like to do. Try 'help' for available commands.")
    (fun e =>
       logger_error ("Error in agent execution: " ++ exn_str e) ;;
       print_error ("Agent error: " ++ exn_str e) ;;
       mret ("Error: " ++ exn_str e)).

End Agent.
End K8sAgent.

(** A world in which nothing has happened yet and whose cluster tool
    answers by [cli]. *)
Definition initial_world
    (cli : list (list string) -> list string -> Z -> proc_outcome) : world :=
  {| cli := cli; invocations := []; files := []; tmp_counter := 0;
     console := []; log := [] |}.

(* ================================================================== *)
(** ** Notions of the specification *)

(** The last character of [String c s]. *)
Fixpoint last_char (c : ascii) (s : string) : ascii :=
  match s with
  | EmptyString => c
  | String d s' => last_char d s'
  end.

(** The names that the pattern [^[a-z0-9]([-a-z0-9]*[a-z0-9])?$] describes
    when [^] and [$] are the two ends of the text: the text is not empty,
    each of its characters is a lower-case letter, a digit or a hyphen, and
    neither the first nor the last is a hyphen. *)
Definition dns_label (s : string) : bool :=
  match s with
  | EmptyString => false
  | String c s' =>
      alnum_lc c && Str.forallb name_char s' && alnum_lc (last_char c s')
  end.

(** The error kinds of the specification, as far as the exception classes
    of the module tell them apart: the guardrails raise [ValidationError]
    (InvalidName, InvalidImage, InvalidReplicas, InvalidPort) or
    [SecurityError] (ForbiddenNamespace); the executor raises
    [ResourceError] (ToolUnavailable, OperationTimeout, OperationFailed). *)
Definition is_ValidationError (e : exn) : bool :=
  match e with ValidationError _ => true | _ => false end.
Definition is_SecurityError (e : exn) : bool :=
  match e with SecurityError _ => true | _ => false end.
Definition is_ResourceError (e : exn) : bool :=
  match e with ResourceError _ => true | _ => false end.
Definition is_guardrail_error (e : exn) : bool :=
  is_ValidationError e || is_SecurityError e.

(** A line feed as a text. *)
Definition nl : string := String Str.LF EmptyString.

(** Whether a text ends with a line feed. *)
Fixpoint ends_with_lf (s : string) : bool :=
  match s with
  | EmptyString => false
  | String c EmptyString => Ascii.eqb c Str.LF
  | String _ s' => ends_with_lf s'
  end.

(** The namespace that [validate_namespace] checks: the configured
    default stands in for an empty one. *)
Definition effective_namespace (config : K8sConfig) (ns : string) : string :=
  if Str.is_empty ns then namespace config else ns.

(** The bytes that a value of the data section of a secret stands for:
    the value base64-decoded. *)
Definition decode_payload (v : pyval) : option string :=
  match v with
  | PStr e => Base64.b64decode (Base64.encode e)
  | _ => None
  end.

(** The validating step of [CreateDeploymentTool._run]: the guardrails in
    the order in which the tool applies them to the parameters of a
    request. *)
Record ValidatedDeployment : Type := mkValidatedDeployment {
  vd_name : string;
  vd_image : string;
  vd_replicas : pyval;
  vd_namespace : string;
  vd_port : pyval
}.

Definition validate_deployment_request (config : K8sConfig)
    (data : list (string * pyval)) : result ValidatedDeployment :=
  let? name := validate_name (dict_get data "name" PNone) in
  let? image := validate_image config (dict_get data "image" PNone) in
  let? replicas := validate_replicas config (dict_get data "replicas" (PInt 1)) in
  let? namespace :=
    validate_namespace config (dict_get data "namespace" (PStr "default")) in
  let? port := validate_port (dict_get data "port" (PInt 80)) in
  ret (mkValidatedDeployment name image replicas namespace port).

(** The validating step of [CreateServiceTool._run]. *)
Record ValidatedService : Type := mkValidatedService {
  vs_name : string;
  vs_port : pyval;
  vs_target_port : pyval;
  vs_namespace : string
}.

Definition validate_service_request (config : K8sConfig)
    (data : list (string * pyval)) : result ValidatedService :=
  let? name := validate_name (dict_get data "name" PNone) in
  let? port := validate_port (dict_get data "port" (PInt 80)) in
  let? target_port := validate_port (dict_get data "target_port" (PInt 80)) in
  let? namespace :=
    validate_namespace config (dict_get data "namespace" (PStr "default")) in
  ret (mkValidatedService name port target_port namespace).

(** How [CreateDeploymentTool._run] words the error it caught. *)
Definition deployment_error_reply (e : exn) : string :=
  match e with
  | ValidationError _ => "Validation error: " ++ exn_str e
  | SecurityError _ => "Security error: " ++ exn_str e
  | ResourceError _ => "Resource error: " ++ exn_str e
  | _ => "Error: " ++ exn_str e
  end.

(** The path of the temporary file that the next [apply_yaml] writes. *)
Definition next_temp_file (w : world) : string :=
  "/tmp/tmp" ++ Str.of_Z (Z.of_nat (tmp_counter w)) ++ ".yaml".

(** The command line of [apply_yaml] for a manifest file. *)
Definition apply_command (path : string) (dry_run : bool) : list string :=
  (["kubectl"; "apply"; "-f"; path] ++
   (if dry_run then ["--dry-run=client"] else []))%list.

(** The scenario text of the specification. *)
Definition scenario_text : string :=
  "Create a deployment named api with nginx image and 3 replicas".

Definition is_JSONDecodeError (e : exn) : bool :=
  match e with JSONDecodeError _ => true | _ => false end.

(** The command line of [list_resources]. *)
Definition list_command (resource_type namespace : pyval) : list pyval :=
  with_namespace
    [PStr "kubectl"; PStr "get"; resource_type; PStr "-o"; PStr "json"] namespace.

(** The tools that validate the parameters of a request before they
    touch the cluster. *)
Inductive guarded_tool : Type :=
| DeploymentTool
| ServiceTool
| ScaleTool.

Definition tool_run (t : guarded_tool) (config : K8sConfig) : string -> M string :=
  match t with
  | DeploymentTool => CreateDeploymentTool._run config
  | ServiceTool => CreateServiceTool._run config
  | ScaleTool => ScaleDeploymentTool._run config
  end.

(** The validating step of [ScaleDeploymentTool._run]. *)
Definition validate_scale_request (config : K8sConfig)
    (data : list (string * pyval)) : result (string * pyval) :=
  let? name := validate_name (dict_get data "name" PNone) in
  let? replicas := validate_replicas config (dict_get data "replicas" PNone) in
  ret (name, replicas).

(** The outcome of the validating step of a tool: [tt], or the error of
    the first guardrail that refuses a parameter. *)
Definition request_validation (t : guarded_tool) (config : K8sConfig)
    (data : list (string * pyval)) : result unit :=
  match t with
  | DeploymentTool => let? _ := validate_deployment_request config data in ret tt
  | ServiceTool => let? _ := validate_service_request config data in ret tt
  | ScaleTool => let? _ := validate_scale_request config data in ret tt
  end.

(** How a tool words the error it caught. *)
Definition error_reply (t : guarded_tool) (e : exn) : string :=
  match t with
  | DeploymentTool => deployment_error_reply e
  | ServiceTool | ScaleTool => "Error: " ++ exn_str e
  end.

(* ================================================================== *)
(** ** Further notions *)

(** A character of an image reference: one of the repository part, or the
    colon before the tag. *)
Definition image_char (c : ascii) : bool := repo_char c || Ascii.eqb c ":".

(** The arguments that select a namespace on a command line: none for an
    empty namespace. *)
Definition namespace_flag (ns : string) : list string :=
  if Str.is_empty ns then [] else ["-n"; ns].

(** A summary as [list_resources] builds it: a dict of exactly the keys
    name, namespace, age and status, in this order. *)
Definition is_summary (r : pyval) : Prop :=
  exists name ns age status,
    r = PDict [("name", name); ("namespace", ns); ("age", age); ("status", status)].

(** The dict under [key] of an item of a listing; an item without the key
    counts as having an empty one. *)
Definition sub_dict (fields : list (string * pyval)) (key : string)
  : list (string * pyval) :=
  match dict_lookup key fields with
  | Some (PDict m) => m
  | _ => []
  end.

(** An item that [list_resources] can summarise: a dict whose [metadata]
    and [status], when present, are dicts. *)
Definition summarisable (item : pyval) : bool :=
  match item with
  | PDict fields =>
      match dict_lookup "metadata" fields with
      | None | Some (PDict _) => true
      | Some _ => false
      end &&
      match dict_lookup "status" fields with
      | None | Some (PDict _) => true
      | Some _ => false
      end
  | _ => false
  end.

(** The summary of an item: its name, namespace and creation time from
    [metadata], its phase from [status], an empty text for what is
    missing. *)
Definition summary_of (item : pyval) : pyval :=
  match item with
  | PDict fields =>
      PDict [("name", dict_get (sub_dict fields "metadata") "name" (PStr ""));
             ("namespace", dict_get (sub_dict fields "metadata") "namespace" (PStr ""));
             ("age", dict_get (sub_dict fields "metadata") "creationTimestamp" (PStr ""));
             ("status", dict_get (sub_dict fields "status") "phase" (PStr ""))]
  | _ => PNone
  end.

(** What a computation may start: [calls P n m] says that [m], run in any
    world, starts at most [n] processes, each with a command line in [P],
    and forgets none of the earlier ones. *)
Definition calls {A : Type} (P : list string -> Prop) (n : nat) (m : M A) : Prop :=
  forall w : world,
    exists l : list (list string),
      invocations (snd (m w)) = (invocations w ++ l)%list /\
      (List.length l <= n)%nat /\ Forall P l.

(** A command line of the cluster tool whose verb is one of [verbs]. *)
Definition kubectl_verb (verbs : list string) (args : list string) : Prop :=
  match args with
  | tool :: verb :: _ => tool = "kubectl" /\ In verb verbs
  | _ => False
  end.

(** [K8sAgent._create_tools]: the tools of the agent, each as its [_run]. *)
Definition _create_tools (config : K8sConfig) : list (string -> M string) :=
  [CreateDeploymentTool._run config; CreateServiceTool._run config;
   ListResourcesTool._run config; ScaleDeploymentTool._run config;
   GetLogsTool._run config].

(** The resource type that [_process_list_command] reads from a text. *)
Definition listed_type (user_input : string) : string :=
  if Str.contains "deployment" (Str.lower user_input) then "deployments"
  else if Str.contains "service" (Str.lower user_input) then "services"
  else "pods".


(* ================================================================== *)
(** * Properties *)

Unset Implicit Arguments.

(** ** Strings *)

Lemma forallb_app :
  forall (p : ascii -> bool) (u v : string),
    Str.forallb p (u ++ v) = Str.forallb p u && Str.forallb p v.
Proof.
  intros p u v. induction u as [|c u IH]; simpl; [reflexivity|].
  rewrite IH. apply andb_assoc.
Qed.

Lemma last_char_app :
  forall (u : string) (c d : ascii), last_char c (u ++ String d "") = d.
Proof.
  induction u as [|e u IH]; intros c d; simpl; [reflexivity|apply IH].
Qed.

Lemma snoc_decompose :
  forall (s : string) (c : ascii),
    exists u, String c s = u ++ String (last_char c s) "".
Proof.
  induction s as [|d s IH]; intros c.
  - exists "". reflexivity.
  - destruct (IH d) as (u & Hu). exists (String c u). simpl. rewrite Hu. reflexivity.
Qed.

Lemma app_assoc_string :
  forall u v w : string, (u ++ v) ++ w = u ++ (v ++ w).
Proof.
  induction u as [|c u IH]; intros; simpl; [reflexivity|]. rewrite IH. reflexivity.
Qed.

Lemma append_empty_r : forall s : string, s ++ "" = s.
Proof.
  induction s as [|c s IH]; simpl; [reflexivity|]. rewrite IH. reflexivity.
Qed.

Lemma length_app_string :
  forall u v : string, String.length (u ++ v) = String.length u + String.length v.
Proof.
  induction u as [|c u IH]; intros v; simpl; [reflexivity|]. rewrite IH. reflexivity.
Qed.

Lemma lower_app : forall u v, Str.lower (u ++ v) = Str.lower u ++ Str.lower v.
Proof.
  induction u as [|c u IH]; intros v; simpl; [reflexivity|].
  rewrite IH. reflexivity.
Qed.

Lemma ends_with_lf_app : forall b, ends_with_lf (b ++ nl) = true.
Proof.
  induction b as [|c b IH]; [reflexivity|].
  simpl. destruct (b ++ nl) eqn:E; [|exact IH].
  destruct b; discriminate.
Qed.

Lemma no_lf_not_app :
  forall s, ends_with_lf s = false -> forall b, s <> b ++ nl.
Proof.
  intros s H b ->. rewrite ends_with_lf_app in H. discriminate.
Qed.

Lemma existsb_eqb_In :
  forall (x : string) (l : list string),
    existsb (String.eqb x) l = true <-> In x l.
Proof.
  intros x l. rewrite existsb_exists. split.
  - intros (y & Hy & He). apply String.eqb_eq in He. subst y. exact Hy.
  - intros H. exists x. split; [exact H|apply String.eqb_refl].
Qed.

(** ** The matcher on the pattern of names *)

Module ReFacts.
Import Re.

Lemma star_chars_greedy :
  forall (A : Type) (p : ascii -> bool) (k : cont A) (fuel : nat)
         (pos : nat) (s : string) (caps : captures),
    String.length s <= fuel ->
    star_loop fuel (exec (A:=A) (Chars p)) pos s caps k = greedy p pos s caps k.
Proof.
  intros A p k fuel.
  induction fuel as [|fuel IH]; intros pos s caps Hlen.
  - destruct s; simpl in *; [reflexivity | lia].
  - destruct s as [|c s]; simpl; [reflexivity|].
    destruct (p c); [|reflexivity].
    assert (Hlt : Nat.ltb (String.length s) (S (String.length s)) = true)
      by (apply Nat.ltb_lt; lia).
    rewrite Hlt. rewrite IH by (simpl in Hlen; lia). reflexivity.
Qed.

Lemma exec_star_chars :
  forall (A : Type) (p : ascii -> bool) (pos : nat) (s : string)
         (caps : captures) (k : cont A),
    exec (Star (Chars p)) pos s caps k = greedy p pos s caps k.
Proof.
  intros. cbn [exec]. apply star_chars_greedy. lia.
Qed.

(** The greedy repetition finds a match exactly when some run of
    characters of the class can be followed by a match of the rest. *)
Lemma greedy_some :
  forall (A : Type) (p : ascii -> bool) (k : cont A) (s : string)
         (pos : nat) (caps : captures),
    greedy p pos s caps k <> None <->
    exists u v, s = u ++ v /\ Str.forallb p u = true /\
                k (pos + String.length u) v caps <> None.
Proof.
  intros A p k s.
  induction s as [|c s IH]; intros pos caps; simpl.
  - split.
    + intros H. exists "", "". simpl. rewrite Nat.add_0_r. auto.
    + intros (u & v & Huv & _ & Hk).
      destruct u; simpl in Huv; [|discriminate].
      subst v. simpl in Hk. rewrite Nat.add_0_r in Hk. exact Hk.
  - destruct (p c) eqn:Hpc.
    + destruct (greedy p (S pos) s caps k) eqn:Hg.
      * split; [intros _|intros _; discriminate].
        assert (Hn : greedy p (S pos) s caps k <> None) by (rewrite Hg; discriminate).
        apply IH in Hn. destruct Hn as (u & v & Huv & Hu & Hk).
        exists (String c u), v. simpl. rewrite Hpc, Hu. subst s.
        repeat split; auto. rewrite <- plus_n_Sm. exact Hk.
      * split.
        -- intros Hk. exists "", (String c s). simpl. rewrite Nat.add_0_r. auto.
        -- intros (u & v & Huv & Hu & Hk).
           destruct u as [|d u]; simpl in *.
           ++ subst v. rewrite Nat.add_0_r in Hk. exact Hk.
           ++ exfalso. injection Huv as -> ->.
              assert (Hn : greedy p (S pos) (u ++ v) caps k <> None).
              { apply IH. exists u, v. repeat split; auto.
                - apply andb_true_iff in Hu. tauto.
                - rewrite <- plus_n_Sm in Hk. exact Hk. }
              congruence.
    + split.
      * intros Hk. exists "", (String c s). simpl. rewrite Nat.add_0_r. auto.
      * intros (u & v & Huv & Hu & Hk).
        destruct u as [|d u]; simpl in *.
        -- subst v. rewrite Nat.add_0_r in Hk. exact Hk.
        -- injection Huv as -> ->. rewrite Hpc in Hu. discriminate.
Qed.

Lemma is_eol_cases : forall v, is_eol v = true -> v = "" \/ v = nl.
Proof.
  intros [|e [|f v]]; simpl; intros H; try discriminate; auto.
  right. apply Ascii.eqb_eq in H. subst e. reflexivity.
Qed.

(** The shape of the texts that the pattern of names matches, read off
    the run of the matcher. *)
Lemma name_re_matched :
  forall s : string,
    matched (rmatch name_re s) = true <->
    exists c s', s = String c s' /\ alnum_lc c = true /\
      (is_eol s' = true \/
       exists u d v, s' = u ++ String d v /\ Str.forallb name_char u = true /\
                     alnum_lc d = true /\ is_eol v = true).
Proof.
  intros s. unfold rmatch, name_re.
  cbn [exec]. cbn [Nat.eqb].
  destruct s as [|c s];
    [simpl; split; [discriminate | intros (c & s' & H & _); discriminate]|].
  destruct (alnum_lc c) eqn:Hc;
    [|simpl; split;
      [discriminate
      | intros (c' & s' & H & Hc' & _); injection H as <- <-; congruence]].
  match goal with
  | |- context [star_loop ?n ?f ?pos ?t ?caps ?k] =>
      change (star_loop n f pos t caps k)
        with (exec (Star (Chars name_char)) pos t caps k);
      rewrite (exec_star_chars _ name_char pos t caps k);
      pose proof (greedy_some _ name_char k t pos caps) as Hspec;
      destruct (greedy name_char pos t caps k) eqn:Hg
  end.
  - split; [intros _|reflexivity].
    exists c, s. repeat split; auto. right.
    destruct Hspec as [Hspec _].
    destruct (Hspec ltac:(discriminate)) as (u & v & Hs & Hu & Hk).
    destruct v as [|d v]; [congruence|].
    exists u, d, v. destruct (alnum_lc d); [|congruence].
    repeat split; auto.
    destruct v as [|e v]; [reflexivity|]. destruct v; [|congruence].
    simpl. destruct (e =? Str.LF)%char; congruence.
  - destruct Hspec as [_ Hspec].
    split.
    + intros H. exists c, s. repeat split; auto. left.
      destruct s as [|e s]; [reflexivity|]. destruct s; [|discriminate].
      simpl in *. destruct (e =? Str.LF)%char; [reflexivity|discriminate].
    + intros (c' & s' & Heq & _ & [He | (u & d & v & Hs & Hu & Hd & Hv)]);
        injection Heq as <- <-.
      * destruct s as [|e s]; [reflexivity|]. destruct s; [|discriminate].
        simpl in *. rewrite He. reflexivity.
      * exfalso. apply Hspec; [|reflexivity].
        exists u, (String d v). repeat split; auto.
        rewrite Hd. destruct v as [|e v]; [discriminate|].
        destruct v; [|discriminate]. simpl in Hv. rewrite Hv. discriminate.
Qed.

End ReFacts.

Lemma alnum_lc_name_char : forall c, alnum_lc c = true -> name_char c = true.
Proof.
  intros c H. unfold name_char. rewrite H. apply orb_true_r.
Qed.

(** The pattern of names matches a text exactly when the text is a name,
    or a name followed by one line feed. *)
Lemma name_re_language :
  forall s : string,
    Re.matched (Re.rmatch name_re s) = true <->
    dns_label s = true \/ exists b, s = b ++ nl /\ dns_label b = true.
Proof.
  intros s. rewrite ReFacts.name_re_matched. split.
  - intros (c & s' & -> & Hc & [He | (u & d & v & -> & Hu & Hd & Hv)]).
    + apply ReFacts.is_eol_cases in He. destruct He as [-> | ->].
      * left. simpl. rewrite Hc. reflexivity.
      * right. exists (String c ""). split; [reflexivity|].
        simpl. rewrite Hc. reflexivity.
    + assert (Hb : dns_label (String c (u ++ String d "")) = true).
      { simpl. rewrite Hc, forallb_app, Hu, last_char_app, Hd. simpl.
        rewrite (alnum_lc_name_char _ Hd). reflexivity. }
      apply ReFacts.is_eol_cases in Hv. destruct Hv as [-> | ->].
      * left. exact Hb.
      * right. exists (String c (u ++ String d "")). split; [|exact Hb].
        simpl. rewrite app_assoc_string. reflexivity.
  - intros [H | (b & -> & H)].
    + destruct s as [|c s]; [discriminate|]. simpl in H.
      apply andb_true_iff in H. destruct H as [H Hl].
      apply andb_true_iff in H. destruct H as [Hc Hall].
      exists c, s. repeat split; auto.
      destruct s as [|d s]; [left; reflexivity|]. right.
      destruct (snoc_decompose s d) as (u & Hu).
      exists u, (last_char d s), "". simpl in Hl.
      rewrite Hu in Hall. rewrite forallb_app in Hall.
      apply andb_true_iff in Hall. destruct Hall as [Hall _].
      repeat split; auto.
    + destruct b as [|c b]; [discriminate|]. simpl in H.
      apply andb_true_iff in H. destruct H as [H Hl].
      apply andb_true_iff in H. destruct H as [Hc Hall].
      exists c, (b ++ nl). repeat split; auto.
      destruct b as [|d b]; [left; reflexivity|]. right.
      destruct (snoc_decompose b d) as (u & Hu).
      exists u, (last_char d b), nl. simpl in Hl.
      rewrite Hu in Hall. rewrite forallb_app in Hall.
      apply andb_true_iff in Hall. destruct Hall as [Hall _].
      repeat split; auto.
      rewrite Hu. rewrite app_assoc_string. reflexivity.
Qed.

(** ** [validate_name] *)

Lemma name_char_facts :
  forall c, name_char c = true ->
    Str.lower_char c = c /\ Str.is_space c = false /\ Str.is_upper c = false.
Proof.
  intros c. destruct c as [[] [] [] [] [] [] [] []]; vm_compute; intros H;
    try discriminate; repeat split.
Qed.

Lemma lower_name_chars :
  forall s, Str.forallb name_char s = true -> Str.lower s = s.
Proof.
  induction s as [|c s IH]; simpl; intros H; [reflexivity|].
  apply andb_true_iff in H. destruct H as [Hc Hs].
  rewrite IH by assumption.
  destruct (name_char_facts c Hc) as (-> & _). reflexivity.
Qed.

Lemma rstrip_name_chars :
  forall s, Str.forallb name_char s = true -> Str.rstrip s = s.
Proof.
  induction s as [|c s IH]; simpl; intros H; [reflexivity|].
  apply andb_true_iff in H. destruct H as [Hc Hs].
  rewrite IH by assumption.
  destruct (name_char_facts c Hc) as (_ & -> & _).
  destruct s; reflexivity.
Qed.

Lemma rstrip_name_chars_nl :
  forall s, Str.forallb name_char s = true -> Str.rstrip (s ++ nl) = s.
Proof.
  induction s as [|c s IH]; simpl; intros H; [reflexivity|].
  apply andb_true_iff in H. destruct H as [Hc Hs].
  rewrite IH by assumption.
  destruct (name_char_facts c Hc) as (_ & -> & _).
  destruct s; reflexivity.
Qed.

Lemma lstrip_name_chars :
  forall s t, Str.forallb name_char s = true -> s <> "" ->
    Str.lstrip (s ++ t) = s ++ t.
Proof.
  intros [|c s] t H Hne; [congruence|]. simpl in *.
  apply andb_true_iff in H. destruct H as [Hc Hs].
  destruct (name_char_facts c Hc) as (_ & -> & _). reflexivity.
Qed.

Lemma dns_label_chars :
  forall s, dns_label s = true -> Str.forallb name_char s = true /\ s <> "".
Proof.
  intros [|c s] H; [discriminate|]. simpl in *.
  apply andb_true_iff in H. destruct H as [H _].
  apply andb_true_iff in H. destruct H as [Hc Hs].
  rewrite (alnum_lc_name_char _ Hc), Hs. split; [reflexivity|discriminate].
Qed.

(** Lower-casing and trimming leave a name as it is, ... *)
Lemma sanitize_label :
  forall s, dns_label s = true -> Str.strip (Str.lower s) = s.
Proof.
  intros s H. destruct (dns_label_chars s H) as (Hall & Hne).
  rewrite (lower_name_chars s Hall). unfold Str.strip.
  rewrite <- (append_empty_r s) at 1.
  rewrite (lstrip_name_chars s "" Hall Hne), append_empty_r.
  apply rstrip_name_chars. exact Hall.
Qed.

(** ... and take the line feed off a name that is followed by one. *)
Lemma sanitize_label_nl :
  forall s, dns_label s = true -> Str.strip (Str.lower (s ++ nl)) = s.
Proof.
  intros s H. destruct (dns_label_chars s H) as (Hall & Hne).
  rewrite lower_app, (lower_name_chars s Hall).
  change (Str.lower nl) with nl. unfold Str.strip.
  rewrite (lstrip_name_chars s nl Hall Hne).
  apply rstrip_name_chars_nl. exact Hall.
Qed.

(** What [validate_name] does on every text. *)
Lemma validate_name_str :
  forall n : string,
    validate_name (PStr n) =
    if Str.is_empty n then raise (ValidationError "Name cannot be empty")
    else if negb (Re.matched (Re.rmatch name_re n)) then
      raise (ValidationError "Name must be lowercase alphanumeric with hyphens only")
    else if Nat.ltb 63 (String.length n) then
      raise (ValidationError "Name must be 63 characters or less")
    else ret (Str.strip (Str.lower n)).
Proof.
  intros n. unfold validate_name. simpl. rewrite negb_involutive.
  destruct (Str.is_empty n); reflexivity.
Qed.

Lemma validate_name_pattern :
  forall n : string,
    succeeds (validate_name (PStr n)) <->
    Re.matched (Re.rmatch name_re n) = true /\ String.length n <= 63.
Proof.
  intros n. rewrite validate_name_str.
  destruct (Str.is_empty n) eqn:He.
  - destruct n; [|discriminate]. split.
    + intros (a & Ha). discriminate.
    + intros (Hm & _). vm_compute in Hm. discriminate.
  - destruct (Re.matched (Re.rmatch name_re n)); simpl.
    + destruct (Nat.ltb 63 (String.length n)) eqn:Hl.
      * apply Nat.ltb_lt in Hl. split.
        -- intros (a & Ha). discriminate.
        -- intros (_ & H). lia.
      * apply Nat.ltb_ge in Hl. split; [auto|].
        intros _. eexists. reflexivity.
    + split.
      * intros (a & Ha). discriminate.
      * intros (H & _). discriminate.
Qed.

Lemma validate_name_success :
  forall n : string,
    succeeds (validate_name (PStr n)) <->
    (dns_label n = true \/ exists b, n = b ++ nl /\ dns_label b = true) /\
    String.length n <= 63.
Proof.
  intros n. rewrite validate_name_pattern, name_re_language. reflexivity.
Qed.

Lemma validate_name_failure :
  forall (n : string) (e : exn),
    validate_name (PStr n) = raise e -> is_ValidationError e = true.
Proof.
  intros n e. rewrite validate_name_str.
  destruct (Str.is_empty n); [intros H; injection H as <-; reflexivity|].
  destruct (negb _); [intros H; injection H as <-; reflexivity|].
  destruct (Nat.ltb _ _); [intros H; injection H as <-; reflexivity|].
  discriminate.
Qed.

Lemma validate_name_value :
  forall n name : string,
    validate_name (PStr n) = ret name -> name = Str.strip (Str.lower n).
Proof.
  intros n name. rewrite validate_name_str.
  destruct (Str.is_empty n); [discriminate|].
  destruct (negb _); [discriminate|].
  destruct (Nat.ltb _ _); [discriminate|].
  intros H. injection H as <-. reflexivity.
Qed.

Lemma validate_name_label :
  forall n : string,
    dns_label n = true -> String.length n <= 63 ->
    validate_name (PStr n) = ret n.
Proof.
  intros n Hn Hl.
  assert (Hs : succeeds (validate_name (PStr n)))
    by (apply validate_name_success; auto).
  destruct Hs as (name & Hname). rewrite Hname.
  rewrite (validate_name_value n name Hname), sanitize_label by assumption.
  reflexivity.
Qed.

Lemma validate_name_label_nl :
  forall b : string,
    dns_label b = true -> String.length b <= 62 ->
    validate_name (PStr (b ++ nl)) = ret b.
Proof.
  intros b Hb Hl.
  assert (Hs : succeeds (validate_name (PStr (b ++ nl)))).
  { apply validate_name_success. split; [right; exists b; auto|].
    rewrite length_app_string. simpl. lia. }
  destruct Hs as (name & Hname). rewrite Hname.
  rewrite (validate_name_value (b ++ nl) name Hname), sanitize_label_nl by assumption.
  reflexivity.
Qed.

(** Whatever [validate_name] returns is a name of at most 63 characters. *)
Lemma validate_name_returns_label :
  forall n name : string,
    validate_name (PStr n) = ret name ->
    dns_label name = true /\ String.length name <= 63.
Proof.
  intros n name Hname.
  assert (Hs : succeeds (validate_name (PStr n))) by (exists name; exact Hname).
  apply validate_name_success in Hs.
  destruct Hs as ([Hn | (b & -> & Hb)] & Hl).
  - rewrite (validate_name_label n Hn Hl) in Hname. injection Hname as <-. auto.
  - rewrite length_app_string in Hl. simpl in Hl.
    rewrite (validate_name_label_nl b Hb) in Hname by lia.
    injection Hname as <-. split; [exact Hb|lia].
Qed.



(** A text that ends with a line feed is no name of the pattern. *)
Lemma dns_label_line_feed : forall b : string, dns_label (b ++ nl) = false.
Proof.
  intros [|c b]; [reflexivity|].
  change (dns_label (String c (b ++ nl)) = false). unfold dns_label.
  rewrite forallb_app.
  replace (Str.forallb name_char nl) with false by reflexivity.
  rewrite andb_false_r, andb_false_r. reflexivity.
Qed.

(** Away from a final line feed [validate_name] accepts exactly the names
    of the pattern with at most 63 characters. *)
Lemma validate_name_iff_label :
  forall n : string,
    ends_with_lf n = false ->
    (succeeds (validate_name (PStr n)) <->
       dns_label n = true /\ String.length n <= 63).
Proof.
  intros n Hn. rewrite validate_name_success. split.
  - intros ([H | (b & -> & _)] & Hl); [auto|].
    rewrite ends_with_lf_app in Hn. discriminate.
  - intros (H & Hl). auto.
Qed.

(** C6: [validate_name] accepts a text that the pattern does not describe:
    a name of at most 62 characters followed by a line feed is accepted
    (and the name returned), though with the line feed it is no name of the
    pattern.  The [$] of [re.match] also matches before a final line
    feed. *)
Theorem C6_line_feed_name_accepted :
  forall b : string,
    dns_label b = true -> String.length b <= 62 ->
    succeeds (validate_name (PStr (b ++ nl))) /\
    validate_name (PStr (b ++ nl)) = ret b /\
    dns_label (b ++ nl) = false /\
    String.length (b ++ nl) <= 63.
Proof.
  intros b Hb Hl.
  pose proof (validate_name_label_nl b Hb Hl) as Hv.
  split; [exists b; exact Hv|]. split; [exact Hv|].
  split; [apply dns_label_line_feed|].
  rewrite length_app_string. simpl. lia.
Qed.

(** C6 at the name api followed by a line feed. *)
Lemma C6_line_feed_name_accepted_witness :
  dns_label "api" = true /\
  validate_name (PStr ("api" ++ nl)) = ret "api" /\
  dns_label ("api" ++ nl) = false.
Proof.
  split; [reflexivity|].
  destruct (C6_line_feed_name_accepted "api" eq_refl) as (_ & Hv & Hd & _).
  - vm_compute. lia.
  - split; [exact Hv|exact Hd].
Defined.

(** ** [validate_namespace] *)

(** What [validate_namespace] does on every text. *)
Lemma validate_namespace_str :
  forall (cfg : K8sConfig) (ns : string),
    validate_namespace cfg (PStr ns) =
    let eff := effective_namespace cfg ns in
    if existsb (String.eqb eff) (forbidden_namespaces cfg)
    then raise (SecurityError ("Namespace '" ++ eff ++ "' is forbidden"))
    else validate_name (PStr eff).
Proof.
  intros cfg ns. unfold validate_namespace, effective_namespace. simpl.
  rewrite negb_involutive.
  destruct (Str.is_empty ns);
    destruct (existsb _ (forbidden_namespaces cfg)); reflexivity.
Qed.

(** C4, the statement as the specification has it, fails at the text
    KUBE-SYSTEM: lower-cased it is a forbidden namespace, and the error is
    the one of a malformed name, not the one of a forbidden namespace. *)
Lemma C4_counterexample :
  In (Str.strip (Str.lower "KUBE-SYSTEM")) (forbidden_namespaces default_config) /\
  validate_namespace default_config (PStr "KUBE-SYSTEM") =
    raise (ValidationError "Name must be lowercase alphanumeric with hyphens only") /\
  ~ fails_with (validate_namespace default_config (PStr "KUBE-SYSTEM"))
      is_SecurityError.
Proof.
  split; [left; reflexivity|]. split; [reflexivity|].
  intros (e & He & Hs). vm_compute in He. injection He as <-. discriminate.
Qed.

(** C4, amended: membership in the forbidden set is tested on the text as
    it is given (the configured default for an empty one), letter case
    included.  A text that is itself in the forbidden set fails with
    [SecurityError] (ForbiddenNamespace), well formed as a name or not. *)
Theorem C4_forbidden_namespace_exact :
  forall (cfg : K8sConfig) (ns : string),
    In (effective_namespace cfg ns) (forbidden_namespaces cfg) ->
    validate_namespace cfg (PStr ns) =
      raise (SecurityError
               ("Namespace '" ++ effective_namespace cfg ns ++ "' is forbidden")) /\
    fails_with (validate_namespace cfg (PStr ns)) is_SecurityError.
Proof.
  intros cfg ns Hin.
  assert (Heq : validate_namespace cfg (PStr ns) =
      raise (SecurityError
               ("Namespace '" ++ effective_namespace cfg ns ++ "' is forbidden"))).
  { rewrite validate_namespace_str. cbv zeta.
    apply existsb_eqb_In in Hin. rewrite Hin. reflexivity. }
  split; [exact Heq|]. eexists. split; [exact Heq|reflexivity].
Qed.

(** C4 at the forbidden namespace kube-system of the default
    configuration. *)
Lemma C4_forbidden_namespace_exact_witness :
  In (effective_namespace default_config "kube-system")
     (forbidden_namespaces default_config) /\
  fails_with (validate_namespace default_config (PStr "kube-system")) is_SecurityError.
Proof.
  split; [left; reflexivity|].
  apply (C4_forbidden_namespace_exact default_config "kube-system").
  left. reflexivity.
Defined.

Lemma upper_not_name_char :
  forall s, Str.existsb Str.is_upper s = true -> Str.forallb name_char s = false.
Proof.
  induction s as [|c s IH]; simpl; intros H; [discriminate|].
  apply orb_true_iff in H. destruct H as [H | H].
  - destruct (name_char c) eqn:Hc; [|reflexivity].
    destruct (name_char_facts c Hc) as (_ & _ & Hu). congruence.
  - rewrite (IH H). apply andb_false_r.
Qed.

Lemma existsb_upper_app_nl :
  forall b, Str.existsb Str.is_upper (b ++ nl) = Str.existsb Str.is_upper b.
Proof.
  induction b as [|c b IH]; simpl; [reflexivity|]. rewrite IH. reflexivity.
Qed.

(** A text with an upper-case letter is never accepted as a name; as a
    namespace it fails with the error of a malformed name unless the text
    itself is in the forbidden set. *)
Lemma uppercase_never_accepted :
  forall s, Str.existsb Str.is_upper s = true -> ~ succeeds (validate_name (PStr s)).
Proof.
  intros s Hu Hs. apply validate_name_success in Hs.
  destruct Hs as ([Hn | (b & -> & Hb)] & _).
  - apply dns_label_chars in Hn. destruct Hn as (Hall & _).
    rewrite (upper_not_name_char s Hu) in Hall. discriminate.
  - apply dns_label_chars in Hb. destruct Hb as (Hall & _).
    rewrite existsb_upper_app_nl in Hu.
    rewrite (upper_not_name_char b Hu) in Hall. discriminate.
Qed.

Lemma case_variant_is_invalid_name :
  forall (cfg : K8sConfig) (ns : string),
    Str.existsb Str.is_upper ns = true ->
    ~ In ns (forbidden_namespaces cfg) ->
    fails_with (validate_namespace cfg (PStr ns)) is_ValidationError.
Proof.
  intros cfg ns Hu Hnin. rewrite validate_namespace_str. cbv zeta.
  assert (He : effective_namespace cfg ns = ns)
    by (unfold effective_namespace; destruct ns; [discriminate|reflexivity]).
  rewrite He.
  destruct (existsb (String.eqb ns) (forbidden_namespaces cfg)) eqn:Hf.
  - apply existsb_eqb_In in Hf. contradiction.
  - destruct (validate_name (PStr ns)) as [e|name] eqn:Hv.
    + exists e. split; [reflexivity|]. exact (validate_name_failure ns e Hv).
    + exfalso. apply (uppercase_never_accepted ns Hu). exists name. exact Hv.
Qed.

(** C10: with the default configuration [validate_namespace] returns the
    forbidden namespace kube-system for the input kube-system followed by
    a line feed: the membership test sees the text with the line feed, the
    pattern accepts it, and [strip] takes the line feed off afterwards. *)
Theorem C10_forbidden_namespace_returned :
  ~ In ("kube-system" ++ nl) (forbidden_namespaces default_config) /\
  validate_namespace default_config (PStr ("kube-system" ++ nl)) = ret "kube-system" /\
  In "kube-system" (forbidden_namespaces default_config).
Proof.
  split; [|split; [reflexivity|left; reflexivity]].
  intros [H | [H | [H | []]]]; discriminate.
Qed.

(** The part of C10 that holds: when the text checked does not end with a
    line feed, the namespace returned is that text, which is not in the
    forbidden set. *)
Lemma validate_namespace_not_forbidden :
  forall (cfg : K8sConfig) (ns r : string),
    ends_with_lf (effective_namespace cfg ns) = false ->
    validate_namespace cfg (PStr ns) = ret r ->
    r = effective_namespace cfg ns /\ ~ In r (forbidden_namespaces cfg).
Proof.
  intros cfg ns r Hlf. rewrite validate_namespace_str. cbv zeta.
  destruct (existsb _ (forbidden_namespaces cfg)) eqn:Hf; [discriminate|].
  intros Hr.
  assert (Hs : succeeds (validate_name (PStr (effective_namespace cfg ns))))
    by (exists r; exact Hr).
  apply validate_name_success in Hs.
  destruct Hs as ([Hn | (b & Hb & _)] & Hl).
  - rewrite (validate_name_label _ Hn Hl) in Hr. injection Hr as <-.
    split; [reflexivity|]. intros Hin. apply existsb_eqb_In in Hin. congruence.
  - exfalso. exact (no_lf_not_app _ Hlf b Hb).
Qed.

(** ** [validate_image] *)

(** [__post_init__] keeps an allowed-image list that was given empty. *)
Lemma post_init_keeps_empty_list :
  forall (ns model : string) (t m : Z) (forbidden : option (list string)),
    allowed_images (K8sConfig_init ns model t m (Some []) forbidden) = [].
Proof. reflexivity. Qed.

(** C9: with an empty allowed-image list [validate_image] makes no
    containment check: every image that is not empty and passes the format
    pattern is accepted. *)
Theorem C9_empty_allow_list_disables_check :
  forall (cfg : K8sConfig) (image : string),
    allowed_images cfg = [] ->
    image <> "" ->
    Re.matched (Re.rmatch image_re image) = true ->
    validate_image cfg (PStr image) = ret (Str.strip image).
Proof.
  intros cfg image Hal Hne Hm. unfold validate_image.
  destruct image as [|c image]; [congruence|].
  cbn [truthy Str.is_empty negb]. rewrite Hal. cbn [rbind ret].
  rewrite Hm. reflexivity.
Qed.

(** C9 at an image that no entry of the default list is part of: it is
    accepted when the list is empty and refused with the default list. *)
Lemma C9_empty_allow_list_disables_check_witness :
  let cfg := K8sConfig_init "default" "gemini-2.0-flash" 30 10 (Some []) None in
  allowed_images cfg = [] /\
  "evil/miner:latest" <> "" /\
  Re.matched (Re.rmatch image_re "evil/miner:latest") = true /\
  validate_image cfg (PStr "evil/miner:latest") = ret "evil/miner:latest" /\
  validate_image default_config (PStr "evil/miner:latest") =
    raise (ValidationError
             "Image not in allowed list: ['nginx', 'httpd', 'redis', 'postgres', 'mysql', 'mongo']").
Proof.
  cbv zeta. split; [reflexivity|]. split; [discriminate|]. split; [reflexivity|].
  split; [|reflexivity].
  apply (C9_empty_allow_list_disables_check
           (K8sConfig_init "default" "gemini-2.0-flash" 30 10 (Some []) None)
           "evil/miner:latest");
    [reflexivity|discriminate|reflexivity].
Defined.

(** ** [base64] and the payload of a secret *)

Module Base64Facts.
Import Base64.

Lemma dec_enc :
  forall x5 x4 x3 x2 x1 x0 : bool,
    dec (enc (sextet x5 x4 x3 x2 x1 x0)) = Some (sextet x5 x4 x3 x2 x1 x0) /\
    Ascii.eqb (enc (sextet x5 x4 x3 x2 x1 x0)) pad = false.
Proof.
  intros [] [] [] [] [] []; split; reflexivity.
Qed.

(** Decoding a full group of four characters. *)
Lemma decode_group :
  forall (c1 c2 c3 c4 s1 s2 s3 s4 : ascii) (rest : string),
    dec c1 = Some s1 -> dec c2 = Some s2 -> dec c3 = Some s3 -> dec c4 = Some s4 ->
    Ascii.eqb c4 pad = false ->
    b64decode (String c1 (String c2 (String c3 (String c4 rest)))) =
    match b64decode rest with
    | Some bs =>
        Some (String (byte1 s1 s2) (String (byte2 s2 s3) (String (byte3 s3 s4) bs)))
    | None => None
    end.
Proof.
  intros c1 c2 c3 c4 s1 s2 s3 s4 rest H1 H2 H3 H4 Hp.
  cbn [b64decode]. rewrite H1, H2, H3, H4, Hp. reflexivity.
Qed.

Lemma roundtrip_bounded :
  forall (n : nat) (bs : string),
    String.length bs <= n -> b64decode (b64encode bs) = Some bs.
Proof.
  induction n as [|n IH]; intros bs Hlen.
  - destruct bs; [reflexivity | simpl in Hlen; lia].
  - destruct bs as [|[a0 a1 a2 a3 a4 a5 a6 a7] bs]; [reflexivity|].
    destruct bs as [|[b0 b1 b2 b3 b4 b5 b6 b7] bs].
    + cbn [b64encode b64decode].
      destruct (dec_enc a7 a6 a5 a4 a3 a2) as (-> & _).
      destruct (dec_enc a1 a0 false false false false) as (-> & _).
      reflexivity.
    + destruct bs as [|[c0 c1 c2 c3 c4 c5 c6 c7] bs].
      * cbn [b64encode b64decode].
        destruct (dec_enc a7 a6 a5 a4 a3 a2) as (-> & _).
        destruct (dec_enc a1 a0 b7 b6 b5 b4) as (-> & _).
        destruct (dec_enc b3 b2 b1 b0 false false) as (-> & ->).
        reflexivity.
      * cbn [b64encode].
        destruct (dec_enc a7 a6 a5 a4 a3 a2) as (H1 & _).
        destruct (dec_enc a1 a0 b7 b6 b5 b4) as (H2 & _).
        destruct (dec_enc b3 b2 b1 b0 c7 c6) as (H3 & _).
        destruct (dec_enc c5 c4 c3 c2 c1 c0) as (H4 & Hp).
        rewrite (decode_group _ _ _ _ _ _ _ _ _ H1 H2 H3 H4 Hp).
        rewrite IH by (simpl in Hlen; lia). reflexivity.
Qed.

(** Decoding undoes encoding, for every sequence of bytes. *)
Lemma b64decode_b64encode :
  forall bs : string, b64decode (b64encode bs) = Some bs.
Proof.
  intros bs. apply (roundtrip_bounded (String.length bs)). lia.
Qed.

End Base64Facts.

Lemma encoded_data_lookup :
  forall (data : list (string * string)) (k : string) (e : pyval),
    dict_lookup k (encoded_data data) = Some e ->
    exists v, In (k, v) data /\ decode_payload e = Some v.
Proof.
  induction data as [|(k0, v0) data IH]; intros k e H; simpl in H; [discriminate|].
  destruct (String.eqb k k0) eqn:Hk.
  - apply String.eqb_eq in Hk. subst k0. injection H as <-.
    exists v0. split; [left; reflexivity|].
    apply Base64Facts.b64decode_b64encode.
  - destruct (IH k e H) as (v & Hin & Hv). exists v. split; [right; exact Hin|exact Hv].
Qed.

(** C8: the data section of a generated secret has the keys of the input,
    in the same order, and each of its values, base64-decoded, is the
    input value of that key. *)
Theorem C8_secret_payload_roundtrip :
  forall (name namespace : string) (data : list (string * string)),
    exists stored : list (string * pyval),
      field ["data"] (document (generate_secret_yaml name data namespace)) =
        Some (PDict stored) /\
      map fst stored = map fst data /\
      map (fun kv => decode_payload (snd kv)) stored =
        map (fun kv => Some (snd kv)) data /\
      (forall (k : string) (e : pyval),
         dict_lookup k stored = Some e ->
         exists v, In (k, v) data /\ decode_payload e = Some v).
Proof.
  intros name namespace data. exists (encoded_data data).
  split; [reflexivity|]. split; [|split].
  - unfold encoded_data. rewrite map_map. reflexivity.
  - unfold encoded_data. rewrite map_map.
    apply map_ext. intros (k, v). simpl.
    apply Base64Facts.b64decode_b64encode.
  - apply encoded_data_lookup.
Qed.

(** ** The executor *)

(** C2: when the command of [apply_yaml] runs out of time, the call fails
    with the time-out [ResourceError] (OperationTimeout), and the temporary
    manifest file that the call wrote is still there afterwards: the
    clean-up is not reached on this path. *)
Theorem C2_temp_file_left_after_timeout :
  forall (cfg : K8sConfig) (yaml_content : yaml_text) (dry_run : bool) (w : world),
    cli w (invocations w) (apply_command (next_temp_file w) dry_run) (timeout cfg)
      = TimeoutExpired ->
    fst (apply_yaml cfg yaml_content dry_run w) =
      raise (ResourceError ("kubectl command timed out after " ++
                            Str.of_Z (timeout cfg) ++ " seconds")) /\
    In (next_temp_file w, yaml_content)
       (files (snd (apply_yaml cfg yaml_content dry_run w))) /\
    file_exists (next_temp_file w) (snd (apply_yaml cfg yaml_content dry_run w)) = true.
Proof.
  intros cfg yaml_content dry_run w Hcli.
  unfold apply_yaml, logged, try_except, mbind, write_temp_file, _run_kubectl,
    mbind, subprocess_run.
  fold (next_temp_file w).
  destruct dry_run; cbn [all_str app invocations cli files];
    unfold apply_command in Hcli; cbn [app] in Hcli; rewrite Hcli;
    cbn [fst snd logger_error mraise files].
  - split; [reflexivity|]. split.
    + apply in_or_app. right. left. reflexivity.
    + unfold file_exists. cbn [files]. rewrite existsb_app. cbn [existsb fst].
      rewrite String.eqb_refl. apply orb_true_r.
  - split; [reflexivity|]. split.
    + apply in_or_app. right. left. reflexivity.
    + unfold file_exists. cbn [files]. rewrite existsb_app. cbn [existsb fst].
      rewrite String.eqb_refl. apply orb_true_r.
Qed.

(** C2 in a world whose cluster tool never answers in time. *)
Lemma C2_temp_file_left_after_timeout_witness :
  let w := initial_world (fun _ _ _ => TimeoutExpired) in
  let m := generate_service_yaml "api" (PInt 80) (PInt 80) "default" (PStr "ClusterIP") in
  cli w (invocations w) (apply_command (next_temp_file w) false)
      (timeout default_config) = TimeoutExpired /\
  fst (apply_yaml default_config m false w) =
    raise (ResourceError "kubectl command timed out after 30 seconds") /\
  files (snd (apply_yaml default_config m false w)) = [("/tmp/tmp0.yaml", m)].
Proof.
  cbv zeta. split; [reflexivity|].
  split; [|reflexivity].
  apply (C2_temp_file_left_after_timeout default_config
           (generate_service_yaml "api" (PInt 80) (PInt 80) "default" (PStr "ClusterIP"))
           false (initial_world (fun _ _ _ => TimeoutExpired))).
  reflexivity.
Defined.

Lemma file_exists_filter :
  forall (path : string) (l : list (string * yaml_text)),
    existsb (fun f => String.eqb (fst f) path)
      (filter (fun f => negb (String.eqb (fst f) path)) l) = false.
Proof.
  intros path l. induction l as [|f l IH]; simpl; [reflexivity|].
  destruct (String.eqb (fst f) path) eqn:E; simpl; [exact IH|].
  rewrite E. exact IH.
Qed.

(** The paths on which the clean-up is reached: when the command ends,
    with whatever exit code, the temporary file is gone afterwards. *)
Lemma apply_yaml_cleans_up_on_completion :
  forall (cfg : K8sConfig) (yaml_content : yaml_text) (dry_run : bool) (w : world)
         (rc : Z) (out errtxt : string),
    cli w (invocations w) (apply_command (next_temp_file w) dry_run) (timeout cfg)
      = Completed rc out errtxt ->
    file_exists (next_temp_file w) (snd (apply_yaml cfg yaml_content dry_run w)) = false.
Proof.
  intros cfg yaml_content dry_run w rc out errtxt Hcli.
  unfold apply_yaml, logged, try_except, mbind, write_temp_file, _run_kubectl,
    mbind, subprocess_run.
  fold (next_temp_file w).
  destruct dry_run; cbn [all_str app invocations cli files];
    unfold apply_command in Hcli; cbn [app] in Hcli; rewrite Hcli;
    cbn [mret unlink_quietly success stderr files];
    destruct (rc =? 0)%Z; cbn [negb mraise mret snd logger_error files];
    unfold file_exists; cbn [files]; apply file_exists_filter.
Qed.

(** ** [json.loads] and [list_resources] *)

Module JsonFacts.
Import Json.

Ltac split_match H :=
  match type of H with
  | context [match ?x with _ => _ end] => destruct x eqn:?
  | context [if ?b then _ else _] => destruct b eqn:?
  end.

Ltac close_error :=
  match goal with
  | H : inl (JSONDecodeError _) = inl _ |- _ => injection H as <-; reflexivity
  | H : inl ?e0 = inl _ |- _ => is_var e0; injection H as <-
  | H : inr _ = inl _ |- _ => discriminate H
  | H : ret _ = inl _ |- _ => discriminate H
  | H : err _ = inl _ |- _ => injection H as <-; reflexivity
  end.

Lemma scan_string_error :
  forall (fuel : nat) (s : string) (e : exn),
    scan_string fuel s = inl e -> is_JSONDecodeError e = true.
Proof.
  induction fuel as [|fuel IH]; intros s e H; cbn [scan_string] in H.
  - close_error.
  - unfold rbind in H.
    repeat (first [close_error | eapply IH; eassumption | split_match H]).
Qed.

Lemma value_error :
  forall fuel : nat,
    (forall s e, value fuel s = inl e -> is_JSONDecodeError e = true) /\
    (forall s acc e, elements fuel s acc = inl e -> is_JSONDecodeError e = true) /\
    (forall s acc e, members fuel s acc = inl e -> is_JSONDecodeError e = true).
Proof.
  induction fuel as [|fuel (IHv & IHe & IHm)].
  - repeat split; intros; cbn in *; close_error.
  - repeat split.
    + intros s e H. cbn [value] in H. unfold rbind in H.
      repeat (first [close_error
                    | eapply IHe; eassumption
                    | eapply IHm; eassumption
                    | eapply scan_string_error; eassumption
                    | split_match H]).
    + intros s acc e H. cbn [elements] in H. unfold rbind in H.
      repeat (first [close_error
                    | eapply IHe; eassumption
                    | eapply IHv; eassumption
                    | split_match H]).
    + intros s acc e H. cbn [members] in H. unfold rbind in H.
      repeat (first [close_error
                    | eapply IHm; eassumption
                    | eapply IHv; eassumption
                    | eapply scan_string_error; eassumption
                    | split_match H]).
Qed.

(** The only exception of [json.loads] is its decode error. *)
Lemma loads_error :
  forall (s : string) (e : exn),
    loads s = inl e -> is_JSONDecodeError e = true.
Proof.
  intros s e H. unfold loads, rbind in H.
  destruct (value (S (2 * String.length s)) (skip_ws s)) as [e0 | r] eqn:Hv.
  - injection H as <-.
    exact (proj1 (value_error (S (2 * String.length s))) _ _ Hv).
  - destruct (skip_ws (snd r)); [discriminate|]. injection H as <-. reflexivity.
Qed.

End JsonFacts.

(** C3, the statement as the specification has it, fails for the output
    [not json]: [list_resources] ends with the decode error of
    [json.loads] itself, which is none of the error classes of the
    module. *)
Lemma C3_counterexample :
  let w := initial_world (fun _ _ _ => Completed 0 "not json" "") in
  Json.loads "not json" = raise (JSONDecodeError "Expecting value") /\
  fst (list_resources default_config (PStr "pods") PNone w) =
    raise (JSONDecodeError "Expecting value") /\
  ~ fails_with (fst (list_resources default_config (PStr "pods") PNone w))
      is_K8sError.
Proof.
  cbv zeta. split; [reflexivity|]. split; [reflexivity|].
  intros (e & He & Hk). vm_compute in He. injection He as <-. discriminate.
Qed.

(** C3, amended: when the tool exits with code 0 and its output is not
    valid JSON, [list_resources] logs the decode error of [json.loads] and
    raises that same exception again; it is a [JSONDecodeError], not one of
    the error classes of the module.  [ListResourcesTool._run], asked for
    that resource type and namespace, turns it into the reply [Error:]
    followed by the text of the decode error. *)
Theorem C3_decode_error_propagates :
  forall (cfg : K8sConfig) (resource_type namespace : pyval) (w : world)
         (args : list string) (out errtxt : string) (e : exn),
    all_str (list_command resource_type namespace) = Some args ->
    cli w (invocations w) args (timeout cfg) = Completed 0 out errtxt ->
    Json.loads out = raise e ->
    fst (list_resources cfg resource_type namespace w) = raise e /\
    is_JSONDecodeError e = true /\
    is_K8sError e = false /\
    log (snd (list_resources cfg resource_type namespace w)) =
      (log w ++ [("Error listing resources: " ++ exn_str e)%string])%list /\
    (forall (tool_input : string) (data : list (string * pyval)),
       Json.loads tool_input = ret (PDict data) ->
       dict_get data "resource_type" (PStr "pods") = resource_type ->
       dict_get data "namespace" PNone = namespace ->
       fst (ListResourcesTool._run cfg tool_input w) =
         ret ("Error: " ++ exn_str e)).
Proof.
  intros cfg resource_type namespace w args out errtxt e Hargs Hcli Hloads.
  assert (Hj : is_JSONDecodeError e = true)
    by (exact (JsonFacts.loads_error out e Hloads)).
  assert (Hrun : exists w',
            list_resources cfg resource_type namespace w = (raise e, w') /\
            log w' = (log w ++ [("Error listing resources: " ++ exn_str e)%string])%list).
  { unfold list_resources, logged, try_except, mbind, _run_kubectl, mbind,
      subprocess_run.
    fold (list_command resource_type namespace). rewrite Hargs.
    cbn [cli invocations]. rewrite Hcli.
    cbn [mret success stdout negb Z.eqb lift]. rewrite Hloads.
    cbn [fst snd logger_error mraise log raise].
    eexists. split; reflexivity. }
  destruct Hrun as (w' & Hrun & Hlog).
  split; [rewrite Hrun; reflexivity|].
  split; [exact Hj|].
  split; [destruct e; try discriminate; reflexivity|].
  split; [rewrite Hrun; exact Hlog|].
  intros tool_input data Hinput Hrt Hns.
  unfold ListResourcesTool._run, try_except, mbind, lift.
  rewrite Hinput. cbn [py_get ret]. rewrite Hrt, Hns, Hrun. reflexivity.
Qed.

(** C3 for a tool that answers with a page of HTML. *)
Lemma C3_decode_error_propagates_witness :
  let w := initial_world (fun _ _ _ => Completed 0 "<html>" "") in
  let args := ["kubectl"; "get"; "pods"; "-o"; "json"] in
  let tool_input := Json.dumps (PDict [("resource_type", PStr "pods")]) in
  all_str (list_command (PStr "pods") PNone) = Some args /\
  cli w (invocations w) args (timeout default_config) = Completed 0 "<html>" "" /\
  Json.loads "<html>" = raise (JSONDecodeError "Expecting value") /\
  fst (list_resources default_config (PStr "pods") PNone w) =
    raise (JSONDecodeError "Expecting value") /\
  log (snd (list_resources default_config (PStr "pods") PNone w)) =
    ["Error listing resources: Expecting value"] /\
  fst (ListResourcesTool._run default_config tool_input w) =
    ret "Error: Expecting value".
Proof.
  cbv zeta. split; [reflexivity|]. split; [reflexivity|]. split; [reflexivity|].
  destruct (C3_decode_error_propagates default_config (PStr "pods") PNone
              (initial_world (fun _ _ _ => Completed 0 "<html>" ""))
              ["kubectl"; "get"; "pods"; "-o"; "json"] "<html>" ""
              (JSONDecodeError "Expecting value")
              eq_refl eq_refl eq_refl) as (H1 & _ & _ & H2 & H3).
  split; [exact H1|]. split; [exact H2|].
  exact (H3 (Json.dumps (PDict [("resource_type", PStr "pods")]))
            [("resource_type", PStr "pods")] eq_refl eq_refl eq_refl).
Defined.

(** What the tool makes of it: the decode error ends up in the reply of
    [ListResourcesTool._run] as plain text. *)
Lemma list_tool_reply_on_bad_output :
  let w := initial_world (fun _ _ _ => Completed 0 "not json" "") in
  fst (ListResourcesTool._run default_config
         (Json.dumps (PDict [("resource_type", PStr "pods")])) w) =
    ret "Error: Expecting value".
Proof. reflexivity. Qed.

(** ** The tools and the agent *)

(** C7: when the validating step of a tool ends with an error, the tool
    hands no command line to the cluster CLI, writes no manifest file, and
    returns the text of that error. *)
Theorem C7_validation_failure_no_invocation :
  forall (t : guarded_tool) (cfg : K8sConfig) (tool_input : string)
         (data : list (string * pyval)) (e : exn) (w : world),
    Json.loads tool_input = ret (PDict data) ->
    request_validation t cfg data = raise e ->
    fst (tool_run t cfg tool_input w) = ret (error_reply t e) /\
    invocations (snd (tool_run t cfg tool_input w)) = invocations w /\
    files (snd (tool_run t cfg tool_input w)) = files w.
Proof.
  intros t cfg tool_input data e w Hloads Hval.
  destruct t; cbn [tool_run request_validation error_reply] in *.
  - unfold validate_deployment_request, rbind in Hval.
    unfold CreateDeploymentTool._run, try_except, mbind, lift.
    rewrite Hloads. cbn [py_get ret].
    destruct (validate_name (dict_get data "name" PNone)) as [e1|name];
      [injection Hval as <-; destruct e1; repeat split|].
    destruct (validate_image cfg (dict_get data "image" PNone)) as [e1|image];
      [injection Hval as <-; destruct e1; repeat split|].
    destruct (validate_replicas cfg (dict_get data "replicas" (PInt 1)))
      as [e1|replicas];
      [injection Hval as <-; destruct e1; repeat split|].
    destruct (validate_namespace cfg (dict_get data "namespace" (PStr "default")))
      as [e1|namespace];
      [injection Hval as <-; destruct e1; repeat split|].
    destruct (validate_port (dict_get data "port" (PInt 80))) as [e1|port];
      [injection Hval as <-; destruct e1; repeat split|].
    discriminate.
  - unfold validate_service_request, rbind in Hval.
    unfold CreateServiceTool._run, try_except, mbind, lift.
    rewrite Hloads. cbn [py_get ret].
    destruct (validate_name (dict_get data "name" PNone)) as [e1|name];
      [injection Hval as <-; repeat split|].
    destruct (validate_port (dict_get data "port" (PInt 80))) as [e1|port];
      [injection Hval as <-; repeat split|].
    destruct (validate_port (dict_get data "target_port" (PInt 80)))
      as [e1|target_port];
      [injection Hval as <-; repeat split|].
    destruct (validate_namespace cfg (dict_get data "namespace" (PStr "default")))
      as [e1|namespace];
      [injection Hval as <-; repeat split|].
    discriminate.
  - unfold validate_scale_request, rbind in Hval.
    unfold ScaleDeploymentTool._run, try_except, mbind, lift.
    rewrite Hloads. cbn [py_get ret].
    destruct (validate_name (dict_get data "name" PNone)) as [e1|name];
      [injection Hval as <-; repeat split|].
    destruct (validate_replicas cfg (dict_get data "replicas" PNone))
      as [e1|replicas];
      [injection Hval as <-; repeat split|].
    discriminate.
Qed.

(** C7 for a deployment request into a forbidden namespace. *)
Lemma C7_validation_failure_no_invocation_witness :
  let data := [("name", PStr "api"); ("image", PStr "nginx");
               ("namespace", PStr "kube-system")] in
  let tool_input := Json.dumps (PDict data) in
  let w := initial_world (fun _ _ _ => Completed 0 "created" "") in
  Json.loads tool_input = ret (PDict data) /\
  request_validation DeploymentTool default_config data =
    raise (SecurityError "Namespace 'kube-system' is forbidden") /\
  fst (tool_run DeploymentTool default_config tool_input w) =
    ret "Security error: Namespace 'kube-system' is forbidden" /\
  invocations (snd (tool_run DeploymentTool default_config tool_input w)) = [] /\
  files (snd (tool_run DeploymentTool default_config tool_input w)) = [].
Proof.
  cbv zeta. split; [reflexivity|]. split; [reflexivity|].
  apply (C7_validation_failure_no_invocation DeploymentTool default_config
           (Json.dumps (PDict [("name", PStr "api"); ("image", PStr "nginx");
                               ("namespace", PStr "kube-system")]))
           [("name", PStr "api"); ("image", PStr "nginx");
            ("namespace", PStr "kube-system")]
           (SecurityError "Namespace 'kube-system' is forbidden")
           (initial_world (fun _ _ _ => Completed 0 "created" ""))).
  - reflexivity.
  - reflexivity.
Defined.

(** The errors of the guardrails are reported under their own headings by
    the deployment tool. *)
Lemma guardrail_error_reply :
  forall e : exn,
    is_guardrail_error e = true ->
    error_reply DeploymentTool e =
      (if is_SecurityError e then "Security error: " else "Validation error: ")
      ++ exn_str e.
Proof.
  intros [m|m|m|m|m|m]; simpl; intros H; try discriminate; reflexivity.
Qed.

(** C1: the scenario text contains the letter h (in the word with), which
    the help check of [run] looks for anywhere in the text; [run] shows the
    help screen and returns, and no deployment is resolved, validated or
    generated. *)
Theorem C1_scenario_routed_to_help :
  forall (cfg : K8sConfig) (w : world),
    Str.contains "h" (Str.lower scenario_text) = true /\
    fst (K8sAgent.run cfg scenario_text w) = ret "Help displayed" /\
    invocations (snd (K8sAgent.run cfg scenario_text w)) = invocations w /\
    files (snd (K8sAgent.run cfg scenario_text w)) = files w /\
    console (snd (K8sAgent.run cfg scenario_text w)) =
      (console w ++ [UiInfo K8sAgent.help_text])%list.
Proof.
  intros cfg w. split; [reflexivity|].
  repeat split.
Qed.

(** Past the help check the scenario is resolved as the specification
    says: the parameters read from the text, ... *)
Lemma scenario_parameters :
  K8sAgent.deployment_parameters scenario_text =
    PDict [("name", PStr "api"); ("image", PStr "nginx"); ("replicas", PInt 3)].
Proof. reflexivity. Qed.

(** ... their validation, ... *)
Lemma scenario_validation :
  validate_deployment_request default_config
    [("name", PStr "api"); ("image", PStr "nginx"); ("replicas", PInt 3)] =
  ret (mkValidatedDeployment "api" "nginx" (PInt 3) "default" (PInt 80)).
Proof. reflexivity. Qed.

(** ... and the manifest: its replica count and its name are the ones
    given. *)
Lemma deployment_manifest_fields :
  forall (name image : string) (replicas : pyval) (namespace : string)
         (port cpu_limit memory_limit env_vars : pyval) (m : yaml_text),
    generate_deployment_yaml name image replicas namespace port cpu_limit
      memory_limit env_vars = ret m ->
    field ["spec"; "replicas"] (document m) = Some replicas /\
    field ["metadata"; "name"] (document m) = Some (PStr name).
Proof.
  intros name image replicas namespace port cpu_limit memory_limit env_vars m.
  unfold generate_deployment_yaml, rbind.
  destruct (truthy env_vars).
  - destruct (env_entries env_vars); [discriminate|].
    intros H. injection H as <-. split; reflexivity.
  - intros H. injection H as <-. split; reflexivity.
Qed.

(** The dispatch of the scenario when [_process_deployment_command] is
    entered directly, in a world whose cluster accepts the manifest. *)
Lemma scenario_dispatch_past_router :
  let w := initial_world (fun _ _ _ => Completed 0 "deployment.apps/api created" "") in
  let out := K8sAgent._process_deployment_command default_config scenario_text w in
  fst out = ret "Deployment created: deployment.apps/api created" /\
  invocations (snd out) = [["kubectl"; "apply"; "-f"; "/tmp/tmp0.yaml"]] /\
  files (snd out) = [] /\
  exists m title rest,
    console (snd out) = UiYaml m title :: rest /\
    field ["spec"; "replicas"] (document m) = Some (PInt 3) /\
    field ["metadata"; "name"] (document m) = Some (PStr "api").
Proof.
  cbv zeta. split; [reflexivity|]. split; [reflexivity|]. split; [reflexivity|].
  vm_compute. eexists _, _, _. split; [reflexivity|]. split; reflexivity.
Qed.

(** A text without the letter h reaches the deployment branch of [run]:
    the same request worded with the word using. *)
Lemma reworded_scenario_reaches_dispatch :
  let text := "Create a deployment named api using nginx image and 3 replicas" in
  let w := initial_world (fun _ _ _ => Completed 0 "deployment.apps/api created" "") in
  K8sAgent.deployment_parameters text =
    PDict [("name", PStr "api"); ("image", PStr "nginx"); ("replicas", PInt 3)] /\
  fst (K8sAgent.run default_config text w) =
    ret "Deployment created: deployment.apps/api created".
Proof. cbv zeta. split; reflexivity. Qed.

(* ================================================================== *)
(** * Further properties of the code *)

(** ** The guardrails *)

Lemma validate_replicas_cases :
  forall (cfg : K8sConfig) (u : pyval),
    (succeeds (validate_replicas cfg u) <->
       exists n, as_int u = Some n /\ (0 <= n <= max_replicas cfg)%Z) /\
    (forall r, validate_replicas cfg u = ret r -> r = u) /\
    (forall e, validate_replicas cfg u = raise e -> is_ValidationError e = true).
Proof.
  intros cfg u. unfold validate_replicas.
  destruct (as_int u) as [n|] eqn:Hn.
  - destruct (n <? 0)%Z eqn:H0; [apply Z.ltb_lt in H0 | apply Z.ltb_ge in H0].
    + split; [|split].
      * split; [intros (a & Ha); discriminate|].
        intros (m & Hm & Hb). injection Hm as <-. lia.
      * discriminate.
      * intros e H. injection H as <-. reflexivity.
    + destruct (max_replicas cfg <? n)%Z eqn:H1;
        [apply Z.ltb_lt in H1 | apply Z.ltb_ge in H1].
      * split; [|split].
        -- split; [intros (a & Ha); discriminate|].
           intros (m & Hm & Hb). injection Hm as <-. lia.
        -- discriminate.
        -- intros e H. injection H as <-. reflexivity.
      * split; [|split].
        -- split; [intros _; exists n; split; [reflexivity|lia]|].
           intros _. exists u. reflexivity.
        -- intros r H. injection H as <-. reflexivity.
        -- discriminate.
  - split; [|split].
    + split; [intros (a & Ha); discriminate|].
      intros (m & Hm & _). discriminate.
    + discriminate.
    + intros e H. injection H as <-. reflexivity.
Qed.

(** X1: [validate_replicas] accepts exactly the integers between 0 and the
    configured maximum ([True] and [False] count as 1 and 0, [bool] being
    an [int]); it returns the value it was given, and every refusal is a
    [ValidationError]. *)
Theorem X1_validate_replicas_bounds :
  forall (cfg : K8sConfig) (v : pyval),
    (succeeds (validate_replicas cfg v) <->
       exists n, as_int v = Some n /\ (0 <= n <= max_replicas cfg)%Z) /\
    (forall z : Z,
       validate_replicas cfg (PInt z) = ret (PInt z) <->
       (0 <= z <= max_replicas cfg)%Z) /\
    (forall r, validate_replicas cfg v = ret r -> r = v) /\
    (forall e, validate_replicas cfg v = raise e -> is_ValidationError e = true).
Proof.
  intros cfg v.
  pose proof (validate_replicas_cases cfg) as Hgen.
  destruct (Hgen v) as (H1 & H2 & H3).
  split; [exact H1|]. split; [|split; [exact H2|exact H3]].
  intros z. destruct (Hgen (PInt z)) as (Hz & Hr & _). split.
  - intros H. assert (Hs : succeeds (validate_replicas cfg (PInt z)))
      by (exists (PInt z); exact H).
    apply Hz in Hs. destruct Hs as (n & Hn & Hb). injection Hn as <-. exact Hb.
  - intros Hb.
    assert (Hs : succeeds (validate_replicas cfg (PInt z)))
      by (apply Hz; exists z; split; [reflexivity|exact Hb]).
    destruct Hs as (r & Hr'). rewrite Hr'. rewrite (Hr r Hr'). reflexivity.
Qed.

(** X2: [validate_port] accepts exactly the integers from 1 to 65535,
    returns the value it was given, and every refusal is a
    [ValidationError]. *)
Theorem X2_validate_port_bounds :
  forall v : pyval,
    (succeeds (validate_port v) <->
       exists n, as_int v = Some n /\ (1 <= n <= 65535)%Z) /\
    (forall r, validate_port v = ret r -> r = v) /\
    (forall e, validate_port v = raise e -> is_ValidationError e = true).
Proof.
  intros v. unfold validate_port.
  destruct (as_int v) as [n|] eqn:Hn.
  - destruct ((n <? 1)%Z || (65535 <? n)%Z) eqn:Hb.
    + split; [|split].
      * split; [intros (a & Ha); discriminate|].
        intros (m & Hm & Hr). injection Hm as <-.
        apply orb_true_iff in Hb. destruct Hb as [Hb | Hb];
          apply Z.ltb_lt in Hb; lia.
      * discriminate.
      * intros e H. injection H as <-. reflexivity.
    + apply orb_false_iff in Hb. destruct Hb as (Hlo & Hhi).
      apply Z.ltb_ge in Hlo. apply Z.ltb_ge in Hhi.
      split; [|split].
      * split; [intros _; exists n; split; [reflexivity|lia]|].
        intros _. exists v. reflexivity.
      * intros r H. injection H as <-. reflexivity.
      * discriminate.
  - split; [|split].
    + split; [intros (a & Ha); discriminate|].
      intros (m & Hm & _). discriminate.
    + discriminate.
    + intros e H. injection H as <-. reflexivity.
Qed.

(** X3: whatever [validate_name] returns is a name of the pattern with at
    most 63 characters, and validating it again returns it unchanged. *)
Theorem X3_validate_name_result_is_valid :
  forall n name : string,
    validate_name (PStr n) = ret name ->
    dns_label name = true /\ String.length name <= 63 /\
    validate_name (PStr name) = ret name.
Proof.
  intros n name H.
  destruct (validate_name_returns_label n name H) as (Hl & Hlen).
  split; [exact Hl|]. split; [exact Hlen|].
  apply validate_name_label; assumption.
Qed.

(** X3 at a name that is followed by a line feed. *)
Lemma X3_validate_name_result_is_valid_witness :
  validate_name (PStr ("web-1" ++ nl)) = ret "web-1" /\
  dns_label "web-1" = true /\ String.length "web-1" <= 63 /\
  validate_name (PStr "web-1") = ret "web-1".
Proof.
  split; [reflexivity|].
  apply (X3_validate_name_result_is_valid ("web-1" ++ nl) "web-1"). reflexivity.
Defined.

(** Only a text can pass [validate_name] or [validate_image]. *)
Lemma validate_name_only_text :
  forall (v : pyval) (name : string),
    validate_name v = ret name -> exists s, v = PStr s.
Proof.
  intros v name. unfold validate_name.
  destruct (negb (truthy v)); [discriminate|].
  destruct v; try discriminate. intros _. eexists. reflexivity.
Qed.

Lemma validate_image_only_text :
  forall (cfg : K8sConfig) (v : pyval) (r : string),
    validate_image cfg v = ret r -> exists s, v = PStr s.
Proof.
  intros cfg v r. unfold validate_image.
  destruct (negb (truthy v)); [discriminate|].
  destruct v; try (destruct (allowed_images cfg); discriminate).
  intros _. eexists. reflexivity.
Qed.

Lemma validate_image_text :
  forall (cfg : K8sConfig) (image : string),
    (succeeds (validate_image cfg (PStr image)) <->
       image <> "" /\
       (allowed_images cfg = [] \/
        exists a, In a (allowed_images cfg) /\
                  Str.contains a (Str.lower image) = true) /\
       Re.matched (Re.rmatch image_re image) = true) /\
    (forall r, validate_image cfg (PStr image) = ret r -> r = Str.strip image) /\
    (forall e, validate_image cfg (PStr image) = raise e ->
               is_ValidationError e = true).
Proof.
  intros cfg image.
  unfold validate_image. destruct image as [|c image].
  - cbn [truthy Str.is_empty negb]. split; [|split].
    + split; [intros (a & Ha); discriminate|]. intros (H & _). congruence.
    + discriminate.
    + intros e H. injection H as <-. reflexivity.
  - cbn [truthy Str.is_empty negb].
    set (img := String c image).
    destruct (allowed_images cfg) as [|a0 al] eqn:Hal.
    + cbn [rbind ret].
      destruct (Re.matched (Re.rmatch image_re img)) eqn:Hm; cbn [negb].
      * split; [|split].
        -- split; [intros _|intros _; eexists; reflexivity].
           split; [discriminate|]. split; [left; reflexivity|reflexivity].
        -- intros r H. injection H as <-. reflexivity.
        -- discriminate.
      * split; [|split].
        -- split; [intros (a & Ha); discriminate|]. intros (_ & _ & H). discriminate.
        -- discriminate.
        -- intros e H. injection H as <-. reflexivity.
    + destruct (existsb (fun allowed => Str.contains allowed (Str.lower img))
                  (a0 :: al)) eqn:Hex; cbn [negb rbind ret raise].
      * apply existsb_exists in Hex. destruct Hex as (a & Hin & Hc).
        destruct (Re.matched (Re.rmatch image_re img)) eqn:Hm; cbn [negb].
        -- split; [|split].
           ++ split; [intros _|intros _; eexists; reflexivity].
              split; [discriminate|]. split; [right; exists a; auto|reflexivity].
           ++ intros r H. injection H as <-. reflexivity.
           ++ discriminate.
        -- split; [|split].
           ++ split; [intros (x & Hx); discriminate|].
              intros (_ & _ & H). discriminate.
           ++ discriminate.
           ++ intros e H. injection H as <-. reflexivity.
      * split; [|split].
        -- split; [intros (x & Hx); discriminate|].
           intros (_ & [H | (a & Hin & Hc)] & _); [discriminate|].
           assert (Ht : existsb (fun allowed => Str.contains allowed (Str.lower img))
                          (a0 :: al) = true)
             by (apply existsb_exists; exists a; auto).
           congruence.
        -- discriminate.
        -- intros e H. injection H as <-. reflexivity.
Qed.


(** X4: [validate_image] accepts a text exactly when it is not empty, the
    allowed-image list is empty or one of its entries occurs in the
    lower-cased text, and the text passes the format pattern; it returns
    the text trimmed, every refusal of a text is a [ValidationError], and
    no value other than a text is accepted. *)
Theorem X4_validate_image_accepts :
  forall (cfg : K8sConfig) (image : string),
    (succeeds (validate_image cfg (PStr image)) <->
       image <> "" /\
       (allowed_images cfg = [] \/
        exists a, In a (allowed_images cfg) /\
                  Str.contains a (Str.lower image) = true) /\
       Re.matched (Re.rmatch image_re image) = true) /\
    (forall r, validate_image cfg (PStr image) = ret r -> r = Str.strip image) /\
    (forall e, validate_image cfg (PStr image) = raise e ->
               is_ValidationError e = true) /\
    (forall (v : pyval) (r : string),
       validate_image cfg v = ret r -> exists s, v = PStr s).
Proof.
  intros cfg image. destruct (validate_image_text cfg image) as (A & B & C).
  repeat split; try apply A; auto.
  apply validate_image_only_text.
Qed.

(** X6: an empty namespace, and any other value that counts as false
    ([None], 0, an empty list), stands for the configured default: when
    the default is a name of at most 63 characters outside the forbidden
    set, [validate_namespace] returns it. *)
Theorem X6_validate_namespace_default :
  forall (cfg : K8sConfig) (v : pyval),
    truthy v = false ->
    dns_label (namespace cfg) = true ->
    String.length (namespace cfg) <= 63 ->
    ~ In (namespace cfg) (forbidden_namespaces cfg) ->
    validate_namespace cfg v = ret (namespace cfg).
Proof.
  intros cfg v Hv Hl Hlen Hnin. unfold validate_namespace. rewrite Hv.
  cbn [negb].
  destruct (existsb (String.eqb (namespace cfg)) (forbidden_namespaces cfg)) eqn:Hf.
  - apply existsb_eqb_In in Hf. contradiction.
  - apply validate_name_label; assumption.
Qed.

(** X6 for the default configuration and a namespace that is absent. *)
Lemma X6_validate_namespace_default_witness :
  truthy PNone = false /\
  validate_namespace default_config PNone = ret "default" /\
  validate_namespace default_config (PStr "") = ret "default".
Proof.
  split; [reflexivity|]. split.
  - apply (X6_validate_namespace_default default_config PNone);
      [reflexivity | reflexivity | vm_compute; lia |].
    intros [H | [H | [H | []]]]; discriminate.
  - reflexivity.
Defined.

(** X7: on a text that does not end with a line feed, a namespace that
    [validate_namespace] returns is the text that was checked (the
    configured default for an empty one); it is a name of the pattern and
    it is not in the forbidden set. *)
Theorem X7_validate_namespace_sound :
  forall (cfg : K8sConfig) (ns r : string),
    ends_with_lf (effective_namespace cfg ns) = false ->
    validate_namespace cfg (PStr ns) = ret r ->
    r = effective_namespace cfg ns /\
    dns_label r = true /\
    ~ In r (forbidden_namespaces cfg).
Proof.
  intros cfg ns r Hlf Hr.
  destruct (validate_namespace_not_forbidden cfg ns r Hlf Hr) as (He & Hn).
  split; [exact He|]. split; [|exact Hn].
  rewrite validate_namespace_str in Hr. cbv zeta in Hr.
  destruct (existsb _ (forbidden_namespaces cfg)); [discriminate|].
  exact (proj1 (validate_name_returns_label _ _ Hr)).
Qed.

(** X7 for a namespace of the default configuration. *)
Lemma X7_validate_namespace_sound_witness :
  ends_with_lf (effective_namespace default_config "staging") = false /\
  validate_namespace default_config (PStr "staging") = ret "staging" /\
  ~ In "staging" (forbidden_namespaces default_config).
Proof.
  split; [reflexivity|]. split; [reflexivity|].
  apply (X7_validate_namespace_sound default_config "staging" "staging");
    reflexivity.
Defined.

Lemma image_char_no_space :
  forall c, image_char c = true -> Str.is_space c = false.
Proof.
  intros c. destruct c as [[] [] [] [] [] [] [] []]; vm_compute; intros H;
    try discriminate; reflexivity.
Qed.

Lemma tag_char_image_char : forall c, tag_char c = true -> image_char c = true.
Proof.
  intros c. destruct c as [[] [] [] [] [] [] [] []]; vm_compute; intros H;
    try discriminate; reflexivity.
Qed.

Lemma forallb_impl :
  forall (p q : ascii -> bool) (s : string),
    (forall c, p c = true -> q c = true) ->
    Str.forallb p s = true -> Str.forallb q s = true.
Proof.
  intros p q s Hpq. induction s as [|c s IH]; simpl; [reflexivity|].
  intros H. apply andb_true_iff in H. destruct H as (Hc & Hs).
  rewrite (Hpq c Hc), (IH Hs). reflexivity.
Qed.

Lemma rstrip_image_chars :
  forall s e, Str.forallb image_char s = true -> e = "" \/ e = nl ->
    Str.rstrip (s ++ e) = s.
Proof.
  induction s as [|c s IH]; intros e H He.
  - destruct He as [-> | ->]; reflexivity.
  - simpl in H. apply andb_true_iff in H. destruct H as (Hc & Hs).
    simpl. rewrite (IH e Hs He), (image_char_no_space c Hc).
    destruct s; reflexivity.
Qed.

Lemma strip_image_chars :
  forall s e, Str.forallb image_char s = true -> s <> "" -> e = "" \/ e = nl ->
    Str.strip (s ++ e) = s.
Proof.
  intros s e H Hne He. unfold Str.strip.
  destruct s as [|c s]; [congruence|].
  assert (Hc : Str.is_space c = false).
  { simpl in H. apply andb_true_iff in H. apply image_char_no_space. tauto. }
  change (Str.lstrip (String c s ++ e)) with
    (if Str.is_space c then Str.lstrip (s ++ e) else String c s ++ e).
  rewrite Hc. apply rstrip_image_chars; assumption.
Qed.

(** The texts that pass the format pattern of images: characters of an
    image reference, at least one, with at most one line feed after
    them. *)
Lemma image_re_shape :
  forall s : string,
    Re.matched (Re.rmatch image_re s) = true ->
    exists body e, s = body ++ e /\ body <> "" /\
                   Str.forallb image_char body = true /\ (e = "" \/ e = nl).
Proof.
  intros s. unfold Re.rmatch, image_re, Re.Plus.
  cbn [Re.exec]. cbn [Nat.eqb].
  destruct s as [|c s]; [discriminate|].
  destruct (repo_char c) eqn:Hc; [|discriminate].
  match goal with
  | |- context [Re.star_loop ?n ?f ?pos ?t ?caps ?k] =>
      change (Re.star_loop n f pos t caps k)
        with (Re.exec (Re.Star (Re.Chars repo_char)) pos t caps k);
      rewrite (ReFacts.exec_star_chars _ repo_char pos t caps k);
      pose proof (proj1 (ReFacts.greedy_some _ repo_char k t pos caps)) as Hspec;
      destruct (Re.greedy repo_char pos t caps k) eqn:Hg; [|discriminate]
  end.
  intros _. destruct (Hspec ltac:(discriminate)) as (u & v & -> & Hu & Hk).
  clear Hspec Hg.
  assert (Hcu : Str.forallb image_char (String c u) = true).
  { simpl. unfold image_char at 1. rewrite Hc. simpl.
    apply (forallb_impl repo_char); [|exact Hu].
    intros x Hx. unfold image_char. rewrite Hx. reflexivity. }
  destruct v as [|d v].
  - exists (String c u), "". repeat split; auto; discriminate.
  - destruct (Ascii.eqb ":" d) eqn:Hd.
    + destruct v as [|t v].
      * (* a colon with nothing after it: only the end-of-text check is left *)
        exfalso. apply Hk. apply Ascii.eqb_eq in Hd. subst d. reflexivity.
      * destruct (tag_char t) eqn:Ht.
        -- match type of Hk with
           | context [Re.star_loop ?n ?f ?pos ?x ?caps ?k] =>
               change (Re.star_loop n f pos x caps k)
                 with (Re.exec (Re.Star (Re.Chars tag_char)) pos x caps k) in Hk;
               rewrite (ReFacts.exec_star_chars _ tag_char pos x caps k) in Hk;
               pose proof (proj1 (ReFacts.greedy_some _ tag_char k x pos caps)) as Hspec;
               destruct (Re.greedy tag_char pos x caps k) eqn:Hg
           end.
           ++ destruct (Hspec ltac:(discriminate)) as (u2 & v2 & -> & Hu2 & Hk2).
              exists (String c u ++ String d (String t u2)), v2.
              assert (He : v2 = "" \/ v2 = nl).
              { destruct v2 as [|e v2]; [left; reflexivity|].
                destruct v2; [|congruence].
                destruct (Ascii.eqb e Str.LF) eqn:E; [|congruence].
                apply Ascii.eqb_eq in E. subst e. right. reflexivity. }
              repeat split; auto.
              ** simpl. rewrite app_assoc_string. reflexivity.
              ** discriminate.
              ** change (Str.forallb image_char
                           (String c u ++ String d (String t u2)) = true).
                 rewrite forallb_app, Hcu. simpl.
                 apply Ascii.eqb_eq in Hd. subst d.
                 rewrite (tag_char_image_char t Ht).
                 rewrite (forallb_impl tag_char image_char u2 tag_char_image_char Hu2).
                 reflexivity.
           ++ exfalso. apply Hk. reflexivity.
        -- exfalso. apply Hk. reflexivity.
    + destruct v as [|x v]; [|exfalso; apply Hk; reflexivity].
      destruct (Ascii.eqb d Str.LF) eqn:E; [|exfalso; apply Hk; reflexivity].
      apply Ascii.eqb_eq in E. subst d.
      exists (String c u), nl. repeat split; auto; discriminate.
Qed.

(** X5: an image that [validate_image] returns is not empty and holds only
    letters, digits, dots, underscores, slashes, hyphens and colons: no
    white space, no line feed. *)
Theorem X5_validate_image_result_is_clean :
  forall (cfg : K8sConfig) (v : pyval) (image : string),
    validate_image cfg v = ret image ->
    image <> "" /\ Str.forallb image_char image = true.
Proof.
  intros cfg v image H.
  destruct (validate_image_only_text cfg v image H) as (s & ->).
  destruct (validate_image_text cfg s) as (Hacc & Hval & _).
  assert (Hs : succeeds (validate_image cfg (PStr s))) by (exists image; exact H).
  apply Hacc in Hs. destruct Hs as (_ & _ & Hm).
  rewrite (Hval image H).
  destruct (image_re_shape s Hm) as (body & e & -> & Hne & Hall & He).
  rewrite (strip_image_chars body e Hall Hne He). auto.
Qed.

(** X5 at an image with a tag and a line feed after it. *)
Lemma X5_validate_image_result_is_clean_witness :
  validate_image default_config (PStr ("nginx:1.25" ++ nl)) = ret "nginx:1.25" /\
  "nginx:1.25" <> "" /\ Str.forallb image_char "nginx:1.25" = true.
Proof.
  split; [reflexivity|].
  apply (X5_validate_image_result_is_clean default_config
           (PStr ("nginx:1.25" ++ nl)) "nginx:1.25").
  reflexivity.
Defined.

(** ** The manifests *)

(** X8: [generate_deployment_yaml] fails only on environment variables
    that are neither empty nor a dict, and then with an [AttributeError].
    The manifest has one container, named after the deployment and running
    the image; its [env] key is absent when there are no environment
    variables and otherwise lists them in order as name and value. *)
Theorem X8_deployment_container_env :
  forall (name image : string) (replicas : pyval) (namespace : string)
         (port cpu_limit memory_limit env_vars : pyval),
    let gen := generate_deployment_yaml name image replicas namespace port
                 cpu_limit memory_limit env_vars in
    (succeeds gen <-> truthy env_vars = false \/ exists d, env_vars = PDict d) /\
    (forall e, gen = raise e -> exists msg, e = AttributeError msg) /\
    (forall m, gen = ret m ->
       exists container,
         field ["spec"; "template"; "spec"; "containers"] (document m) =
           Some (PList [PDict container]) /\
         dict_lookup "name" container = Some (PStr name) /\
         dict_lookup "image" container = Some (PStr image) /\
         (truthy env_vars = false -> dict_lookup "env" container = None) /\
         (forall d, env_vars = PDict d -> d <> [] ->
            dict_lookup "env" container =
              Some (PList (map (fun kv => PDict [("name", PStr (fst kv));
                                                 ("value", snd kv)]) d)))).
Proof.
  intros name image replicas namespace port cpu_limit memory_limit env_vars gen.
  subst gen. unfold generate_deployment_yaml, rbind.
  destruct (truthy env_vars) eqn:Ht.
  - destruct env_vars as [| b | z | x | s | l | d]; cbn [env_entries raise ret].
    1-6: (split; [|split];
          [ split; [intros (a & Ha); discriminate
                   | intros [H | (d & H)]; discriminate]
          | intros e H; injection H as <-; eexists; reflexivity
          | discriminate ]).
    split; [|split].
    + split; [intros _; right; exists d; reflexivity|intros _; eexists; reflexivity].
    + discriminate.
    + intros m H. injection H as <-. eexists. split; [reflexivity|].
      split; [reflexivity|]. split; [reflexivity|]. split; [discriminate|].
      intros d' Hd' _. injection Hd' as <-. reflexivity.
  - split; [|split].
    + split; [intros _; left; reflexivity|intros _; eexists; reflexivity].
    + discriminate.
    + intros m H. injection H as <-. eexists. split; [reflexivity|].
      split; [reflexivity|]. split; [reflexivity|]. split; [reflexivity|].
      intros d Hd Hne. subst env_vars. destruct d; [congruence|discriminate].
Qed.

(** X9: the manifests of one name fit together by label.  The service is
    called name-service and selects the pods labelled app=name; the pods of
    the deployment of that name carry this label, which is also the label
    its own selector matches; and the probes of the container go to the
    container port.  Each manifest is placed in the namespace given to its
    own generator: nothing ties the two namespaces together. *)
Theorem X9_service_selects_deployment_pods :
  forall (name image : string) (replicas : pyval)
         (deployment_namespace service_namespace : string)
         (port cpu_limit memory_limit env_vars service_port target_port
          service_type : pyval) (m : yaml_text),
    generate_deployment_yaml name image replicas deployment_namespace port
      cpu_limit memory_limit env_vars = ret m ->
    let s := generate_service_yaml name service_port target_port
               service_namespace service_type in
    field ["metadata"; "name"] (document s) = Some (PStr (name ++ "-service")) /\
    field ["spec"; "selector"] (document s) = Some (PDict [("app", PStr name)]) /\
    field ["spec"; "template"; "metadata"; "labels"; "app"] (document m) =
      Some (PStr name) /\
    field ["spec"; "selector"; "matchLabels"] (document m) =
      Some (PDict [("app", PStr name)]) /\
    field ["metadata"; "namespace"] (document s) = Some (PStr service_namespace) /\
    field ["metadata"; "namespace"] (document m) =
      Some (PStr deployment_namespace) /\
    (exists container,
       field ["spec"; "template"; "spec"; "containers"] (document m) =
         Some (PList [PDict container]) /\
       field ["ports"] (PDict container) =
         Some (PList [PDict [("containerPort", port); ("name", PStr "http")]]) /\
       field ["livenessProbe"; "httpGet"; "port"] (PDict container) = Some port /\
       field ["readinessProbe"; "httpGet"; "port"] (PDict container) = Some port).
Proof.
  intros name image replicas deployment_namespace service_namespace port
    cpu_limit memory_limit env_vars service_port target_port service_type m.
  unfold generate_deployment_yaml, rbind.
  destruct (truthy env_vars).
  - destruct (env_entries env_vars); [discriminate|].
    intros H. injection H as <-. cbv zeta.
    repeat (split; [reflexivity|]). eexists. repeat split.
  - intros H. injection H as <-. cbv zeta.
    repeat (split; [reflexivity|]). eexists. repeat split.
Qed.

(** X9 for a deployment in the namespace prod and a service of the same
    name in the namespace default. *)
Lemma X9_service_selects_deployment_pods_witness :
  exists m,
    generate_deployment_yaml "api" "nginx" (PInt 3) "prod" (PInt 80)
      (PStr "500m") (PStr "512Mi") (PDict []) = ret m /\
    field ["spec"; "selector"]
      (document (generate_service_yaml "api" (PInt 80) (PInt 80) "default"
                   (PStr "ClusterIP"))) = Some (PDict [("app", PStr "api")]) /\
    field ["spec"; "template"; "metadata"; "labels"; "app"] (document m) =
      Some (PStr "api") /\
    field ["metadata"; "namespace"]
      (document (generate_service_yaml "api" (PInt 80) (PInt 80) "default"
                   (PStr "ClusterIP"))) = Some (PStr "default") /\
    field ["metadata"; "namespace"] (document m) = Some (PStr "prod").
Proof.
  eexists. split; [reflexivity|].
  match goal with
  | |- context [document ?m] =>
      destruct (X9_service_selects_deployment_pods "api" "nginx" (PInt 3) "prod"
                  "default" (PInt 80) (PStr "500m") (PStr "512Mi") (PDict [])
                  (PInt 80) (PInt 80) (PStr "ClusterIP") _ eq_refl)
        as (_ & H2 & H3 & _ & H5 & H6 & _)
  end.
  split; [exact H2|]. split; [exact H3|]. split; [exact H5|exact H6].
Defined.

(** ** The executor *)

(** The time that [_run_kubectl] allows a command. *)
Lemma run_kubectl_unfold :
  forall (cfg : K8sConfig) (cmd : list pyval) (t : option Z) (w : world),
    _run_kubectl cfg cmd t w =
    match all_str cmd with
    | None =>
        (raise (ResourceError
                  "Failed to run kubectl command: expected str, bytes or os.PathLike object"),
         w)
    | Some args =>
        let tm := match t with
                  | Some t => if (t =? 0)%Z then timeout cfg else t
                  | None => timeout cfg
                  end in
        let w' := {| cli := cli w; invocations := invocations w ++ [args];
                     files := files w; tmp_counter := tmp_counter w;
                     console := console w; log := log w |} in
        match cli w (invocations w) args tm with
        | Completed rc out err =>
            (ret {| success := (rc =? 0)%Z; stdout := out; stderr := err;
                    returncode := rc |}, w')
        | TimeoutExpired =>
            (raise (ResourceError ("kubectl command timed out after " ++
                                   Str.of_Z tm ++ " seconds")), w')
        | FileNotFoundError =>
            (raise (ResourceError
                      "kubectl not found. Please install kubectl and ensure it's in PATH"),
             w')
        | OtherError msg =>
            (raise (ResourceError ("Failed to run kubectl command: " ++ msg)), w')
        end
    end.
Proof.
  intros cfg cmd t w. unfold _run_kubectl, mbind, subprocess_run.
  destruct (all_str cmd); [|reflexivity].
  destruct (cli w (invocations w) l _); reflexivity.
Qed.

(** X10: [_run_kubectl] returns a result exactly when the process ends:
    the result carries the exit code and both outputs of the process, with
    [success] set for exit code 0 and for no other.  The time allowed is
    the one asked for, the configured one when none (or 0) is asked for.
    It raises nothing but [ResourceError]; it hands at most one command
    line to the CLI (none when an argument is not a text) and leaves files,
    console and log alone. *)
Theorem X10_run_kubectl_outcomes :
  forall (cfg : K8sConfig) (cmd : list pyval) (t : option Z) (w : world),
    let allowed := match t with
                   | Some t => if (t =? 0)%Z then timeout cfg else t
                   | None => timeout cfg
                   end in
    let out := _run_kubectl cfg cmd t w in
    (forall r,
       fst out = ret r <->
       exists args rc so se,
         all_str cmd = Some args /\
         cli w (invocations w) args allowed = Completed rc so se /\
         r = {| success := (rc =? 0)%Z; stdout := so; stderr := se;
                returncode := rc |}) /\
    (forall e, fst out = raise e -> is_ResourceError e = true) /\
    invocations (snd out) =
      match all_str cmd with
      | Some args => (invocations w ++ [args])%list
      | None => invocations w
      end /\
    files (snd out) = files w /\ console (snd out) = console w /\
    log (snd out) = log w.
Proof.
  intros cfg cmd t w. cbv zeta. rewrite run_kubectl_unfold.
  destruct (all_str cmd) as [args|].
  - cbv zeta.
    destruct (cli w (invocations w) args _) as [rc so se| | |msg] eqn:Hc;
      cbn [fst snd invocations files console log].
    + split; [|split; [discriminate|repeat split]].
      intros r. split.
      * intros H. injection H as <-. exists args, rc, so, se.
        split; [reflexivity|]. split; [exact Hc|reflexivity].
      * intros (args' & rc' & so' & se' & Ha & Hcli & ->).
        injection Ha as <-. pose proof (eq_trans (eq_sym Hc) Hcli) as E.
        injection E as <- <- <-. reflexivity.
    + split; [|split; [intros e H; injection H as <-; reflexivity|repeat split]].
      intros r. split; [discriminate|].
      intros (args' & rc' & so' & se' & Ha & Hcli & _).
      injection Ha as <-. pose proof (eq_trans (eq_sym Hc) Hcli) as E.
      discriminate.
    + split; [|split; [intros e H; injection H as <-; reflexivity|repeat split]].
      intros r. split; [discriminate|].
      intros (args' & rc' & so' & se' & Ha & Hcli & _).
      injection Ha as <-. pose proof (eq_trans (eq_sym Hc) Hcli) as E.
      discriminate.
    + split; [|split; [intros e H; injection H as <-; reflexivity|repeat split]].
      intros r. split; [discriminate|].
      intros (args' & rc' & so' & se' & Ha & Hcli & _).
      injection Ha as <-. pose proof (eq_trans (eq_sym Hc) Hcli) as E.
      discriminate.
  - cbn [fst snd]. split; [|split; [intros e H; injection H as <-; reflexivity|repeat split]].
    intros r. split; [discriminate|].
    intros (args' & rc' & so' & se' & Ha & _). discriminate.
Qed.

(** What an operation does that runs one command and checks its exit
    code: the shape shared by [delete_resource], [describe_resource],
    [get_logs] and the tail of the others. *)
Lemma checked_command :
  forall (A : Type) (cfg : K8sConfig) (what : string) (failure : string -> string)
         (cmd : list pyval)
         (value : ExecutionResult -> A) (w : world)
         (args : list string) (rc : Z) (out err : string),
    all_str cmd = Some args ->
    cli w (invocations w) args (timeout cfg) = Completed rc out err ->
    let w1 := {| cli := cli w; invocations := invocations w ++ [args];
                 files := files w; tmp_counter := tmp_counter w;
                 console := console w; log := log w |} in
    logged what
      (do result <- _run_kubectl cfg cmd None;
       if negb (success result) then
         mraise (ResourceError (failure (stderr result)))
       else mret (value result)) w =
    if (rc =? 0)%Z then
      (ret (value {| success := true; stdout := out; stderr := err;
                     returncode := rc |}), w1)
    else
      (raise (ResourceError (failure err)),
       {| cli := cli w; invocations := invocations w ++ [args];
          files := files w; tmp_counter := tmp_counter w;
          console := console w;
          log := log w ++ [(what ++ ": " ++ failure err)%string] |}).
Proof.
  intros A cfg what failure cmd value w args rc out err Hargs Hcli. cbv zeta.
  unfold logged, try_except, mbind at 1. rewrite run_kubectl_unfold, Hargs.
  cbv zeta. rewrite Hcli. cbn [success stderr negb].
  destruct (rc =? 0)%Z; reflexivity.
Qed.

(** An operation of that shape raises nothing but [ResourceError]. *)
Lemma checked_command_errors :
  forall (A : Type) (cfg : K8sConfig) (what : string) (failure : string -> string)
         (cmd : list pyval)
         (value : ExecutionResult -> A) (w : world) (e : exn),
    fst (logged what
           (do result <- _run_kubectl cfg cmd None;
            if negb (success result) then
              mraise (ResourceError (failure (stderr result)))
            else mret (value result)) w) = raise e ->
    is_ResourceError e = true.
Proof.
  intros A cfg what failure cmd value w e.
  unfold logged, try_except, mbind at 1. rewrite run_kubectl_unfold.
  destruct (all_str cmd) as [args|]; cbv zeta.
  - destruct (cli w (invocations w) args (timeout cfg)) as [rc so se| | |msg];
      cbn [success negb].
    + destruct (rc =? 0)%Z; cbn [negb mraise mret fst logger_error mbind].
      * discriminate.
      * intros H. injection H as <-. reflexivity.
    + cbn. intros H. injection H as <-. reflexivity.
    + cbn. intros H. injection H as <-. reflexivity.
    + cbn. intros H. injection H as <-. reflexivity.
  - cbn. intros H. injection H as <-. reflexivity.
Qed.

Lemma with_namespace_text :
  forall (cmd : list string) (ns : string),
    all_str (with_namespace (map PStr cmd) (PStr ns)) =
      Some (cmd ++ namespace_flag ns)%list.
Proof.
  intros cmd ns. unfold with_namespace, namespace_flag. cbn [truthy].
  destruct (Str.is_empty ns); cbn [negb].
  - rewrite app_nil_r. induction cmd as [|c cmd IH]; [reflexivity|].
    cbn [map all_str]. rewrite IH. reflexivity.
  - induction cmd as [|c cmd IH]; [reflexivity|].
    cbn [map all_str app] in *. rewrite IH. reflexivity.
Qed.

(** X11: [delete_resource] runs the one command
    kubectl delete type name, with -n namespace when a namespace is given.
    When the command ends with exit code 0 its result is returned; with any
    other exit code the call raises a [ResourceError] whose text ends with
    the error output of the tool, unchanged.  No file is touched. *)
Theorem X11_delete_resource_behaviour :
  forall (cfg : K8sConfig) (resource_type name ns : string) (w : world)
         (rc : Z) (out err : string),
    let args := (["kubectl"; "delete"; resource_type; name] ++ namespace_flag ns)%list in
    cli w (invocations w) args (timeout cfg) = Completed rc out err ->
    let r := delete_resource cfg (PStr resource_type) (PStr name) (PStr ns) w in
    fst r =
      (if (rc =? 0)%Z
       then ret {| success := true; stdout := out; stderr := err; returncode := rc |}
       else raise (ResourceError ("Failed to delete " ++ resource_type ++ " " ++
                                  name ++ ": " ++ err))) /\
    invocations (snd r) = (invocations w ++ [args])%list /\
    files (snd r) = files w.
Proof.
  intros cfg resource_type name ns w rc out err args Hcli r. subst r.
  pose proof (checked_command ExecutionResult cfg "Error deleting resource"
                (fun e => "Failed to delete " ++ py_str (PStr resource_type) ++ " " ++
                          py_str (PStr name) ++ ": " ++ e)
                _ (fun result => result) w args rc out err
                (with_namespace_text ["kubectl"; "delete"; resource_type; name] ns)
                Hcli) as H.
  cbv zeta beta in H. cbn [map] in H.
  unfold delete_resource. rewrite H.
  destruct (rc =? 0)%Z; repeat split.
Qed.

(** X11 for a pod of the namespace staging that the cluster does not
    know. *)
Lemma X11_delete_resource_behaviour_witness :
  let w := initial_world (fun _ _ _ => Completed 1 "" "pods web not found") in
  cli w (invocations w) ["kubectl"; "delete"; "pod"; "web"; "-n"; "staging"]
      (timeout default_config) = Completed 1 "" "pods web not found" /\
  fst (delete_resource default_config (PStr "pod") (PStr "web") (PStr "staging") w) =
    raise (ResourceError "Failed to delete pod web: pods web not found") /\
  invocations (snd (delete_resource default_config (PStr "pod") (PStr "web")
                      (PStr "staging") w)) =
    [["kubectl"; "delete"; "pod"; "web"; "-n"; "staging"]].
Proof.
  cbv zeta. split; [reflexivity|].
  destruct (X11_delete_resource_behaviour default_config "pod" "web" "staging"
              (initial_world (fun _ _ _ => Completed 1 "" "pods web not found"))
              1 "" "pods web not found" eq_refl) as (H1 & H2 & _).
  split; [exact H1|exact H2].
Defined.

(** X12: [get_logs] runs the one command kubectl logs pod --tail=n, with
    -n namespace when a namespace is given, and returns the output of the
    tool unchanged; with an exit code other than 0 it raises a
    [ResourceError] that ends with the error output of the tool. *)
Theorem X12_get_logs_behaviour :
  forall (cfg : K8sConfig) (pod_name ns : string) (lines : Z) (w : world)
         (rc : Z) (out err : string),
    let args := (["kubectl"; "logs"; pod_name; ("--tail=" ++ Str.of_Z lines)%string] ++
                 namespace_flag ns)%list in
    cli w (invocations w) args (timeout cfg) = Completed rc out err ->
    let r := get_logs cfg (PStr pod_name) (PStr ns) (PInt lines) w in
    fst r =
      (if (rc =? 0)%Z then ret out
       else raise (ResourceError ("Failed to get logs for " ++ pod_name ++ ": " ++ err))) /\
    invocations (snd r) = (invocations w ++ [args])%list /\
    files (snd r) = files w.
Proof.
  intros cfg pod_name ns lines w rc out err args Hcli r. subst r.
  pose proof (checked_command string cfg "Error getting logs"
                (fun e => "Failed to get logs for " ++ py_str (PStr pod_name) ++ ": " ++ e)
                _ stdout w args rc out err
                (with_namespace_text
                   ["kubectl"; "logs"; pod_name; "--tail=" ++ py_str (PInt lines)] ns)
                Hcli) as H.
  cbv zeta beta in H. cbn [map] in H.
  unfold get_logs. rewrite H.
  destruct (rc =? 0)%Z; repeat split.
Qed.

(** X12 for the last 50 lines of a pod. *)
Lemma X12_get_logs_behaviour_witness :
  let w := initial_world (fun _ _ _ => Completed 0 "ready" "") in
  cli w (invocations w) ["kubectl"; "logs"; "web"; "--tail=50"]
      (timeout default_config) = Completed 0 "ready" "" /\
  fst (get_logs default_config (PStr "web") (PStr "") (PInt 50) w) = ret "ready" /\
  invocations (snd (get_logs default_config (PStr "web") (PStr "") (PInt 50) w)) =
    [["kubectl"; "logs"; "web"; "--tail=50"]].
Proof.
  cbv zeta. split; [reflexivity|].
  destruct (X12_get_logs_behaviour default_config "web" "" 50
              (initial_world (fun _ _ _ => Completed 0 "ready" ""))
              0 "ready" "" eq_refl) as (H1 & H2 & _).
  split; [exact H1|exact H2].
Defined.

(** X13: [describe_resource] runs the one command
    kubectl describe type name, with -n namespace when a namespace is
    given, and returns the output of the tool unchanged; with an exit code
    other than 0 it raises a [ResourceError] that ends with the error
    output of the tool. *)
Theorem X13_describe_resource_behaviour :
  forall (cfg : K8sConfig) (resource_type name ns : string) (w : world)
         (rc : Z) (out err : string),
    let args := (["kubectl"; "describe"; resource_type; name] ++
                 namespace_flag ns)%list in
    cli w (invocations w) args (timeout cfg) = Completed rc out err ->
    let r := describe_resource cfg (PStr resource_type) (PStr name) (PStr ns) w in
    fst r =
      (if (rc =? 0)%Z then ret out
       else raise (ResourceError ("Failed to describe " ++ resource_type ++ " " ++
                                  name ++ ": " ++ err))) /\
    invocations (snd r) = (invocations w ++ [args])%list /\
    files (snd r) = files w.
Proof.
  intros cfg resource_type name ns w rc out err args Hcli r. subst r.
  pose proof (checked_command string cfg "Error describing resource"
                (fun e => "Failed to describe " ++ py_str (PStr resource_type) ++ " " ++
                          py_str (PStr name) ++ ": " ++ e)
                _ stdout w args rc out err
                (with_namespace_text ["kubectl"; "describe"; resource_type; name] ns)
                Hcli) as H.
  cbv zeta beta in H. cbn [map] in H.
  unfold describe_resource. rewrite H.
  destruct (rc =? 0)%Z; repeat split.
Qed.

(** X13 for a deployment that the cluster describes. *)
Lemma X13_describe_resource_behaviour_witness :
  let w := initial_world (fun _ _ _ => Completed 0 "Name: api" "") in
  cli w (invocations w) ["kubectl"; "describe"; "deployment"; "api"]
      (timeout default_config) = Completed 0 "Name: api" "" /\
  fst (describe_resource default_config (PStr "deployment") (PStr "api") (PStr "") w) =
    ret "Name: api".
Proof.
  cbv zeta. split; [reflexivity|].
  exact (proj1 (X13_describe_resource_behaviour default_config "deployment" "api" ""
                  (initial_world (fun _ _ _ => Completed 0 "Name: api" ""))
                  0 "Name: api" "" eq_refl)).
Defined.



(** X14: the operations of the executor that run one command and check
    its exit code raise nothing but [ResourceError] ([scale_deployment],
    which checks the replica count first, also a [ValidationError]). *)
Theorem X14_executor_error_classes :
  forall (cfg : K8sConfig) (w : world) (e : exn),
    (forall rt n ns, fst (delete_resource cfg rt n ns w) = raise e ->
                     is_ResourceError e = true) /\
    (forall rt n ns, fst (describe_resource cfg rt n ns w) = raise e ->
                     is_ResourceError e = true) /\
    (forall p ns l, fst (get_logs cfg p ns l w) = raise e ->
                    is_ResourceError e = true) /\
    (forall n r ns, fst (scale_deployment cfg n r ns w) = raise e ->
                    is_ResourceError e = true \/ is_ValidationError e = true).
Proof.
  intros cfg w e. split; [|split; [|split]].
  - intros rt n ns. unfold delete_resource.
    apply (checked_command_errors ExecutionResult cfg "Error deleting resource"
             (fun x => "Failed to delete " ++ py_str rt ++ " " ++ py_str n ++ ": " ++ x)
             _ (fun r => r)).
  - intros rt n ns. unfold describe_resource.
    apply (checked_command_errors string cfg "Error describing resource"
             (fun x => "Failed to describe " ++ py_str rt ++ " " ++ py_str n ++ ": " ++ x)
             _ stdout).
  - intros p ns l. unfold get_logs.
    apply (checked_command_errors string cfg "Error getting logs"
             (fun x => "Failed to get logs for " ++ py_str p ++ ": " ++ x)
             _ stdout).
  - intros n r ns. unfold scale_deployment, logged, try_except, mbind at 1, lift.
    destruct (validate_replicas cfg r) as [e1|r1] eqn:Hr.
    + cbn. intros H. injection H as <-. right.
      exact (proj2 (proj2 (validate_replicas_cases cfg r)) e1 Hr).
    + intros H. left. revert H.
      apply (checked_command_errors ExecutionResult cfg "Error scaling deployment"
               (fun x => "Failed to scale deployment " ++ n ++ ": " ++ x)
               _ (fun r => r)).
Qed.

Lemma scale_deployment_unfold :
  forall (cfg : K8sConfig) (name : string) (replicas namespace : pyval) (w : world),
    scale_deployment cfg name replicas namespace w =
    match validate_replicas cfg replicas with
    | inl e =>
        (raise e,
         {| cli := cli w; invocations := invocations w; files := files w;
            tmp_counter := tmp_counter w; console := console w;
            log := log w ++ [("Error scaling deployment: " ++ exn_str e)%string] |})
    | inr r1 =>
        logged "Error scaling deployment"
          (do result <- _run_kubectl cfg
                          (with_namespace
                             [PStr "kubectl"; PStr "scale"; PStr "deployment"; PStr name;
                              PStr ("--replicas=" ++ py_str r1)] namespace) None;
           if negb (success result) then
             mraise (ResourceError ("Failed to scale deployment " ++ name ++ ": " ++
                                    stderr result))
           else mret result) w
    end.
Proof.
  intros cfg name replicas namespace w. unfold scale_deployment.
  destruct (validate_replicas cfg replicas) eqn:Hr;
    unfold logged, try_except, mbind at 1, lift; reflexivity.
Qed.

(** X15: [scale_deployment] checks the replica count before it touches the
    cluster.  A count outside 0..maximum raises a [ValidationError] and no
    command is run; a count inside runs the one command
    kubectl scale deployment name --replicas=n, with -n namespace when a
    namespace is given, and an exit code other than 0 raises a
    [ResourceError] that ends with the error output of the tool. *)
Theorem X15_scale_deployment_behaviour :
  forall (cfg : K8sConfig) (name ns : string) (n : Z) (w : world)
         (rc : Z) (out err : string),
    let args := (["kubectl"; "scale"; "deployment"; name;
                  ("--replicas=" ++ Str.of_Z n)%string] ++ namespace_flag ns)%list in
    cli w (invocations w) args (timeout cfg) = Completed rc out err ->
    let r := scale_deployment cfg name (PInt n) (PStr ns) w in
    ((0 <= n <= max_replicas cfg)%Z ->
       fst r =
         (if (rc =? 0)%Z
          then ret {| success := true; stdout := out; stderr := err; returncode := rc |}
          else raise (ResourceError ("Failed to scale deployment " ++ name ++ ": " ++
                                     err))) /\
       invocations (snd r) = (invocations w ++ [args])%list) /\
    (~ (0 <= n <= max_replicas cfg)%Z ->
       fails_with (fst r) is_ValidationError /\
       invocations (snd r) = invocations w) /\
    files (snd r) = files w.
Proof.
  intros cfg name ns n w rc out err args Hcli r. subst r.
  rewrite scale_deployment_unfold.
  destruct (validate_replicas_cases cfg (PInt n)) as (Hs & Hv & He).
  pose proof (checked_command ExecutionResult cfg "Error scaling deployment"
                (fun e => "Failed to scale deployment " ++ name ++ ": " ++ e)
                _ (fun result => result) w args rc out err
                (with_namespace_text
                   ["kubectl"; "scale"; "deployment"; name;
                    "--replicas=" ++ py_str (PInt n)] ns)
                Hcli) as H.
  cbv zeta beta in H. cbn [map] in H.
  destruct (validate_replicas cfg (PInt n)) as [e|r1] eqn:Hr.
  - cbn [fst snd invocations files]. split; [|split; [|reflexivity]].
    + intros Hb. exfalso.
      assert (Hx : succeeds (inl e : result pyval))
        by (apply Hs; exists n; split; [reflexivity|exact Hb]).
      destruct Hx as (a & Ha). discriminate.
    + intros _. split; [|reflexivity].
      exists e. split; [reflexivity|]. apply He. reflexivity.
  - rewrite (Hv r1 eq_refl). rewrite H.
    split; [|split].
    + intros _. destruct (rc =? 0)%Z; split; reflexivity.
    + intros Hb. exfalso. apply Hb.
      destruct (proj1 Hs (ex_intro _ r1 eq_refl)) as (m & Hm & Hbm).
      injection Hm as <-. exact Hbm.
    + destruct (rc =? 0)%Z; reflexivity.
Qed.

(** X15 for 50 replicas, more than the default configuration allows. *)
Lemma X15_scale_deployment_behaviour_witness :
  let w := initial_world (fun _ _ _ => Completed 0 "scaled" "") in
  cli w (invocations w) ["kubectl"; "scale"; "deployment"; "api"; "--replicas=50"]
      (timeout default_config) = Completed 0 "scaled" "" /\
  fails_with (fst (scale_deployment default_config "api" (PInt 50) (PStr "") w))
    is_ValidationError /\
  invocations (snd (scale_deployment default_config "api" (PInt 50) (PStr "") w)) = [].
Proof.
  cbv zeta. split; [reflexivity|].
  destruct (X15_scale_deployment_behaviour default_config "api" "" 50
              (initial_world (fun _ _ _ => Completed 0 "scaled" ""))
              0 "scaled" "" eq_refl) as (_ & H & _).
  apply H. vm_compute. intros (_ & Hc). apply Hc. reflexivity.
Defined.



(** ** Listing *)

Lemma resource_summary_cases :
  forall item : pyval,
    (summarisable item = true -> resource_summary item = ret (summary_of item)) /\
    (summarisable item = false ->
       exists e, resource_summary item = raise e /\ is_K8sError e = false) /\
    (forall r, resource_summary item = ret r -> is_summary r).
Proof.
  intros item.
  assert (Hbad : forall i : pyval,
            (forall fields, i <> PDict fields) ->
            (summarisable i = true -> resource_summary i = ret (summary_of i)) /\
            (summarisable i = false ->
               exists e, resource_summary i = raise e /\ is_K8sError e = false) /\
            (forall r, resource_summary i = ret r -> is_summary r)).
  { intros i Hi. destruct i; try (exfalso; eapply Hi; reflexivity);
      (split; [discriminate|split;
               [intros _; eexists; split; reflexivity|discriminate]]). }
  destruct item as [| b | z | x | s | l | fields];
    try (apply Hbad; intros ? ?; discriminate).
  clear Hbad.
  unfold resource_summary, summarisable, summary_of, sub_dict, is_summary.
  cbn [py_get rbind ret]. unfold dict_get.
  destruct (dict_lookup "metadata" fields) as [[| b | z | x | s | l | m]|];
    destruct (dict_lookup "status" fields) as [[| b' | z' | x' | s' | l' | m']|];
    cbn;
    first
      [ split;
        [ reflexivity
        | split; [discriminate
                 | intros r H; injection H as <-; eexists _, _, _, _; reflexivity] ]
      | split;
        [ discriminate
        | split; [intros _; eexists; split; reflexivity | discriminate] ] ].
Qed.

Lemma summaries_cases :
  forall items : list pyval,
    (forallb summarisable items = true ->
       summaries items = ret (map summary_of items)) /\
    (forallb summarisable items = false ->
       exists e, summaries items = raise e /\ is_K8sError e = false) /\
    (forall rs, summaries items = ret rs ->
       Forall is_summary rs /\ List.length rs = List.length items).
Proof.
  induction items as [|item items (IHok & IHbad & IHshape)].
  - split; [reflexivity|]. split; [discriminate|].
    intros rs H. injection H as <-. split; [constructor|reflexivity].
  - destruct (resource_summary_cases item) as (Hok & Hbad & Hshape).
    cbn [summaries forallb map]. unfold rbind.
    split; [|split].
    + intros H. apply andb_true_iff in H. destruct H as (Hi & Hr).
      rewrite (Hok Hi), (IHok Hr). reflexivity.
    + intros H. destruct (summarisable item) eqn:Hi.
      * rewrite (Hok eq_refl). destruct (IHbad H) as (e & -> & He).
        exists e. split; [reflexivity|exact He].
      * destruct (Hbad eq_refl) as (e & -> & He).
        exists e. split; [reflexivity|exact He].
    + intros rs.
      destruct (resource_summary item) as [e|r] eqn:Hr; [discriminate|].
      destruct (summaries items) as [e|rs'] eqn:Hrs; [discriminate|].
      intros H. injection H as <-.
      destruct (IHshape rs' eq_refl) as (Hall & Hlen).
      split; [constructor; [apply Hshape; reflexivity|exact Hall]|].
      simpl. rewrite Hlen. reflexivity.
Qed.

(** What [list_resources] does once its command has ended with exit
    code 0. *)
Lemma list_resources_on_output :
  forall (cfg : K8sConfig) (resource_type namespace : pyval) (w : world)
         (args : list string) (out err : string),
    all_str (list_command resource_type namespace) = Some args ->
    cli w (invocations w) args (timeout cfg) = Completed 0 out err ->
    fst (list_resources cfg resource_type namespace w) =
      (let? data := Json.loads out in
       let? items_field := py_get data "items" (PList []) in
       let? items := py_iter items_field in
       summaries items) /\
    invocations (snd (list_resources cfg resource_type namespace w)) =
      (invocations w ++ [args])%list /\
    files (snd (list_resources cfg resource_type namespace w)) = files w.
Proof.
  intros cfg resource_type namespace w args out err Hargs Hcli.
  assert (H : list_resources cfg resource_type namespace w =
              let w1 := {| cli := cli w; invocations := invocations w ++ [args];
                           files := files w; tmp_counter := tmp_counter w;
                           console := console w; log := log w |} in
              match (let? data := Json.loads out in
                     let? items_field := py_get data "items" (PList []) in
                     let? items := py_iter items_field in
                     summaries items) with
              | inl e =>
                  (raise e,
                   {| cli := cli w; invocations := invocations w ++ [args];
                      files := files w; tmp_counter := tmp_counter w;
                      console := console w;
                      log := log w ++
                             [("Error listing resources: " ++ exn_str e)%string] |})
              | inr rs => (ret rs, w1)
              end).
  { unfold list_resources, logged, try_except, mbind.
    fold (list_command resource_type namespace).
    rewrite run_kubectl_unfold, Hargs. cbv zeta. rewrite Hcli.
    unfold lift, rbind. cbn -[Json.loads summaries py_iter py_get].
    destruct (Json.loads out) as [e|data]; [reflexivity|].
    destruct (py_get data "items" (PList [])) as [e|f]; [reflexivity|].
    destruct (py_iter f) as [e|items]; [reflexivity|].
    destruct (summaries items) as [e|rs]; reflexivity. }
  rewrite H. cbv zeta. unfold rbind.
  destruct (Json.loads out) as [e|data]; [repeat split|].
  destruct (py_get data "items" (PList [])) as [e|f]; [repeat split|].
  destruct (py_iter f) as [e|items]; [repeat split|].
  destruct (summaries items) as [e|rs]; repeat split.
Qed.

(** X17: every list that [list_resources] returns is made of summaries: a
    dict of exactly the keys name, namespace, age and status, in this
    order, for each item of the listing. *)
Theorem X17_list_resources_returns_summaries :
  forall (cfg : K8sConfig) (resource_type namespace : pyval) (w : world)
         (rs : list pyval),
    fst (list_resources cfg resource_type namespace w) = ret rs ->
    Forall is_summary rs.
Proof.
  intros cfg resource_type namespace w rs.
  unfold list_resources, logged, try_except, mbind at 1 2.
  rewrite run_kubectl_unfold.
  destruct (all_str _) as [args|]; [|discriminate]. cbv zeta.
  destruct (cli w (invocations w) args (timeout cfg)) as [rc out err| | |msg];
    try discriminate.
  destruct (rc =? 0)%Z; unfold mbind, lift;
    cbn -[Json.loads summaries py_iter py_get]; [|discriminate].
  destruct (Json.loads out) as [e|data]; [cbn; discriminate|].
  destruct (py_get data "items" (PList [])) as [e|f]; [cbn; discriminate|].
  destruct (py_iter f) as [e|items]; [cbn; discriminate|].
  destruct (summaries items) as [e|rs'] eqn:Hs; [cbn; discriminate|].
  cbn [fst]. intros H. injection H as <-.
  exact (proj1 (proj2 (proj2 (summaries_cases items)) rs' Hs)).
Qed.

(** X17 for a listing of one pod. *)
Lemma X17_list_resources_returns_summaries_witness :
  exists out,
    let w := initial_world (fun _ _ _ => Completed 0 out "") in
    fst (list_resources default_config (PStr "pods") PNone w) =
      ret [PDict [("name", PStr "web"); ("namespace", PStr ""); ("age", PStr "");
                  ("status", PStr "Running")]] /\
    Forall is_summary
      [PDict [("name", PStr "web"); ("namespace", PStr ""); ("age", PStr "");
              ("status", PStr "Running")]].
Proof.
  exists (Json.dumps (PDict [("items",
            PList [PDict [("metadata", PDict [("name", PStr "web")]);
                          ("status", PDict [("phase", PStr "Running")])]])])).
  cbv zeta. split; [reflexivity|].
  apply (X17_list_resources_returns_summaries default_config (PStr "pods") PNone
           (initial_world (fun _ _ _ =>
              Completed 0
                (Json.dumps (PDict [("items",
                   PList [PDict [("metadata", PDict [("name", PStr "web")]);
                                 ("status", PDict [("phase", PStr "Running")])]])]))
                ""))).
  reflexivity.
Defined.

(** X18: when the tool answers with a JSON object, [list_resources]
    returns one summary for each element of its [items], in order, with an
    empty text for every field that an element does not have (and the empty
    list when there is no [items]); but one element that is not a dict, or
    whose [metadata] or [status] is not a dict, makes the whole call fail
    with an error that is none of the module's classes. *)
Theorem X18_list_resources_summarises_items :
  forall (cfg : K8sConfig) (resource_type namespace : pyval) (w : world)
         (args : list string) (out err : string)
         (d : list (string * pyval)) (items : list pyval),
    all_str (list_command resource_type namespace) = Some args ->
    cli w (invocations w) args (timeout cfg) = Completed 0 out err ->
    Json.loads out = ret (PDict d) ->
    dict_get d "items" (PList []) = PList items ->
    (forallb summarisable items = true ->
       fst (list_resources cfg resource_type namespace w) =
         ret (map summary_of items)) /\
    (forallb summarisable items = false ->
       exists e, fst (list_resources cfg resource_type namespace w) = raise e /\
                 is_K8sError e = false).
Proof.
  intros cfg resource_type namespace w args out err d items Hargs Hcli Hloads Hitems.
  destruct (list_resources_on_output cfg resource_type namespace w args out err
              Hargs Hcli) as (-> & _).
  rewrite Hloads. cbn [rbind py_get ret]. rewrite Hitems. cbn [py_iter ret].
  destruct (summaries_cases items) as (Hok & Hbad & _). split.
  - intros H. apply Hok. exact H.
  - intros H. apply Hbad. exact H.
Qed.

(** X18 for a listing with a pod that has no status and an empty object. *)
Lemma X18_list_resources_summarises_items_witness :
  let items := [PDict [("metadata", PDict [("name", PStr "web")])]; PDict []] in
  let out := Json.dumps (PDict [("items", PList items)]) in
  let w := initial_world (fun _ _ _ => Completed 0 out "") in
  Json.loads out = ret (PDict [("items", PList items)]) /\
  forallb summarisable items = true /\
  fst (list_resources default_config (PStr "pods") (PStr "staging") w) =
    ret [PDict [("name", PStr "web"); ("namespace", PStr ""); ("age", PStr "");
                ("status", PStr "")];
         PDict [("name", PStr ""); ("namespace", PStr ""); ("age", PStr "");
                ("status", PStr "")]].
Proof.
  cbv zeta. split; [reflexivity|]. split; [reflexivity|].
  apply (proj1 (X18_list_resources_summarises_items default_config
                  (PStr "pods") (PStr "staging")
                  (initial_world (fun _ _ _ => Completed 0
                     (Json.dumps (PDict [("items",
                        PList [PDict [("metadata", PDict [("name", PStr "web")])];
                               PDict []])])) ""))
                  ["kubectl"; "get"; "pods"; "-o"; "json"; "-n"; "staging"]
                  (Json.dumps (PDict [("items",
                        PList [PDict [("metadata", PDict [("name", PStr "web")])];
                               PDict []])])) ""
                  [("items", PList [PDict [("metadata", PDict [("name", PStr "web")])];
                                    PDict []])]
                  [PDict [("metadata", PDict [("name", PStr "web")])]; PDict []]
                  eq_refl eq_refl eq_refl eq_refl)).
  reflexivity.
Defined.

(** ** What the tools and the agent may start *)

Lemma calls_weaken :
  forall (A : Type) (P Q : list string -> Prop) (n n' : nat) (m : M A),
    calls P n m -> (n <= n')%nat -> (forall args, P args -> Q args) ->
    calls Q n' m.
Proof.
  intros A P Q n n' m H Hn HPQ w. destruct (H w) as (l & Hl & Hlen & Hall).
  exists l. split; [exact Hl|]. split; [lia|].
  eapply Forall_impl; [exact HPQ|exact Hall].
Qed.

Lemma calls_same_world :
  forall (A : Type) (P : list string -> Prop) (m : M A),
    (forall w, invocations (snd (m w)) = invocations w) -> calls P 0 m.
Proof.
  intros A P m H w. exists []. rewrite H, app_nil_r. repeat split; auto.
Qed.

Lemma calls_lift :
  forall (A : Type) (P : list string -> Prop) (r : result A), calls P 0 (lift r).
Proof. intros. apply calls_same_world. reflexivity. Qed.

Lemma calls_mret :
  forall (A : Type) (P : list string -> Prop) (a : A), calls P 0 (mret a).
Proof. intros. apply calls_same_world. reflexivity. Qed.

Lemma calls_mraise :
  forall (A : Type) (P : list string -> Prop) (e : exn), calls P 0 (@mraise A e).
Proof. intros. apply calls_same_world. reflexivity. Qed.

Lemma calls_emit :
  forall (P : list string -> Prop) (e : ui_event), calls P 0 (emit e).
Proof. intros. apply calls_same_world. reflexivity. Qed.

Lemma calls_logger_error :
  forall (P : list string -> Prop) (msg : string), calls P 0 (logger_error msg).
Proof. intros. apply calls_same_world. reflexivity. Qed.

Lemma calls_write_temp_file :
  forall (P : list string -> Prop) (suffix : string) (content : yaml_text),
    calls P 0 (write_temp_file suffix content).
Proof. intros. apply calls_same_world. reflexivity. Qed.

Lemma calls_unlink_quietly :
  forall (P : list string -> Prop) (path : string), calls P 0 (unlink_quietly path).
Proof. intros. apply calls_same_world. reflexivity. Qed.

Lemma calls_bind :
  forall (A B : Type) (P : list string -> Prop) (n k : nat)
         (m : M A) (f : A -> M B),
    calls P n m -> (forall a, calls P k (f a)) -> calls P (n + k) (mbind m f).
Proof.
  intros A B P n k m f Hm Hf w. unfold mbind.
  destruct (Hm w) as (l & Hl & Hlen & Hall).
  destruct (m w) as [[e|a] w1]; cbn [snd] in *.
  - exists l. split; [exact Hl|]. split; [lia|exact Hall].
  - destruct (Hf a w1) as (l' & Hl' & Hlen' & Hall').
    exists (l ++ l')%list. rewrite Hl', Hl, app_assoc.
    split; [reflexivity|]. split; [rewrite length_app; lia|].
    apply Forall_app. split; assumption.
Qed.

Lemma calls_try_except :
  forall (A : Type) (P : list string -> Prop) (n k : nat)
         (m : M A) (h : exn -> M A),
    calls P n m -> (forall e, calls P k (h e)) -> calls P (n + k) (try_except m h).
Proof.
  intros A P n k m h Hm Hh w. unfold try_except.
  destruct (Hm w) as (l & Hl & Hlen & Hall).
  destruct (m w) as [[e|a] w1]; cbn [snd] in *.
  - destruct (Hh e w1) as (l' & Hl' & Hlen' & Hall').
    exists (l ++ l')%list. rewrite Hl', Hl, app_assoc.
    split; [reflexivity|]. split; [rewrite length_app; lia|].
    apply Forall_app. split; assumption.
  - exists l. split; [exact Hl|]. split; [lia|exact Hall].
Qed.

Lemma calls_bind_quiet_l :
  forall (A B : Type) (P : list string -> Prop) (n : nat) (m : M A) (f : A -> M B),
    calls P 0 m -> (forall a, calls P n (f a)) -> calls P n (mbind m f).
Proof. intros. change n with (0 + n). apply calls_bind; assumption. Qed.

Lemma calls_bind_quiet_r :
  forall (A B : Type) (P : list string -> Prop) (n : nat) (m : M A) (f : A -> M B),
    calls P n m -> (forall a, calls P 0 (f a)) -> calls P n (mbind m f).
Proof.
  intros. rewrite <- (Nat.add_0_r n). apply calls_bind; assumption.
Qed.

Lemma calls_try_quiet :
  forall (A : Type) (P : list string -> Prop) (n : nat) (m : M A) (h : exn -> M A),
    calls P n m -> (forall e, calls P 0 (h e)) -> calls P n (try_except m h).
Proof.
  intros. rewrite <- (Nat.add_0_r n). apply calls_try_except; assumption.
Qed.

Lemma calls_run_kubectl :
  forall (P : list string -> Prop) (cfg : K8sConfig) (cmd : list pyval)
         (t : option Z),
    (forall args, all_str cmd = Some args -> P args) ->
    calls P 1 (_run_kubectl cfg cmd t).
Proof.
  intros P cfg cmd t HP w. rewrite run_kubectl_unfold.
  destruct (all_str cmd) as [args|].
  - exists [args]. cbv zeta.
    destruct (cli w (invocations w) args _);
      (split; [reflexivity|]; split; [cbn; lia|]; constructor; [apply HP; reflexivity|constructor]).
  - exists []. cbn [snd]. rewrite app_nil_r. repeat split; auto.
Qed.

Lemma calls_quiet_le :
  forall (A : Type) (P : list string -> Prop) (n : nat) (m : M A),
    calls P 0 m -> calls P n m.
Proof. intros A P n m H. apply (calls_weaken A P P 0 n m H); [lia|auto]. Qed.

Ltac quiet :=
  repeat first
    [ apply calls_lift | apply calls_mret | apply calls_mraise | apply calls_emit
    | apply calls_logger_error | apply calls_write_temp_file
    | apply calls_unlink_quietly
    | apply calls_bind_quiet_l; [|intros ?]
    | match goal with
      | |- calls _ _ (if ?b then _ else _) => destruct b
      | |- calls _ _ (match ?x with _ => _ end) => destruct x
      end
    | progress unfold print_success, print_error, print_warning, print_info,
        show_yaml, show_table, K8sAgent.show_help ].

Ltac skip_quiet :=
  repeat (apply calls_bind_quiet_l; [solve [quiet] | intros ?]); cbv zeta.

(** The verb of a command line outlives [with_namespace]. *)
Lemma with_namespace_verb :
  forall (verb : string) (rest : list pyval) (ns : pyval) (args : list string),
    all_str (with_namespace (PStr "kubectl" :: PStr verb :: rest) ns) = Some args ->
    kubectl_verb [verb] args.
Proof.
  intros verb rest ns args. unfold with_namespace.
  destruct (truthy ns); cbn [app all_str];
    match goal with |- context [all_str ?l] => destruct (all_str l) end;
    try discriminate; intros H; injection H as <-; cbn; auto.
Qed.

Lemma kubectl_verb_incl :
  forall (vs vs' : list string) (args : list string),
    (forall v, In v vs -> In v vs') -> kubectl_verb vs args -> kubectl_verb vs' args.
Proof.
  intros vs vs' [|tool [|verb rest]] Hin; cbn; auto.
  intros (Ht & Hv). split; [exact Ht|apply Hin; exact Hv].
Qed.

Lemma calls_apply_yaml :
  forall (cfg : K8sConfig) (yaml : yaml_text) (dry_run : bool),
    calls (kubectl_verb ["apply"]) 1 (apply_yaml cfg yaml dry_run).
Proof.
  intros cfg yaml dry_run. unfold apply_yaml, logged.
  apply calls_try_quiet; [|intros e; quiet].
  skip_quiet. apply calls_bind_quiet_r; [|intros ?; quiet].
  apply calls_run_kubectl. intros args H.
  destruct dry_run; cbn in H; injection H as <-; cbn; auto.
Qed.

Lemma calls_list_resources :
  forall (cfg : K8sConfig) (resource_type namespace : pyval),
    calls (kubectl_verb ["get"]) 1 (list_resources cfg resource_type namespace).
Proof.
  intros cfg resource_type namespace. unfold list_resources, logged.
  apply calls_try_quiet; [|intros e; quiet].
  skip_quiet. apply calls_bind_quiet_r; [|intros ?; quiet].
  apply calls_run_kubectl. intros args H. exact (with_namespace_verb _ _ _ _ H).
Qed.

Lemma calls_get_logs :
  forall (cfg : K8sConfig) (pod_name namespace lines : pyval),
    calls (kubectl_verb ["logs"]) 1 (get_logs cfg pod_name namespace lines).
Proof.
  intros cfg pod_name namespace lines. unfold get_logs, logged.
  apply calls_try_quiet; [|intros e; quiet].
  skip_quiet. apply calls_bind_quiet_r; [|intros ?; quiet].
  apply calls_run_kubectl. intros args H. exact (with_namespace_verb _ _ _ _ H).
Qed.

Lemma calls_scale_deployment :
  forall (cfg : K8sConfig) (name : string) (replicas namespace : pyval),
    calls (kubectl_verb ["scale"]) 1 (scale_deployment cfg name replicas namespace).
Proof.
  intros cfg name replicas namespace. unfold scale_deployment, logged.
  apply calls_try_quiet; [|intros e; quiet].
  skip_quiet. apply calls_bind_quiet_r; [|intros ?; quiet].
  apply calls_run_kubectl. intros args H. exact (with_namespace_verb _ _ _ _ H).
Qed.

Lemma calls_delete_resource :
  forall (cfg : K8sConfig) (resource_type name namespace : pyval),
    calls (kubectl_verb ["delete"]) 1 (delete_resource cfg resource_type name namespace).
Proof.
  intros cfg resource_type name namespace. unfold delete_resource, logged.
  apply calls_try_quiet; [|intros e; quiet].
  skip_quiet. apply calls_bind_quiet_r; [|intros ?; quiet].
  apply calls_run_kubectl. intros args H. exact (with_namespace_verb _ _ _ _ H).
Qed.

Lemma calls_describe_resource :
  forall (cfg : K8sConfig) (resource_type name namespace : pyval),
    calls (kubectl_verb ["describe"]) 1
      (describe_resource cfg resource_type name namespace).
Proof.
  intros cfg resource_type name namespace. unfold describe_resource, logged.
  apply calls_try_quiet; [|intros e; quiet].
  skip_quiet. apply calls_bind_quiet_r; [|intros ?; quiet].
  apply calls_run_kubectl. intros args H. exact (with_namespace_verb _ _ _ _ H).
Qed.

(** X19: every operation of the executor starts at most one process, and
    its command line begins with the cluster tool and the verb of the
    operation: apply, delete, get, logs, describe or scale. *)
Theorem X19_operations_start_one_command :
  forall (cfg : K8sConfig) (yaml : yaml_text) (dry_run : bool)
         (resource_type name namespace lines replicas : pyval) (dname : string),
    calls (kubectl_verb ["apply"]) 1 (apply_yaml cfg yaml dry_run) /\
    calls (kubectl_verb ["delete"]) 1
      (delete_resource cfg resource_type name namespace) /\
    calls (kubectl_verb ["get"]) 1 (list_resources cfg resource_type namespace) /\
    calls (kubectl_verb ["logs"]) 1 (get_logs cfg name namespace lines) /\
    calls (kubectl_verb ["describe"]) 1
      (describe_resource cfg resource_type name namespace) /\
    calls (kubectl_verb ["scale"]) 1
      (scale_deployment cfg dname replicas namespace).
Proof.
  intros. repeat split.
  - apply calls_apply_yaml.
  - apply calls_delete_resource.
  - apply calls_list_resources.
  - apply calls_get_logs.
  - apply calls_describe_resource.
  - apply calls_scale_deployment.
Qed.

Lemma calls_deployment_tool :
  forall (cfg : K8sConfig) (tool_input : string),
    calls (kubectl_verb ["apply"]) 1 (CreateDeploymentTool._run cfg tool_input).
Proof.
  intros cfg tool_input. unfold CreateDeploymentTool._run.
  apply calls_try_quiet; [|intros e; quiet].
  skip_quiet. apply calls_bind_quiet_r; [apply calls_apply_yaml|intros ?; quiet].
Qed.

Lemma calls_service_tool :
  forall (cfg : K8sConfig) (tool_input : string),
    calls (kubectl_verb ["apply"]) 1 (CreateServiceTool._run cfg tool_input).
Proof.
  intros cfg tool_input. unfold CreateServiceTool._run.
  apply calls_try_quiet; [|intros e; quiet].
  skip_quiet. apply calls_bind_quiet_r; [apply calls_apply_yaml|intros ?; quiet].
Qed.

Lemma calls_list_tool :
  forall (cfg : K8sConfig) (tool_input : string),
    calls (kubectl_verb ["get"]) 1 (ListResourcesTool._run cfg tool_input).
Proof.
  intros cfg tool_input. unfold ListResourcesTool._run.
  apply calls_try_quiet; [|intros e; quiet].
  skip_quiet. apply calls_bind_quiet_r; [apply calls_list_resources|intros ?; quiet].
Qed.

Lemma calls_scale_tool :
  forall (cfg : K8sConfig) (tool_input : string),
    calls (kubectl_verb ["scale"]) 1 (ScaleDeploymentTool._run cfg tool_input).
Proof.
  intros cfg tool_input. unfold ScaleDeploymentTool._run.
  apply calls_try_quiet; [|intros e; quiet].
  skip_quiet. apply calls_bind_quiet_r; [apply calls_scale_deployment|intros ?; quiet].
Qed.

Lemma calls_logs_tool :
  forall (cfg : K8sConfig) (tool_input : string),
    calls (kubectl_verb ["logs"]) 1 (GetLogsTool._run cfg tool_input).
Proof.
  intros cfg tool_input. unfold GetLogsTool._run.
  apply calls_try_quiet; [|intros e; quiet].
  skip_quiet. apply calls_bind_quiet_r; [apply calls_get_logs|intros ?; quiet].
Qed.

Lemma calls_show_status :
  forall cfg : K8sConfig,
    calls (kubectl_verb ["version"]) 1 (K8sAgent.show_status cfg).
Proof.
  intros cfg. unfold K8sAgent.show_status.
  apply calls_try_quiet; [|intros e; quiet].
  apply calls_bind_quiet_r; [|intros ?; quiet].
  apply calls_run_kubectl. intros args H. injection H as <-. cbn. auto.
Qed.

(** The verbs of the command lines that the agent can start. *)
Lemma agent_verb :
  forall (verb : string) (args : list string),
    In verb ["version"; "apply"; "get"; "scale"; "logs"] ->
    kubectl_verb [verb] args ->
    kubectl_verb ["version"; "apply"; "get"; "scale"; "logs"] args.
Proof.
  intros verb args Hin. apply kubectl_verb_incl.
  intros v [<-|[]]. exact Hin.
Qed.

(** X20: whatever the text, [run] starts at most one process, and its
    command line begins with the cluster tool and one of the verbs
    version, apply, get, scale and logs: the agent never deletes and never
    describes a resource. *)
Theorem X20_agent_starts_one_command :
  forall (cfg : K8sConfig) (user_input : string),
    calls (kubectl_verb ["version"; "apply"; "get"; "scale"; "logs"]) 1
      (K8sAgent.run cfg user_input).
Proof.
  intros cfg user_input. unfold K8sAgent.run.
  apply calls_try_quiet; [|intros e; quiet].
  destruct (Str.is_empty (Str.strip user_input)); [apply calls_quiet_le; quiet|].
  apply calls_bind_quiet_l; [quiet|intros _; cbv zeta].
  destruct (K8sAgent.any_in ["help"; "h"; "?"] _); [apply calls_quiet_le; quiet|].
  destruct (K8sAgent.any_in ["status"; "info"] _).
  { apply calls_bind_quiet_r; [|intros ?; quiet].
    eapply calls_weaken; [apply calls_show_status|lia|].
    intros args. apply agent_verb. cbn. auto. }
  unfold K8sAgent._process_deployment_command, K8sAgent._process_service_command,
    K8sAgent._process_list_command, K8sAgent._process_scale_command,
    K8sAgent._process_logs_command, K8sAgent.guarded.
  repeat match goal with
         | |- calls _ _ (if ?b then _ else _) => destruct b
         end;
    try (apply calls_quiet_le; solve [quiet]);
    (apply calls_try_quiet; [|intros e; quiet]);
    (eapply calls_weaken;
     [ first [ apply calls_deployment_tool | apply calls_service_tool
             | apply calls_list_tool | apply calls_scale_tool
             | apply calls_logs_tool ]
     | lia
     | intros args; apply agent_verb; cbn; auto 10 ]).
Qed.

(** X21: each of the five tools starts at most one process, whatever its
    input: the two creating tools an apply command, the listing tool a get
    command, the scaling tool a scale command and the log tool a logs
    command. *)
Theorem X21_tools_start_one_command :
  forall (cfg : K8sConfig) (tool_input : string),
    calls (kubectl_verb ["apply"]) 1 (CreateDeploymentTool._run cfg tool_input) /\
    calls (kubectl_verb ["apply"]) 1 (CreateServiceTool._run cfg tool_input) /\
    calls (kubectl_verb ["get"]) 1 (ListResourcesTool._run cfg tool_input) /\
    calls (kubectl_verb ["scale"]) 1 (ScaleDeploymentTool._run cfg tool_input) /\
    calls (kubectl_verb ["logs"]) 1 (GetLogsTool._run cfg tool_input).
Proof.
  intros cfg tool_input. repeat split.
  - apply calls_deployment_tool.
  - apply calls_service_tool.
  - apply calls_list_tool.
  - apply calls_scale_tool.
  - apply calls_logs_tool.
Qed.

(** ** The dispatcher *)

Lemma rstrip_empty_all_space :
  forall s : string, Str.rstrip s = "" -> Str.forallb Str.is_space s = true.
Proof.
  induction s as [|c s IH]; [reflexivity|].
  cbn [Str.rstrip Str.forallb].
  destruct (Str.rstrip s) eqn:Hr; [|discriminate].
  destruct (Str.is_space c); [|discriminate].
  intros _. apply IH. reflexivity.
Qed.

Lemma lstrip_all_space :
  forall s : string,
    Str.forallb Str.is_space (Str.lstrip s) = true ->
    Str.forallb Str.is_space s = true.
Proof.
  induction s as [|c s IH]; [reflexivity|].
  cbn [Str.lstrip]. destruct (Str.is_space c) eqn:Hc.
  - intros H. cbn [Str.forallb]. rewrite Hc. apply IH. exact H.
  - auto.
Qed.

(** A text that [strip] empties is made of white space. *)
Lemma blank_all_space :
  forall s : string,
    Str.is_empty (Str.strip s) = true -> Str.forallb Str.is_space s = true.
Proof.
  intros s H. apply lstrip_all_space, rstrip_empty_all_space.
  unfold Str.strip in H. destruct (Str.rstrip (Str.lstrip s)); [reflexivity|discriminate].
Qed.

Lemma lower_space : forall c : ascii, Str.is_space c = true -> Str.lower_char c = c.
Proof.
  intros c. destruct c as [[] [] [] [] [] [] [] []]; vm_compute;
    first [reflexivity|discriminate].
Qed.

(** White space holds no keyword: a text that begins with a character
    other than white space does not occur in it. *)
Lemma all_space_no_keyword :
  forall (c : ascii) (k s : string),
    Str.is_space c = false -> Str.forallb Str.is_space s = true ->
    Str.contains (String c k) (Str.lower s) = false.
Proof.
  intros c k s Hc. induction s as [|a s IH]; [reflexivity|].
  cbn [Str.forallb Str.lower]. intros H. apply andb_true_iff in H.
  destruct H as (Ha & Hs). rewrite (lower_space a Ha).
  cbn [Str.contains prefix]. rewrite (IH Hs).
  destruct (ascii_dec c a) as [->|_]; [congruence|reflexivity].
Qed.

Lemma blank_no_keywords :
  forall (keywords : list string) (s : string),
    Forall (fun k => match k with
                     | String c _ => Str.is_space c = false
                     | EmptyString => False
                     end) keywords ->
    Str.is_empty (Str.strip s) = true ->
    K8sAgent.any_in keywords (Str.lower s) = false.
Proof.
  intros keywords s Hk Hs. unfold K8sAgent.any_in.
  induction Hk as [|k ks Hk _ IH]; [reflexivity|].
  cbn [existsb]. rewrite IH, orb_false_r. destruct k as [|c k]; [contradiction|].
  apply all_space_no_keyword; [exact Hk|apply blank_all_space; exact Hs].
Qed.

Lemma keyword_not_blank :
  forall (keywords : list string) (s : string),
    Forall (fun k => match k with
                     | String c _ => Str.is_space c = false
                     | EmptyString => False
                     end) keywords ->
    K8sAgent.any_in keywords (Str.lower s) = true ->
    Str.is_empty (Str.strip s) = false.
Proof.
  intros keywords s Hk H. destruct (Str.is_empty (Str.strip s)) eqn:Hs; [|reflexivity].
  rewrite (blank_no_keywords keywords s Hk Hs) in H. discriminate.
Qed.

(** X24: the help check comes first: a text in which the letter h (in
    either case) or a question mark occurs is answered with the help
    screen, whatever else it asks for; no process starts and no file is
    written. *)
Theorem X24_help_takes_precedence :
  forall (cfg : K8sConfig) (user_input : string) (w : world),
    K8sAgent.any_in ["help"; "h"; "?"] (Str.lower user_input) = true ->
    fst (K8sAgent.run cfg user_input w) = ret "Help displayed" /\
    invocations (snd (K8sAgent.run cfg user_input w)) = invocations w /\
    files (snd (K8sAgent.run cfg user_input w)) = files w /\
    In (UiInfo K8sAgent.help_text) (console (snd (K8sAgent.run cfg user_input w))).
Proof.
  intros cfg user_input w H.
  assert (Hnb : Str.is_empty (Str.strip user_input) = false).
  { apply (keyword_not_blank ["help"; "h"; "?"]); [|exact H].
    repeat constructor. }
  unfold K8sAgent.run, try_except. rewrite Hnb. unfold mbind at 1. cbv zeta.
  rewrite H.
  destruct (K8sAgent.any_in K8sAgent.dangerous_keywords (Str.lower user_input));
    cbn; repeat split; apply in_or_app; right; left; reflexivity.
Qed.

(** X24 for a request to create a deployment that contains the letter h. *)
Lemma X24_help_takes_precedence_witness :
  let text := "create deployment named shop with nginx image" in
  let w := initial_world (fun _ _ _ => Completed 0 "" "") in
  K8sAgent.any_in ["help"; "h"; "?"] (Str.lower text) = true /\
  fst (K8sAgent.run default_config text w) = ret "Help displayed" /\
  invocations (snd (K8sAgent.run default_config text w)) = [].
Proof.
  cbv zeta. split; [reflexivity|].
  destruct (X24_help_takes_precedence default_config
              "create deployment named shop with nginx image"
              (initial_world (fun _ _ _ => Completed 0 "" "")) eq_refl)
    as (Hr & Hi & _).
  split; [exact Hr|exact Hi].
Defined.

(** X25: a text with status or info in it, and neither the letter h nor a
    question mark, is answered with [Status displayed] after exactly one
    process, the client version query, whatever that process does: also
    when the cluster tool is missing or does not answer in time. *)
Theorem X25_status_runs_version_query :
  forall (cfg : K8sConfig) (user_input : string) (w : world),
    K8sAgent.any_in ["help"; "h"; "?"] (Str.lower user_input) = false ->
    K8sAgent.any_in ["status"; "info"] (Str.lower user_input) = true ->
    fst (K8sAgent.run cfg user_input w) = ret "Status displayed" /\
    invocations (snd (K8sAgent.run cfg user_input w)) =
      (invocations w ++ [["kubectl"; "version"; "--client"]])%list /\
    files (snd (K8sAgent.run cfg user_input w)) = files w.
Proof.
  intros cfg user_input w Hhelp Hstatus.
  assert (Hnb : Str.is_empty (Str.strip user_input) = false).
  { apply (keyword_not_blank ["status"; "info"]); [|exact Hstatus].
    repeat constructor. }
  assert (Hrun : exists w',
            K8sAgent.run cfg user_input w = (ret "Status displayed", w') /\
            invocations w' =
              (invocations w ++ [["kubectl"; "version"; "--client"]])%list /\
            files w' = files w).
  { unfold K8sAgent.run, try_except. rewrite Hnb. unfold mbind at 1. cbv zeta.
    rewrite Hhelp, Hstatus.
    unfold mbind at 1, K8sAgent.show_status, try_except, mbind at 1.
    destruct (K8sAgent.any_in K8sAgent.dangerous_keywords (Str.lower user_input));
      cbn [print_warning emit mret]; rewrite run_kubectl_unfold;
      cbn [all_str cli invocations files tmp_counter console log]; cbv zeta;
      match goal with
      | |- context [cli w (invocations w) ?args ?t] =>
          destruct (cli w (invocations w) args t) as [rc out err| | |msg]
      end;
      try (destruct (rc =? 0)%Z); cbn; eexists; repeat split. }
  destruct Hrun as (w' & -> & Hi & Hf). repeat split; assumption.
Qed.

(** X25 for a machine without the cluster tool. *)
Lemma X25_status_runs_version_query_witness :
  let w := initial_world (fun _ _ _ => FileNotFoundError) in
  K8sAgent.any_in ["help"; "h"; "?"] (Str.lower "status") = false /\
  K8sAgent.any_in ["status"; "info"] (Str.lower "status") = true /\
  fst (K8sAgent.run default_config "status" w) = ret "Status displayed" /\
  invocations (snd (K8sAgent.run default_config "status" w)) =
    [["kubectl"; "version"; "--client"]].
Proof.
  cbv zeta. split; [reflexivity|]. split; [reflexivity|].
  destruct (X25_status_runs_version_query default_config "status"
              (initial_world (fun _ _ _ => FileNotFoundError)) eq_refl eq_refl)
    as (Hr & Hi & _).
  split; [exact Hr|exact Hi].
Defined.

(** ** The tools *)

Lemma list_resources_invocations :
  forall (cfg : K8sConfig) (resource_type namespace : pyval) (w : world)
         (args : list string),
    all_str (list_command resource_type namespace) = Some args ->
    invocations (snd (list_resources cfg resource_type namespace w)) =
      (invocations w ++ [args])%list /\
    files (snd (list_resources cfg resource_type namespace w)) = files w.
Proof.
  intros cfg resource_type namespace w args Hargs.
  assert (H : exists r w',
             list_resources cfg resource_type namespace w = (r, w') /\
             invocations w' = (invocations w ++ [args])%list /\
             files w' = files w).
  { unfold list_resources, logged, try_except, mbind.
    fold (list_command resource_type namespace).
    rewrite run_kubectl_unfold, Hargs. cbv zeta.
    destruct (cli w (invocations w) args (timeout cfg)) as [rc out err| | |msg];
      try solve [cbn; do 2 eexists; split; [reflexivity|split; reflexivity]].
    unfold lift. cbn -[Json.loads summaries py_iter py_get].
    destruct (rc =? 0)%Z; cbn -[Json.loads summaries py_iter py_get];
      [|do 2 eexists; split; [reflexivity|split; reflexivity]].
    destruct (Json.loads out) as [e|data];
      [cbn; do 2 eexists; split; [reflexivity|split; reflexivity]|].
    destruct (py_get data "items" (PList [])) as [e|f];
      [cbn; do 2 eexists; split; [reflexivity|split; reflexivity]|].
    destruct (py_iter f) as [e|items];
      [cbn; do 2 eexists; split; [reflexivity|split; reflexivity]|].
    destruct (summaries items) as [e|rs];
      cbn; do 2 eexists; (split; [reflexivity|split; reflexivity]). }
  destruct H as (r & w' & -> & Hi & Hf). split; assumption.
Qed.

Lemma list_tool_invocations :
  forall (cfg : K8sConfig) (t : string) (w : world),
    In t ["deployments"; "services"; "pods"] ->
    invocations
      (snd (ListResourcesTool._run cfg
              (Json.dumps (PDict [("resource_type", PStr t)])) w)) =
      (invocations w ++ [["kubectl"; "get"; t; "-o"; "json"]])%list.
Proof.
  intros cfg t w Ht.
  assert (Hl : Json.loads (Json.dumps (PDict [("resource_type", PStr t)])) =
               ret (PDict [("resource_type", PStr t)])).
  { destruct Ht as [<-|[<-|[<-|[]]]]; vm_compute; reflexivity. }
  destruct (list_resources_invocations cfg (PStr t) PNone w
              ["kubectl"; "get"; t; "-o"; "json"] eq_refl) as (Hi & _).
  unfold ListResourcesTool._run, try_except, mbind, lift. rewrite Hl.
  cbn [py_get ret dict_get dict_lookup String.eqb Ascii.eqb Bool.eqb].
  destruct (list_resources cfg (PStr t) PNone w) as [[e|[|r rs]] w1];
    cbn [snd] in Hi; cbn; exact Hi.
Qed.

(** The [except] branch of a [_process_*_command] method starts no
    process. *)
Lemma guarded_invocations :
  forall (what : string) (body : M string) (w : world),
    invocations (snd (K8sAgent.guarded what body w)) = invocations (snd (body w)).
Proof.
  intros what body w. unfold K8sAgent.guarded, try_except.
  destruct (body w) as [[e|a] w']; reflexivity.
Qed.

(** X26: whatever the text, [_process_list_command] starts exactly one
    process: kubectl get T -o json, where T is deployments when the text
    has deployment in it (in any case), else services when it has service
    in it, else pods.  The command line never names a namespace, so the
    listing is not confined to the namespace of the configuration. *)
Theorem X26_list_command_line :
  forall (cfg : K8sConfig) (user_input : string) (w : world),
    invocations (snd (K8sAgent._process_list_command cfg user_input w)) =
      (invocations w ++
       [["kubectl"; "get"; listed_type user_input; "-o"; "json"]])%list.
Proof.
  intros cfg user_input w.
  unfold K8sAgent._process_list_command. rewrite guarded_invocations.
  unfold K8sAgent.list_parameters. fold (listed_type user_input).
  apply list_tool_invocations. unfold listed_type.
  destruct (Str.contains "deployment" _); [cbn; auto|].
  destruct (Str.contains "service" _); cbn; auto.
Qed.

(** X27: a tool whose input is not a JSON text answers with Error: and
    the text of the decode error, also the deployment tool, which takes
    the error for an unexpected one; no process starts and no file is
    written. *)
Theorem X27_tools_reject_bad_json :
  forall (cfg : K8sConfig) (tool_input : string) (e : exn) (w : world),
    Json.loads tool_input = raise e ->
    Forall (fun tool : string -> M string =>
              fst (tool tool_input w) = ret ("Error: " ++ exn_str e) /\
              invocations (snd (tool tool_input w)) = invocations w /\
              files (snd (tool tool_input w)) = files w)
           (_create_tools cfg).
Proof.
  intros cfg tool_input e w Hloads.
  pose proof (JsonFacts.loads_error tool_input e Hloads) as He.
  destruct e; try discriminate.
  unfold _create_tools.
  repeat constructor;
    unfold CreateDeploymentTool._run, CreateServiceTool._run,
      ListResourcesTool._run, ScaleDeploymentTool._run, GetLogsTool._run,
      try_except, mbind, lift;
    rewrite Hloads; reflexivity.
Qed.

(** X27 for an input that is no JSON text. *)
Lemma X27_tools_reject_bad_json_witness :
  let w := initial_world (fun _ _ _ => Completed 0 "" "") in
  Json.loads "name=api" = raise (JSONDecodeError "Expecting value") /\
  Forall (fun tool : string -> M string =>
            fst (tool "name=api" w) = ret "Error: Expecting value" /\
            invocations (snd (tool "name=api" w)) = [] /\
            files (snd (tool "name=api" w)) = [])
         (_create_tools default_config).
Proof.
  cbv zeta. split; [reflexivity|].
  exact (X27_tools_reject_bad_json default_config "name=api"
           (JSONDecodeError "Expecting value")
           (initial_world (fun _ _ _ => Completed 0 "" "")) eq_refl).
Defined.

(** X28: the log tool asks for a pod: when the input is a JSON object
    whose [pod_name] is missing, null, empty, zero or false, the tool
    answers [Error: pod_name is required], starts no process and writes no
    file. *)
Theorem X28_logs_tool_requires_pod_name :
  forall (cfg : K8sConfig) (tool_input : string) (d : list (string * pyval))
         (w : world),
    Json.loads tool_input = ret (PDict d) ->
    truthy (dict_get d "pod_name" PNone) = false ->
    fst (GetLogsTool._run cfg tool_input w) = ret "Error: pod_name is required" /\
    invocations (snd (GetLogsTool._run cfg tool_input w)) = invocations w /\
    files (snd (GetLogsTool._run cfg tool_input w)) = files w.
Proof.
  intros cfg tool_input d w Hloads Hpod.
  unfold GetLogsTool._run, try_except, mbind, lift. rewrite Hloads.
  cbn [py_get ret]. rewrite Hpod. repeat split.
Qed.

(** X28 for the empty object. *)
Lemma X28_logs_tool_requires_pod_name_witness :
  let w := initial_world (fun _ _ _ => Completed 0 "" "") in
  Json.loads "{}" = ret (PDict []) /\
  fst (GetLogsTool._run default_config "{}" w) = ret "Error: pod_name is required" /\
  invocations (snd (GetLogsTool._run default_config "{}" w)) = [].
Proof.
  cbv zeta. split; [reflexivity|].
  destruct (X28_logs_tool_requires_pod_name default_config "{}" []
              (initial_world (fun _ _ _ => Completed 0 "" "")) eq_refl eq_refl)
    as (Hr & Hi & _).
  split; [exact Hr|exact Hi].
Defined.





